(** * Smart-cut core of lossless-cut: cut-point resolution, codec-parameter
      derivation and encoder quality arguments

    Shallow embedding of [src/renderer/src/smartcut.ts].

    - ECMAScript numbers are IEEE 754 binary64 values; they are modelled by
      the Standard Library's [spec_float] at precision 53 and maximal
      exponent 1024, so that NaN, the infinities, the signed zeros and the
      rounding of every product and quotient are those of the program.
    - ECMAScript strings are modelled by [string], a string being held as
      the bytes of its UTF-8 encoding; the identifiers, flags and digit
      strings of this module are ASCII.
    - [async] functions are modelled in a small monad that records the
      observable effects (keyframe queries, file stat, console output) in
      order and carries either a value or the thrown error. *)

From Stdlib Require Import ZArith Lia Bool List String Ascii.
From Stdlib Require Import Floats.SpecFloat DecimalString.
Import ListNotations.

Local Open Scope string_scope.
Local Open Scope Z_scope.

(* ================================================================== *)
(** * ECMAScript numbers *)
(* ================================================================== *)

Module JSNumber.

Definition prec : Z := 53.
Definition emax : Z := 1024.

(** A [number] is a binary64 value. Finite values are kept in the unique
    canonical form ([wellFormed]): every operation below returns
    canonical values on canonical arguments. *)
Definition number : Type := spec_float.

Definition wellFormed (x : number) : bool := valid_binary prec emax x.

Definition NaN : number := S754_nan.
Definition Infinity : number := S754_infinity false.
Definition posZero : number := S754_zero false.
Definition negZero : number := S754_zero true.

(** The Number value of a mathematical integer (round to nearest, ties to
    even); [ofZ 0] is [+0]. *)
Definition ofZ (z : Z) : number := binary_normalize prec emax z 0 false.

(** The literal [1.2]: the binary64 value nearest to 12/10,
    0x1.3333333333333p+0. *)
Definition lit_1_2 : number := S754_finite false 5404319552844595 (-52).

Definition mul (x y : number) : number := SFmul prec emax x y.
Definition div (x y : number) : number := SFdiv prec emax x y.

(** [x >= y], [x === y] and [Number.isNaN(x)]. *)
Definition geb (x y : number) : bool := SFleb y x.
Definition strictEqb (x y : number) : bool := SFeqb x y.
Definition isNaN (x : number) : bool :=
  match x with S754_nan => true | _ => false end.

(** [Math.floor]. NaN, the infinities and the zeros are returned as they
    are; so is a finite value with a non-negative exponent, which is an
    integer. Otherwise the value is [m / 2^k] with [k = -e > 0]: for a
    positive argument the fractional bits of the mantissa are cleared
    (giving [+0] when no integer bit is left), for a negative argument
    with a non-zero fractional part the magnitude is rounded up. *)
Definition floor (x : number) : number :=
  match x with
  | S754_finite s m e =>
      if 0 <=? e then x
      else
        let k := - e in
        let q := Z.shiftr (Zpos m) k in
        let r := Z.land (Zpos m) (Z.ones k) in
        if s then
          if r =? 0 then x
          else binary_normalize prec emax (- (q + 1)) 0 false
        else
          match Z.shiftl q k with
          | Zpos m' => S754_finite false m' e
          | _ => S754_zero false
          end
  | _ => x
  end.

(** [Number.isInteger] restricted to the non-negative values. *)
Definition isNonNegInteger (x : number) : bool :=
  match x with
  | S754_zero _ => true
  | S754_finite false m e =>
      (0 <=? e) || (Z.land (Zpos m) (Z.ones (- e)) =? 0)
  | _ => false
  end.

(** The sign bit is clear and the value is not NaN: [+0], a positive
    finite value or [+Infinity]. *)
Definition isNonNeg (x : number) : bool :=
  match x with
  | S754_zero false | S754_infinity false | S754_finite false _ _ => true
  | _ => false
  end.

Definition isFinite (x : number) : bool :=
  match x with
  | S754_zero _ | S754_finite _ _ _ => true
  | _ => false
  end.

(** A finite value strictly greater than zero. *)
Definition isPositiveFinite (x : number) : bool :=
  match x with
  | S754_finite false _ _ => true
  | _ => false
  end.

(** ** Number::toString (radix 10), the conversion used by [String(n)]
    and by template literals. *)

Definition digitsOfZ (z : Z) : string :=
  NilZero.string_of_uint (N.to_uint (Z.to_N z)).

Fixpoint zeros (n : nat) : string :=
  match n with
  | O => EmptyString
  | S n' => String "0" (zeros n')
  end.

(** Compare [a * 10^t] with [c * 2^g], all exact. *)
Definition cmpScaled (a t c g : Z) : comparison :=
  Z.compare (a * 10 ^ Z.max t 0 * 2 ^ Z.max (- g) 0)
            (c * 2 ^ Z.max g 0 * 10 ^ Z.max (- t) 0).

(** [floor (m * 2^e / 10^t)]. *)
Definition floorScaled (m e t : Z) : Z :=
  (m * 2 ^ Z.max e 0 * 10 ^ Z.max (- t) 0)
    / (2 ^ Z.max (- e) 0 * 10 ^ Z.max t 0).

(** The least [n >= n0] with [m * 2^e < 10^n]. *)
Fixpoint decimalExponentFrom (fuel : nat) (m e n : Z) : Z :=
  match fuel with
  | O => n
  | S fuel' =>
      match cmpScaled 1 n m e with
      | Gt => n
      | _ => decimalExponentFrom fuel' m e (n + 1)
      end
  end.

Definition decimalExponent (m e : Z) : Z :=
  let bits := Zpos (digits2_pos (Z.to_pos m)) + e in
  decimalExponentFrom 8 m e (((bits - 1) * 30103) / 100000 - 2).

(** Does the decimal [s * 10^t] round to the binary64 value [m * 2^e]?
    The rounding interval is [(4m - d) * 2^(e-2), (4m + 2) * 2^(e-2)],
    with [d = 1] just above a power of two and [d = 2] elsewhere; its
    end points belong to it when [m] is even. *)
Definition roundsTo (m e s t : Z) : bool :=
  let d := if (m =? 2 ^ (prec - 1)) && (3 - emax - prec <? e) then 1 else 2 in
  let lo := cmpScaled s t (4 * m - d) (e - 2) in
  let hi := cmpScaled s t (4 * m + 2) (e - 2) in
  match lo, hi with
  | Gt, Lt => true
  | Eq, _ | _, Eq => Z.even m
  | _, _ => false
  end.

(** The shortest digit string: the least [k], then the [s] closest to the
    value, with [n] the position of the decimal point. *)
Fixpoint shortestFrom (fuel : nat) (m e n k : Z) : Z * Z * Z :=
  let t := n - k in
  let s1 := floorScaled m e t in
  let s2 := s1 + 1 in
  let ok1 := roundsTo m e s1 t && (10 ^ (k - 1) <=? s1) in
  let ok2 := roundsTo m e s2 t in
  (* is [s2 * 10^t] strictly closer to the value than [s1 * 10^t]? *)
  let upperCloser :=
    match cmpScaled (2 * s1 + 1) t (2 * m) e with
    | Lt => true
    | Eq => Z.odd s1
    | Gt => false
    end in
  let pick s := if s =? 10 ^ k then (n + 1, k, 10 ^ (k - 1)) else (n, k, s) in
  match fuel with
  | O => pick (if upperCloser then s2 else s1)
  | S fuel' =>
      if ok1 && ok2 then pick (if upperCloser then s2 else s1)
      else if ok1 then pick s1
      else if ok2 then pick s2
      else shortestFrom fuel' m e n (k + 1)
  end.

Definition formatDecimal (n k s : Z) : string :=
  let ds := digitsOfZ s in
  let expo (x : Z) :=
    String.append (if 0 <=? x then "e+" else "e-") (digitsOfZ (Z.abs x)) in
  if (k <=? n) && (n <=? 21) then
    String.append ds (zeros (Z.to_nat (n - k)))
  else if (0 <? n) && (n <=? 21) then
    String.append (substring 0 (Z.to_nat n) ds)
      (String.append "." (substring (Z.to_nat n) (Z.to_nat (k - n)) ds))
  else if (-6 <? n) && (n <=? 0) then
    String.append "0." (String.append (zeros (Z.to_nat (- n))) ds)
  else if k =? 1 then
    String.append ds (expo (n - 1))
  else
    String.append (substring 0 1 ds)
      (String.append "." (String.append (substring 1 (Z.to_nat (k - 1)) ds)
                                        (expo (n - 1)))).

Definition toString (x : number) : string :=
  match x with
  | S754_nan => "NaN"
  | S754_zero _ => "0"
  | S754_infinity s => if s then "-Infinity" else "Infinity"
  | S754_finite s m e =>
      let '(n, k, d) :=
        shortestFrom 17 (Zpos m) e (decimalExponent (Zpos m) e) 1 in
      String.append (if s then "-" else "") (formatDecimal n k d)
  end.

End JSNumber.

(* ================================================================== *)
(** * ECMAScript strings *)
(* ================================================================== *)

Module JSString.
Import JSNumber.

(** [s.includes(sub)]: [sub] occurs in [s] at some position. *)
Fixpoint includes (s sub : string) : bool :=
  if prefix sub s then true
  else
    match s with
    | EmptyString => false
    | String _ s' => includes s' sub
    end.

(** StrWhiteSpaceChar (WhiteSpace and LineTerminator), by the length of
    its UTF-8 encoding. One byte: TAB, LF, VT, FF, CR, SP. *)
Definition isWhiteSpace (c : ascii) : bool :=
  let n := N_of_ascii c in
  (((9 <=? n) && (n <=? 13)) || (n =? 32))%N.

(** Two bytes: U+00A0 (no-break space), encoded C2 A0. *)
Definition isWhiteSpace2 (c1 c2 : ascii) : bool :=
  ((N_of_ascii c1 =? 194) && (N_of_ascii c2 =? 160))%N.

(** Three bytes: U+1680 (E1 9A 80); U+2000 to U+200A (E2 80 80 to E2 80 8A);
    the line and paragraph separators U+2028, U+2029 (E2 80 A8, E2 80 A9);
    U+202F (E2 80 AF); U+205F (E2 81 9F); U+3000 (E3 80 80); and the byte
    order mark U+FEFF (EF BB BF). *)
Definition isWhiteSpace3 (c1 c2 c3 : ascii) : bool :=
  let b1 := N_of_ascii c1 in
  let b2 := N_of_ascii c2 in
  let b3 := N_of_ascii c3 in
  (((b1 =? 225) && (b2 =? 154) && (b3 =? 128))
   || ((b1 =? 226) && (b2 =? 128)
       && (((128 <=? b3) && (b3 <=? 138))
           || (b3 =? 168) || (b3 =? 169) || (b3 =? 175)))
   || ((b1 =? 226) && (b2 =? 129) && (b3 =? 159))
   || ((b1 =? 227) && (b2 =? 128) && (b3 =? 128))
   || ((b1 =? 239) && (b2 =? 187) && (b3 =? 191)))%N.

(** The string without its leading StrWhiteSpaceChar characters. *)
Fixpoint trimStart (s : string) : string :=
  match s with
  | String c1 s1 =>
      if isWhiteSpace c1 then trimStart s1
      else
        match s1 with
        | String c2 s2 =>
            if isWhiteSpace2 c1 c2 then trimStart s2
            else
              match s2 with
              | String c3 s3 =>
                  if isWhiteSpace3 c1 c2 c3 then trimStart s3 else s
              | EmptyString => s
              end
        | EmptyString => s
        end
  | EmptyString => s
  end.

Definition digitValue (c : ascii) : option Z :=
  let n := N_of_ascii c in
  if ((48 <=? n) && (n <=? 57))%N then Some (Z.of_N n - 48) else None.

(** The value of the longest prefix of decimal digits, [None] when that
    prefix is empty. *)
Fixpoint digitsPrefix (s : string) (acc : option Z) : option Z :=
  match s with
  | String c s' =>
      match digitValue c with
      | Some d =>
          digitsPrefix s' (Some (10 * match acc with Some a => a | None => 0 end + d))
      | None => acc
      end
  | EmptyString => acc
  end.

(** [parseInt(input, 10)]. The argument is first converted to a string
    ([undefined] becomes ["undefined"]); leading white space and one sign
    are skipped; no digit gives NaN; otherwise the result is the Number
    value of the digits, correctly rounded, with [-0] for a negated zero. *)
Definition parseInt10 (input : option string) : number :=
  let S0 := trimStart (match input with Some s => s | None => "undefined" end) in
  let '(negative, S1) :=
    match S0 with
    | String "-" rest => (true, rest)
    | String "+" rest => (false, rest)
    | _ => (false, S0)
    end in
  match digitsPrefix S1 None with
  | None => NaN
  | Some 0 => S754_zero negative
  | Some mathInt => ofZ (if negative then - mathInt else mathInt)
  end.

End JSString.

(* ================================================================== *)
(** * EncoderQualityMapper *)
(* ================================================================== *)

Import JSNumber JSString.

(** ** [mapVideoCodec]

    [({ av1: 'libsvtav1' }[codec] ?? codec)]. The object literal has one own
    property; a property read that misses it continues in [Object.prototype],
    whose members are functions (and, for [__proto__], an object), none of
    them nullish. *)

Definition videoCodecTable : list (string * string) :=
  [("av1", "libsvtav1")].

Definition Object_prototype_keys : list string :=
  ["constructor"; "hasOwnProperty"; "isPrototypeOf"; "propertyIsEnumerable";
   "toLocaleString"; "toString"; "valueOf"; "__proto__";
   "__defineGetter__"; "__defineSetter__"; "__lookupGetter__";
   "__lookupSetter__"].

(** What a read of [table[key]] evaluates to. *)
Inductive PropertyValue : Type :=
| StringValue (s : string)
| InheritedMember (key : string)
| Undefined.

Fixpoint ownProperty (table : list (string * string)) (key : string)
  : option string :=
  match table with
  | [] => None
  | (k, v) :: rest => if String.eqb k key then Some v else ownProperty rest key
  end.

Definition getProperty (table : list (string * string)) (key : string)
  : PropertyValue :=
  match ownProperty table key with
  | Some v => StringValue v
  | None =>
      if existsb (String.eqb key) Object_prototype_keys
      then InheritedMember key
      else Undefined
  end.

Definition mapVideoCodec (codec : string) : PropertyValue :=
  match getProperty videoCodecTable codec with
  | Undefined => StringValue codec
  | v => v
  end.

(** ** [getOptimalCRF], [getOptimalPreset], [supportsCRF] *)

(** Strict equality of two strings. *)
Local Infix "===" := String.eqb (at level 70, no associativity).

Definition getOptimalCRF (encoder : string) : option number :=
  if encoder === "libx264" then Some (ofZ 23)
  else if encoder === "libx265" then Some (ofZ 28)
  else if encoder === "libsvtav1" then Some (ofZ 35)
  else if encoder === "h264_nvenc" then Some (ofZ 23)
  else if encoder === "hevc_nvenc" then Some (ofZ 28)
  else if encoder === "av1_nvenc" then Some (ofZ 30)
  else if encoder === "h264_videotoolbox" then None
  else if encoder === "hevc_videotoolbox" then None
  else if encoder === "h264_qsv" then Some (ofZ 23)
  else if encoder === "hevc_qsv" then Some (ofZ 28)
  else if encoder === "av1_qsv" then Some (ofZ 30)
  else if includes encoder "vaapi" then None
  else if encoder === "h264_amf" then Some (ofZ 23)
  else if encoder === "hevc_amf" then Some (ofZ 28)
  else if encoder === "av1_amf" then Some (ofZ 30)
  else None.

Definition getOptimalPreset (encoder : string) : option string :=
  if encoder === "libx264" then Some "medium"
  else if encoder === "libx265" then Some "medium"
  else if encoder === "libsvtav1" then Some "6"
  else if includes encoder "nvenc" then Some "p4"
  else if includes encoder "videotoolbox" then None
  else if includes encoder "qsv" then Some "medium"
  else if includes encoder "vaapi" then None
  else if includes encoder "amf" then Some "balanced"
  else None.

Definition supportsCRF (encoder : string) : bool :=
  match getOptimalCRF encoder with
  | Some _ => true
  | None => false
  end.

(** ** [getEncoderQualityArgs] *)

(** [a ?? b]. *)
Definition nullish {A : Type} (a b : option A) : option A :=
  match a with
  | Some _ => a
  | None => b
  end.

(** [args.push(...items)]. *)
Definition push {A : Type} (args items : list A) : list A :=
  (args ++ items)%list.

(** The template literal [`<flag>:${outputIndex}`]. *)
Definition scoped (flag : string) (outputIndex : number) : string :=
  flag ++ ":" ++ toString outputIndex.

Definition getEncoderQualityArgs (encoder : string) (outputIndex : number)
  (customCRF : option number) (customPreset : option string) : list string :=
  let args : list string := [] in
  let crf := nullish customCRF (getOptimalCRF encoder) in
  let preset := nullish customPreset (getOptimalPreset encoder) in
  let args :=
    match crf with
    | Some crf =>
        if includes encoder "nvenc" then
          push args [scoped "-cq" outputIndex; toString crf]
        else if includes encoder "qsv" then
          push args [scoped "-global_quality" outputIndex; toString crf]
        else if includes encoder "amf" then
          push args [scoped "-qp_i" outputIndex; toString crf;
                   scoped "-qp_p" outputIndex; toString crf]
        else
          push args [scoped "-crf" outputIndex; toString crf]
    | None => args
    end in
  let args :=
    match preset with
    | Some preset => push args [scoped "-preset" outputIndex; preset]
    | None => args
    end in
  let args :=
    if includes encoder "videotoolbox" then
      push args [scoped "-q" outputIndex; "65"]
    else args in
  args.

(* ================================================================== *)
(** * Data model *)
(* ================================================================== *)

(** The fields of an ffprobe stream that this module reads. *)
Record FFprobeStream : Type := {
  index : number;
  codec_type : string;
  codec_name : option string;
  bit_rate : option string;
  time_base : option string;
  disposition : list (string * number)
}.

Record Keyframe : Type := { time : number }.

Record Stats : Type := { size : number }.

Record CutDecision : Type := {
  losslessCutFrom : number;
  segmentNeedsSmartCut : bool
}.

(** [Timebase] is what [getVideoTimebase] returns for a stream whose
    time base it can parse. *)
Record CodecParams (Timebase : Type) : Type := {
  videoStream : FFprobeStream;
  videoCodec : PropertyValue;
  videoBitrate : number;
  videoTimebase : option Timebase
}.

Arguments videoStream {Timebase} c.
Arguments videoCodec {Timebase} c.
Arguments videoBitrate {Timebase} c.
Arguments videoTimebase {Timebase} c.

(* ================================================================== *)
(** * Effects of the asynchronous functions *)
(* ================================================================== *)

Module Async.

(** A property of an object literal passed to the console. *)
Inductive LogField : Type :=
| FNum (key : string) (n : number)
| FStr (key : string) (s : string)
| FValue (key : string) (v : PropertyValue).

(** A console argument. *)
Inductive LogArg : Type :=
| LStr (s : string)
| LNum (n : number)
| LOptStr (s : option string)
| LObject (fields : list LogField).

(** The observable effects, in the order of their occurrence. *)
Inductive Effect : Type :=
| ReadKeyframes (filePath : string) (streamIndex aroundTime window : number)
| StatFile (path : string)
| ConsoleLog (args : list LogArg)
| ConsoleWarn (args : list LogArg).

Section WithFailure.
(** What a rejected promise of an external collaborator carries. *)
Variable IOFailure : Type.

(** A thrown value: one of the two error kinds constructed by this
    module, or the rejection of an awaited external promise. *)
Inductive Thrown : Type :=
| UserFacingError (message : string)
| Error (message : string)
| Rejected (cause : IOFailure).

Inductive Outcome (A : Type) : Type :=
| Return (a : A)
| Throw (e : Thrown).

(** A computation: its effects and its outcome. *)
Definition M (A : Type) : Type := (list Effect * Outcome A)%type.

Definition ret {A : Type} (a : A) : M A := ([], Return A a).

Definition throw {A : Type} (e : Thrown) : M A := ([], Throw A e).

Definition bind {A B : Type} (m : M A) (f : A -> M B) : M B :=
  match m with
  | (t1, Return _ a) => let '(t2, r) := f a in ((t1 ++ t2)%list, r)
  | (t1, Throw _ e) => (t1, Throw B e)
  end.

Definition emit (ev : Effect) : M unit := ([ev], Return unit tt).

(** [await] of an external call: the call is observed, then its promise
    resolves or rejects. *)
Definition await {A : Type} (ev : Effect) (r : IOFailure + A) : M A :=
  match r with
  | inr a => ([ev], Return A a)
  | inl cause => ([ev], Throw A (Rejected cause))
  end.

Definition effects {A : Type} (m : M A) : list Effect := fst m.
Definition outcome {A : Type} (m : M A) : Outcome A := snd m.
End WithFailure.

Arguments UserFacingError {IOFailure} message.
Arguments Error {IOFailure} message.
Arguments Rejected {IOFailure} cause.
Arguments Return {IOFailure A} a.
Arguments Throw {IOFailure A} e.
Arguments ret {IOFailure A} a.
Arguments throw {IOFailure A} e.
Arguments bind {IOFailure A B} m f.
Arguments emit {IOFailure} ev.
Arguments await {IOFailure A} ev r.
Arguments effects {IOFailure A} m.
Arguments outcome {IOFailure A} m.

Declare Scope async_scope.
Delimit Scope async_scope with async.
Notation "x <- m ;; k" := (bind m (fun x => k))
  (at level 61, m at next level, right associativity) : async_scope.
Notation "m ;;; k" := (bind m (fun _ => k))
  (at level 61, right associativity) : async_scope.

(** The windows of the keyframe queries among the effects. *)
Fixpoint queriedWindows (t : list Effect) : list number :=
  match t with
  | [] => []
  | ReadKeyframes _ _ _ w :: t' => w :: queriedWindows t'
  | _ :: t' => queriedWindows t'
  end.

End Async.

Import Async.
Local Open Scope async_scope.

(* ================================================================== *)
(** * CutPointResolver and CodecParameterDeriver *)
(* ================================================================== *)

Section SmartCut.

Variable IOFailure : Type.

(** The collaborators imported from [./ffmpeg], [./util/streams],
    [fs-extra] and [i18next]. *)
Variable readKeyframesAroundTime :
  string -> number -> number -> number -> IOFailure + list Keyframe.
Variable findKeyframeAtExactTime : list Keyframe -> number -> option Keyframe.
Variable findNextKeyframe : list Keyframe -> number -> option Keyframe.
Variable stat : string -> IOFailure + Stats.
Variable getRealVideoStreams : list FFprobeStream -> list FFprobeStream.
Variable Timebase : Type.
Variable getVideoTimebase : FFprobeStream -> option Timebase.
Variable i18n_t : string -> string.

Definition readKeyframes (path : string) (desiredCutFrom streamIndex window : number)
  : M IOFailure (list Keyframe) :=
  await (ReadKeyframes path streamIndex desiredCutFrom window)
        (readKeyframesAroundTime path streamIndex desiredCutFrom window).

Definition needsSmartCut (path : string) (desiredCutFrom : number)
  (videoStreamIndex : number) : M IOFailure CutDecision :=
  let readKeyframes := readKeyframes path desiredCutFrom videoStreamIndex in
  keyframes <- readKeyframes (ofZ 10) ;;
  match findKeyframeAtExactTime keyframes desiredCutFrom with
  | Some keyframeAtExactTime =>
      emit (ConsoleLog [LStr "Start cut is already on exact keyframe";
                        LNum (time keyframeAtExactTime)]) ;;;
      ret {| losslessCutFrom := time keyframeAtExactTime;
             segmentNeedsSmartCut := false |}
  | None =>
      let nextKeyframe := findNextKeyframe keyframes desiredCutFrom in
      nextKeyframe <-
        match nextKeyframe with
        | None =>
            (* try again with a larger window *)
            keyframes <- readKeyframes (ofZ 60) ;;
            ret (findNextKeyframe keyframes desiredCutFrom)
        | Some _ => ret nextKeyframe
        end ;;
      match nextKeyframe with
      | None =>
          throw (UserFacingError
                   (i18n_t "Cannot find any keyframe after the desired start cut point"))
      | Some nextKeyframe =>
          emit (ConsoleLog [LStr "Smart cut from keyframe";
                            LObject [FNum "keyframe" (time nextKeyframe);
                                     FNum "desiredCutFrom" desiredCutFrom]]) ;;;
          ret {| losslessCutFrom := time nextKeyframe;
                 segmentNeedsSmartCut := true |}
      end
  end.

(** [(stats.size * 8) / fileDuration]. *)
Definition estimateBitrate (stats : Stats) (fileDuration : number) : number :=
  div (mul (size stats) (ofZ 8)) fileDuration.

Definition getCodecParams (path : string) (fileDuration : option number)
  (streams : list FFprobeStream) : M IOFailure (CodecParams Timebase) :=
  let videoStreams := getRealVideoStreams streams in
  if (1 <? List.length videoStreams)%nat then
    throw (Error "Can only smart cut video with exactly one video stream")
  else
    match videoStreams with
    | [] => throw (Error "Smart cut only works on videos")
    | videoStream :: _ =>
        let videoBitrate := parseInt10 (bit_rate videoStream) in
        videoBitrate <-
          (if isNaN videoBitrate then
             emit (ConsoleWarn [LStr "Unable to detect input bitrate."]) ;;;
             stats <- await (StatFile path) (stat path) ;;
             match fileDuration with
             | None =>
                 throw (Error "Video duration is unknown, cannot estimate bitrate")
             | Some fileDuration =>
                 let videoBitrate := estimateBitrate stats fileDuration in
                 emit (ConsoleWarn [LStr "Estimated bitrate.";
                                    LNum (div videoBitrate (ofZ 1000000));
                                    LStr "Mbit/s"]) ;;;
                 ret videoBitrate
             end
           else ret videoBitrate) ;;
        (* to account for inaccuracies and quality loss *)
        let videoBitrate := floor (mul videoBitrate lit_1_2) in
        match codec_name videoStream with
        | None => throw (Error "Unable to determine codec for smart cut")
        | Some detectedVideoCodec =>
            let videoCodec := mapVideoCodec detectedVideoCodec in
            emit (ConsoleLog [LObject [FStr "detectedVideoCodec" detectedVideoCodec;
                                       FValue "videoCodec" videoCodec]]) ;;;
            let timebase := getVideoTimebase videoStream in
            (match timebase with
             | None => emit (ConsoleWarn [LStr "Unable to determine timebase";
                                          LOptStr (time_base videoStream)])
             | Some _ => ret tt
             end) ;;;
            ret {| videoStream := videoStream;
                   videoCodec := videoCodec;
                   videoBitrate := floor videoBitrate;
                   videoTimebase := timebase |}
        end
    end.

End SmartCut.

(** The twelve names for which [getOptimalCRF] has a value. *)
Definition crfNames : list string :=
  ["libx264"; "libx265"; "libsvtav1";
   "h264_nvenc"; "hevc_nvenc"; "av1_nvenc";
   "h264_qsv"; "hevc_qsv"; "av1_qsv";
   "h264_amf"; "hevc_amf"; "av1_amf"].

(* ================================================================== *)
(** * What a window of keyframes contains *)
(* ================================================================== *)

(** Some keyframe of the window has a time [===] to [t]. *)
Definition hasKeyframeAt (keyframes : list Keyframe) (t : number) : Prop :=
  exists kf, In kf keyframes /\ strictEqb (time kf) t = true.

(** Some keyframe of the window has a time [>= t]. *)
Definition hasKeyframeAtOrAfter (keyframes : list Keyframe) (t : number) : Prop :=
  exists kf, In kf keyframes /\ geb (time kf) t = true.

(** The contracts of the two keyframe helpers: what they return is a
    keyframe of the window with the required time, and they return nothing
    only when the window has no such keyframe. *)
Definition ExactTimeContract
  (findKeyframeAtExactTime : list Keyframe -> number -> option Keyframe) : Prop :=
  forall keyframes t,
    match findKeyframeAtExactTime keyframes t with
    | Some kf => In kf keyframes /\ strictEqb (time kf) t = true
    | None => ~ hasKeyframeAt keyframes t
    end.

Definition NextKeyframeContract
  (findNextKeyframe : list Keyframe -> number -> option Keyframe) : Prop :=
  forall keyframes t,
    match findNextKeyframe keyframes t with
    | Some kf => In kf keyframes /\ geb (time kf) t = true
    | None => ~ hasKeyframeAtOrAfter keyframes t
    end.

(** The helpers return only keyframes with the time they are asked for. *)
Definition ExactTimeSound
  (findKeyframeAtExactTime : list Keyframe -> number -> option Keyframe) : Prop :=
  forall keyframes t kf,
    findKeyframeAtExactTime keyframes t = Some kf -> strictEqb (time kf) t = true.

Definition NextKeyframeSound
  (findNextKeyframe : list Keyframe -> number -> option Keyframe) : Prop :=
  forall keyframes t kf,
    findNextKeyframe keyframes t = Some kf -> geb (time kf) t = true.

(** A helper returns only keyframes of the window it is given. *)
Definition ReturnsKeyframeOfWindow
  (find : list Keyframe -> number -> option Keyframe) : Prop :=
  forall keyframes t kf, find keyframes t = Some kf -> In kf keyframes.

(** The first window (10) of the keyframe source holds no keyframe at, and
    none at or after, the desired time. *)
Definition firstWindowEmpty {IOFailure : Type}
  (readKeyframesAroundTime :
     string -> number -> number -> number -> IOFailure + list Keyframe)
  (path : string) (desiredCutFrom streamIndex : number) : Prop :=
  exists keyframes,
    readKeyframesAroundTime path streamIndex desiredCutFrom (ofZ 10) = inr keyframes
    /\ ~ hasKeyframeAt keyframes desiredCutFrom
    /\ ~ hasKeyframeAtOrAfter keyframes desiredCutFrom.

(** The widened window (60) holds no keyframe at or after the desired time. *)
Definition widenedWindowEmpty {IOFailure : Type}
  (readKeyframesAroundTime :
     string -> number -> number -> number -> IOFailure + list Keyframe)
  (path : string) (desiredCutFrom streamIndex : number) : Prop :=
  exists widened,
    readKeyframesAroundTime path streamIndex desiredCutFrom (ofZ 60) = inr widened
    /\ ~ hasKeyframeAtOrAfter widened desiredCutFrom.

(* ================================================================== *)
(** * The collaborators, modelled from the spec *)
(* ================================================================== *)

Module Collaborators.

(** Modelled from the spec: [findKeyframeAtExactTime] of [./ffmpeg], the
    first keyframe of the window whose time matches the desired time
    exactly, with no tolerance. *)
Definition findKeyframeAtExactTime (keyframes : list Keyframe) (t : number)
  : option Keyframe :=
  find (fun kf => strictEqb (time kf) t) keyframes.

(** Modelled from the spec: [findNextKeyframe] of [./ffmpeg], the earliest
    keyframe of the (ascending) window with time [>=] the desired time. *)
Definition findNextKeyframe (keyframes : list Keyframe) (t : number)
  : option Keyframe :=
  find (fun kf => geb (time kf) t) keyframes.

Definition dispositionFlag (s : FFprobeStream) (flag : string) : option number :=
  option_map snd (find (fun kv => String.eqb (fst kv) flag) (disposition s)).

(** Modelled from the spec: [getRealVideoStreams] of [./util/streams], the
    video-typed streams without the thumbnail (attached picture)
    disposition. *)
Definition getRealVideoStreams (streams : list FFprobeStream)
  : list FFprobeStream :=
  filter (fun s =>
            String.eqb (codec_type s) "video"
            && negb match dispositionFlag s "attached_pic" with
                    | Some flag => strictEqb flag (ofZ 1)
                    | None => false
                    end)
         streams.

(** The text before and after the first ['/'] of a string. *)
Fixpoint splitAtSlash (s : string) : string * option string :=
  match s with
  | EmptyString => (EmptyString, None)
  | String c s' =>
      if Ascii.eqb c "/" then (EmptyString, Some s')
      else let '(a, b) := splitAtSlash s' in (String c a, b)
  end.

(** Modelled from the spec: [getVideoTimebase] of [./util/streams], the
    time-base fraction (numerator, denominator) of the stream, absent when
    it cannot be parsed. *)
Definition getVideoTimebase (s : FFprobeStream) : option (number * number) :=
  match time_base s with
  | None => None
  | Some tb =>
      let '(num, den) := splitAtSlash tb in
      let n := parseInt10 (Some num) in
      let d := parseInt10 den in
      if isNaN n || isNaN d then None else Some (n, d)
  end.

(** Modelled from the spec: the translation of [i18next]; the message is its
    own key. *)
Definition i18n_t (key : string) : string := key.

End Collaborators.

(* ================================================================== *)
(** * A sample file *)
(* ================================================================== *)

Module Sample.

Definition keyframeAt (t : Z) : Keyframe := {| time := ofZ t |}.

(** Keyframes every 50 seconds; only those within [window] of the queried
    time are reported. *)
Definition readKeyframesAroundTime (filePath : string)
  (streamIndex aroundTime window : number) : string + list Keyframe :=
  if String.eqb filePath "missing.mp4" then inl "ENOENT"
  else
    inr (filter (fun kf =>
                   geb (time kf) (SFsub prec emax aroundTime window)
                   && geb (SFadd prec emax aroundTime window) (time kf))
                (map keyframeAt [0; 50; 100; 150; 200])).

Definition stat (path : string) : string + Stats :=
  if String.eqb path "missing.mp4" then inl "ENOENT"
  else if String.eqb path "empty.mp4" then inr {| size := ofZ 0 |}
  else inr {| size := ofZ 12500000 |}.

Definition video (codec bitRate : option string) : FFprobeStream :=
  {| index := ofZ 0; codec_type := "video"; codec_name := codec;
     bit_rate := bitRate; time_base := Some "1/90000"; disposition := [] |}.

Definition audio : FFprobeStream :=
  {| index := ofZ 1; codec_type := "audio"; codec_name := Some "aac";
     bit_rate := Some "128000"; time_base := Some "1/48000";
     disposition := [] |}.

Definition needsSmartCut :=
  needsSmartCut string readKeyframesAroundTime
    Collaborators.findKeyframeAtExactTime Collaborators.findNextKeyframe
    Collaborators.i18n_t.

Definition getCodecParams :=
  getCodecParams string stat Collaborators.getRealVideoStreams
    (number * number) Collaborators.getVideoTimebase.

End Sample.


(* ================================================================== *)
(** * Vocabulary for the CodecParameterDeriver *)
(* ================================================================== *)

(** How [getCodecParams] ends once the bit rate [rate] of the selected
    stream is chosen (parsed or estimated): the margin, the codec check and
    the assembly of the result. *)
Definition codecOutcome {IOFailure Timebase : Type}
  (getVideoTimebase : FFprobeStream -> option Timebase)
  (videoStream : FFprobeStream) (rate : number)
  : Outcome IOFailure (CodecParams Timebase) :=
  match codec_name videoStream with
  | None => Throw (Error "Unable to determine codec for smart cut")
  | Some detectedVideoCodec =>
      Return (Build_CodecParams Timebase videoStream
                (mapVideoCodec detectedVideoCodec)
                (floor (floor (mul rate lit_1_2)))
                (getVideoTimebase videoStream))
  end.

(** The four contract violations: no real video stream, more than one, a
    selected stream without codec identifier, or an unparseable bit rate
    together with an absent duration. *)
Definition contractViolation (realVideoStreams : list FFprobeStream)
  (fileDuration : option number) : Prop :=
  List.length realVideoStreams = 0%nat
  \/ (1 < List.length realVideoStreams)%nat
  \/ (exists videoStream,
        realVideoStreams = [videoStream] /\ codec_name videoStream = None)
  \/ (exists videoStream,
        realVideoStreams = [videoStream]
        /\ isNaN (parseInt10 (bit_rate videoStream)) = true
        /\ fileDuration = None).

(** The bit rate is unparseable, so the file is stat'd, and the stat is
    rejected. *)
Definition statRejected {IOFailure : Type} (stat : string -> IOFailure + Stats)
  (realVideoStreams : list FFprobeStream) (path : string) : Prop :=
  exists videoStream cause,
    realVideoStreams = [videoStream]
    /\ isNaN (parseInt10 (bit_rate videoStream)) = true
    /\ stat path = inl cause.

(** A thrown value of the plain internal kind, constructed by this module. *)
Definition isInternalError {IOFailure A : Type} (o : Outcome IOFailure A) : Prop :=
  exists message, o = Throw (Error message).

(** A thrown value that is not a [UserFacingError]: a plain [Error] of this
    module, or the error with which an awaited call was rejected. *)
Definition isNonUserFacingError {IOFailure A : Type} (o : Outcome IOFailure A)
  : Prop :=
  exists e, o = Throw e /\ forall message, e <> UserFacingError message.

Definition isUserFacingError {IOFailure A : Type} (o : Outcome IOFailure A) : Prop :=
  exists message, o = Throw (UserFacingError message).

Definition returns {IOFailure A : Type} (o : Outcome IOFailure A) : Prop :=
  exists a, o = Return a.

(** A non-negative integer, or [+Infinity]. *)
Definition isNonNegIntegerOrInfinity (x : number) : Prop :=
  x = Infinity \/ (isNonNeg x = true /\ isNonNegInteger x = true).

(** The bit rate that [getCodecParams] starts from is not negative: either
    the reported bit rate parses to a number that is not negative, or it is
    unparseable and the estimate divides a size that is not negative by a
    positive finite duration. *)
Definition bitrateSourceNonNegative {IOFailure : Type}
  (stat : string -> IOFailure + Stats) (realVideoStreams : list FFprobeStream)
  (path : string) (fileDuration : option number) : Prop :=
  exists videoStream,
    realVideoStreams = [videoStream]
    /\ (isNonNeg (parseInt10 (bit_rate videoStream)) = true
        \/ (isNaN (parseInt10 (bit_rate videoStream)) = true
            /\ exists stats duration,
                stat path = inr stats
                /\ fileDuration = Some duration
                /\ isNonNeg (size stats) = true
                /\ isPositiveFinite duration = true)).

(* ================================================================== *)
(** * Vocabulary for the quality arguments *)
(* ================================================================== *)

(** The flags that [getEncoderQualityArgs] can emit. *)
Definition flagNames : list string :=
  ["-cq"; "-global_quality"; "-qp_i"; "-qp_p"; "-crf"; "-preset"; "-q"].

(** The flags that carry a CRF/CQ value. *)
Definition qualityFlagNames : list string :=
  ["-cq"; "-global_quality"; "-qp_i"; "-qp_p"; "-crf"].

(** The tokens of a list of (flag, value) pairs, each flag scoped to the
    output index. *)
Definition tokensOfPairs (outputIndex : number) (pairs : list (string * string))
  : list string :=
  flat_map (fun nv => [scoped (fst nv) outputIndex; snd nv]) pairs.

(** The quality dialect of an encoder identifier: the (flag, value) pairs
    that carry the quality [q]. *)
Definition qualityPairs (encoder : string) (q : string) : list (string * string) :=
  if includes encoder "nvenc" then [("-cq", q)]
  else if includes encoder "qsv" then [("-global_quality", q)]
  else if includes encoder "amf" then [("-qp_i", q); ("-qp_p", q)]
  else [("-crf", q)].

(* ================================================================== *)
(** * Vocabulary for the effects *)
(* ================================================================== *)

Definition isConsoleLog (ev : Effect) : bool :=
  match ev with ConsoleLog _ => true | _ => false end.

Definition isConsoleWarn (ev : Effect) : bool :=
  match ev with ConsoleWarn _ => true | _ => false end.

Definition isStatFile (ev : Effect) : bool :=
  match ev with StatFile _ => true | _ => false end.

Definition isReadKeyframes (ev : Effect) : bool :=
  match ev with ReadKeyframes _ _ _ _ => true | _ => false end.

(** The mantissa of the canonical representation of a positive integer of
    at most 53 digits: the integer shifted left to 53 digits. *)
Definition canonicalMantissa (q : positive) : positive :=
  Z.to_pos (Z.pos q * 2 ^ (53 - Z.pos (digits2_pos q))).

(** The canonical representation of [(-1)^s * q * 2^e]. *)
Definition canonical (s : bool) (q : positive) (e : Z) : number :=
  S754_finite s (canonicalMantissa q) (e + Z.pos (digits2_pos q) - 53).

(* ================================================================== *)
(** * CropOverlay: the geometry of the crop rectangle *)
(* ================================================================== *)

Module CropOverlay.

(** [DragHandle] without [null]; the state holds an [option]. *)
Inductive DragHandle : Type :=
| drag_move | drag_nw | drag_ne | drag_sw | drag_se
| drag_n | drag_s | drag_e | drag_w.

Definition isMove (h : DragHandle) : bool :=
  match h with drag_move => true | _ => false end.

(** [CropRect] of [types]: a rectangle in video coordinates. *)
Record CropRect : Type := {
  x : number;
  y : number;
  width : number;
  height : number
}.

(** What [getBoundingClientRect] reports for the container. *)
Record DOMRect : Type := {
  left : number;
  top : number;
  rectWidth : number;
  rectHeight : number
}.

Definition add (a b : number) : number := SFadd prec emax a b.
Definition sub (a b : number) : number := SFsub prec emax a b.
(** [a < b] and [a > b]. *)
Definition ltb (a b : number) : bool := SFltb a b.
Definition gtb (a b : number) : bool := SFltb b a.

(** [a || 0] on a number that can be absent: 0, -0, NaN and [undefined]
    are falsy. *)
Definition orZero (a : option number) : number :=
  match a with
  | Some (S754_finite _ _ _ as v) | Some (S754_infinity _ as v) => v
  | _ => ofZ 0
  end.

(** [Math.round]: NaN, the infinities, the zeros and the integers are
    returned as they are; otherwise the nearest integer, a tie going
    towards +Infinity, with [+0] for a positive value below 0.5 and [-0]
    for a negative value not below -0.5. *)
Definition round (v : number) : number :=
  match v with
  | S754_finite sg m ex =>
      if 0 <=? ex then v
      else
        let k := - ex in
        let q := Z.shiftr (Zpos m) k in
        let r := Z.land (Zpos m) (Z.ones k) in
        let half := 2 ^ (k - 1) in
        if sg then
          let n := if half <? r then q + 1 else q in
          if n =? 0 then S754_zero true else ofZ (- n)
        else
          let n := if half <=? r then q + 1 else q in
          if n =? 0 then S754_zero false else ofZ n
  | _ => v
  end.

(** [ensureEven]: [Math.floor(n / 2) * 2]. *)
Definition ensureEven (n : number) : number :=
  mul (floor (div n (ofZ 2))) (ofZ 2).

Record VideoScale : Type := {
  scaleX : number;
  scaleY : number;
  offsetX : number;
  offsetY : number;
  scaleVideoWidth : number;
  scaleVideoHeight : number;
  displayWidth : number;
  displayHeight : number
}.

(** [getVideoScale]: the scale and the offsets of the video inside the
    container, for [object-fit: contain]. [container] is the bounding
    rectangle of the container, absent while it is not mounted. *)
Definition getVideoScale (container : option DOMRect)
  (videoWidth videoHeight : number) : VideoScale :=
  let displayWidth := orZero (option_map rectWidth container) in
  let displayHeight := orZero (option_map rectHeight container) in
  let videoAspect := div videoWidth videoHeight in
  let displayAspect := div displayWidth displayHeight in
  if gtb videoAspect displayAspect then
    (* Video is wider - fit to width *)
    let scaleX := div displayWidth videoWidth in
    let scaleY := scaleX in
    let offsetY := div (sub displayHeight (mul videoHeight scaleY)) (ofZ 2) in
    {| scaleX := scaleX; scaleY := scaleY; offsetX := ofZ 0; offsetY := offsetY;
       scaleVideoWidth := videoWidth; scaleVideoHeight := videoHeight;
       displayWidth := displayWidth; displayHeight := displayHeight |}
  else
    (* Video is taller - fit to height *)
    let scaleY := div displayHeight videoHeight in
    let scaleX := scaleY in
    let offsetX := div (sub displayWidth (mul videoWidth scaleX)) (ofZ 2) in
    {| scaleX := scaleX; scaleY := scaleY; offsetX := offsetX; offsetY := ofZ 0;
       scaleVideoWidth := videoWidth; scaleVideoHeight := videoHeight;
       displayWidth := displayWidth; displayHeight := displayHeight |}.

(** [videoToDisplay]. *)
Definition videoToDisplay (scale : VideoScale) (rect : CropRect) : CropRect :=
  {| x := add (mul (x rect) (scaleX scale)) (offsetX scale);
     y := add (mul (y rect) (scaleY scale)) (offsetY scale);
     width := mul (width rect) (scaleX scale);
     height := mul (height rect) (scaleY scale) |}.

(** [displayToVideo]. *)
Definition displayToVideo (scale : VideoScale) (px py : number)
  : number * number :=
  (round (div (sub px (offsetX scale)) (scaleX scale)),
   round (div (sub py (offsetY scale)) (scaleY scale))).

(** The display rectangle after a drag of the handle by (deltaX, deltaY). *)
Definition dragDisplayRect (dragHandle : DragHandle) (displayRect : CropRect)
  (deltaX deltaY : number) : CropRect :=
  let movedX := add (x displayRect) deltaX in
  let movedY := add (y displayRect) deltaY in
  let wider := add (width displayRect) deltaX in
  let narrower := sub (width displayRect) deltaX in
  let taller := add (height displayRect) deltaY in
  let shorter := sub (height displayRect) deltaY in
  let r := displayRect in
  match dragHandle with
  | drag_move => {| x := movedX; y := movedY; width := width r; height := height r |}
  | drag_nw => {| x := movedX; y := movedY; width := narrower; height := shorter |}
  | drag_ne => {| x := x r; y := movedY; width := wider; height := shorter |}
  | drag_sw => {| x := movedX; y := y r; width := narrower; height := taller |}
  | drag_se => {| x := x r; y := y r; width := wider; height := taller |}
  | drag_n => {| x := x r; y := movedY; width := width r; height := shorter |}
  | drag_s => {| x := x r; y := y r; width := width r; height := taller |}
  | drag_e => {| x := x r; y := y r; width := wider; height := height r |}
  | drag_w => {| x := movedX; y := y r; width := narrower; height := height r |}
  end.

Definition setX (r : CropRect) (v : number) : CropRect :=
  {| x := v; y := y r; width := width r; height := height r |}.
Definition setY (r : CropRect) (v : number) : CropRect :=
  {| x := x r; y := v; width := width r; height := height r |}.
Definition setWidth (r : CropRect) (v : number) : CropRect :=
  {| x := x r; y := y r; width := v; height := height r |}.
Definition setHeight (r : CropRect) (v : number) : CropRect :=
  {| x := x r; y := y r; width := width r; height := v |}.

(** The last part of [handleMouseMove]: the minimum size, the video
    bounds and the even dimensions, applied in this order to the rectangle
    in video coordinates. *)
Definition constrainRect (dragHandle : DragHandle)
  (videoWidth videoHeight : number) (newRect : CropRect) : CropRect :=
  (* Ensure minimum size (50px) *)
  let minSize := ofZ 50 in
  let newRect := if ltb (width newRect) minSize then setWidth newRect minSize else newRect in
  let newRect := if ltb (height newRect) minSize then setHeight newRect minSize else newRect in
  (* Constrain to video bounds *)
  let newRect := if ltb (x newRect) (ofZ 0) then setX newRect (ofZ 0) else newRect in
  let newRect := if ltb (y newRect) (ofZ 0) then setY newRect (ofZ 0) else newRect in
  let newRect :=
    if gtb (add (x newRect) (width newRect)) videoWidth then
      if isMove dragHandle then setX newRect (sub videoWidth (width newRect))
      else setWidth newRect (sub videoWidth (x newRect))
    else newRect in
  let newRect :=
    if gtb (add (y newRect) (height newRect)) videoHeight then
      if isMove dragHandle then setY newRect (sub videoHeight (height newRect))
      else setHeight newRect (sub videoHeight (y newRect))
    else newRect in
  (* Ensure even dimensions for H.264 compatibility *)
  let newRect := setWidth newRect (ensureEven (width newRect)) in
  let newRect := setHeight newRect (ensureEven (height newRect)) in
  let newRect := setX newRect (ensureEven (x newRect)) in
  let newRect := setY newRect (ensureEven (y newRect)) in
  newRect.

(** Where a drag started: [dragStartRef.current]. *)
Record DragStart : Type := {
  startX : number;
  startY : number;
  startRect : CropRect
}.

(** The state that [handleMouseMove] reads. *)
Record DragState : Type := {
  isDragging : bool;
  dragHandle : option DragHandle;
  dragStartRef : option DragStart;
  containerRef : option DOMRect
}.

(** [handleMouseMove]: the rectangle passed to [onChange], or [None] when
    the handler returns without calling it. *)
Definition handleMouseMove (videoWidth videoHeight : number)
  (state : DragState) (clientX clientY : number) : option CropRect :=
  match isDragging state, dragHandle state, dragStartRef state, containerRef state with
  | true, Some handle, Some start, Some containerRect =>
      let currentX := sub clientX (left containerRect) in
      let currentY := sub clientY (top containerRect) in
      let deltaX := sub currentX (startX start) in
      let deltaY := sub currentY (startY start) in
      let scale := getVideoScale (containerRef state) videoWidth videoHeight in
      let displayRect := videoToDisplay scale (startRect start) in
      let newDisplayRect := dragDisplayRect handle displayRect deltaX deltaY in
      let topLeft := displayToVideo scale (x newDisplayRect) (y newDisplayRect) in
      let bottomRight :=
        displayToVideo scale
          (add (x newDisplayRect) (width newDisplayRect))
          (add (y newDisplayRect) (height newDisplayRect)) in
      let newRect :=
        {| x := fst topLeft;
           y := snd topLeft;
           width := sub (fst bottomRight) (fst topLeft);
           height := sub (snd bottomRight) (snd topLeft) |} in
      Some (constrainRect handle (scaleVideoWidth scale) (scaleVideoHeight scale)
              newRect)
  | _, _, _, _ => None
  end.

(** The magnitude up to which the integer coordinates of the theorems
    range: sums and differences of two of them stay below 2^53. *)
Definition coordinateBound : Z := 2 ^ 50.

(** The magnitude up to which the pixel coordinates of the end-to-end
    theorem range. *)
Definition pixelBound : Z := 2 ^ 40.

(** The steps of [dragDisplayRect] on integers. *)
Definition dragZ (dragHandle : DragHandle) (r : Z * Z * Z * Z) (dx dy : Z)
  : Z * Z * Z * Z :=
  let '(rx, ry, rw, rh) := r in
  match dragHandle with
  | drag_move => (rx + dx, ry + dy, rw, rh)
  | drag_nw => (rx + dx, ry + dy, rw - dx, rh - dy)
  | drag_ne => (rx, ry + dy, rw + dx, rh - dy)
  | drag_sw => (rx + dx, ry, rw - dx, rh + dy)
  | drag_se => (rx, ry, rw + dx, rh + dy)
  | drag_n => (rx, ry + dy, rw, rh - dy)
  | drag_s => (rx, ry, rw, rh + dy)
  | drag_e => (rx, ry, rw + dx, rh)
  | drag_w => (rx + dx, ry, rw - dx, rh)
  end.

(** The steps of [constrainRect] on integers. *)
Definition constrainZ (move : bool) (videoWidth videoHeight : Z)
  (r : Z * Z * Z * Z) : Z * Z * Z * Z :=
  let '(rx, ry, rw, rh) := r in
  let rw := if rw <? 50 then 50 else rw in
  let rh := if rh <? 50 then 50 else rh in
  let rx := if rx <? 0 then 0 else rx in
  let ry := if ry <? 0 then 0 else ry in
  let '(rx, rw) :=
    if videoWidth <? rx + rw then
      if move then (videoWidth - rw, rw) else (rx, videoWidth - rx)
    else (rx, rw) in
  let '(ry, rh) :=
    if videoHeight <? ry + rh then
      if move then (videoHeight - rh, rh) else (ry, videoHeight - ry)
    else (ry, rh) in
  (2 * (rx / 2), 2 * (ry / 2), 2 * (rw / 2), 2 * (rh / 2)).

(** A rectangle with integer coordinates. *)
Definition rectOfZ (r : Z * Z * Z * Z) : CropRect :=
  let '(rx, ry, rw, rh) := r in
  {| x := ofZ rx; y := ofZ ry; width := ofZ rw; height := ofZ rh |}.

(** The value of a number that is an integer; [None] for a fraction, an
    infinity and NaN. Both zeros have the value 0. *)
Definition integerValue (v : number) : option Z :=
  match v with
  | S754_zero _ => Some 0
  | S754_finite s m e =>
      if 0 <=? e then Some (cond_Zopp s (Z.pos m * 2 ^ e))
      else if Z.pos m mod 2 ^ (- e) =? 0
           then Some (cond_Zopp s (Z.pos m / 2 ^ (- e)))
           else None
  | _ => None
  end.

(** [v] is the integer [n] as a computation yields it: [ofZ n], or [-0]
    for 0 (what [Math.round] returns on [-0.5, -0]). *)
Definition isInteger (v : number) (n : Z) : Prop :=
  v = ofZ n \/ (n = 0 /\ v = negZero).
End CropOverlay.

(* ================================================================== *)
(** * The built-ins on sample values *)
(* ================================================================== *)

Section BuiltinExamples.

(** [n / d] for two integers. *)
Let ratio (n d : Z) : number := div (ofZ n) (ofZ d).

Example lit_1_2_nearest : lit_1_2 = ratio 12 10 /\ wellFormed lit_1_2 = true.
Proof. split; vm_compute; reflexivity. Qed.

Example toString_integers :
  map toString [ofZ 0; negZero; ofZ 2; ofZ 18; ofZ 23; ofZ (-7); ofZ 1200000;
                ofZ (2 ^ 53); ofZ (10 ^ 20)]
  = ["0"; "0"; "2"; "18"; "23"; "-7"; "1200000";
     "9007199254740992"; "100000000000000000000"].
Proof. vm_compute. reflexivity. Qed.

Example toString_fractions :
  map toString [ratio 1 10; ratio 3 2; ratio 37 2; lit_1_2; ratio 1 3;
                SFadd prec emax (ratio 1 10) (ratio 2 10);
                ratio 1 1000000; ratio 1 10000000]
  = ["0.1"; "1.5"; "18.5"; "1.2"; "0.3333333333333333";
     "0.30000000000000004"; "0.000001"; "1e-7"].
Proof. vm_compute. reflexivity. Qed.

Example toString_extremes :
  map toString [NaN; Infinity; S754_infinity true; ofZ (10 ^ 21); ofZ (10 ^ 23);
                ofZ (2 ^ 60); S754_finite false 1 (-1074);
                S754_finite false (2 ^ 53 - 1) 971]
  = ["NaN"; "Infinity"; "-Infinity"; "1e+21"; "1e+23";
     "1152921504606847000"; "5e-324"; "1.7976931348623157e+308"].
Proof. vm_compute. reflexivity. Qed.

Example floor_samples :
  map floor [ratio 3 2; ratio (-3) 2; ratio 1 2; ratio (-1) 2; ofZ 5;
             ratio 11999999 10; ratio (-11999999) 10; negZero; NaN; Infinity]
  = [ofZ 1; ofZ (-2); posZero; ofZ (-1); ofZ 5;
     ofZ 1199999; ofZ (-1200000); negZero; NaN; Infinity].
Proof. vm_compute. reflexivity. Qed.

Example parseInt10_samples :
  map parseInt10 [Some "1000000"; Some "  -5abc"; Some "+12"; Some "12.9";
                  Some "0x10"; Some "-0"; Some "N/A"; Some ""; None]
  = [ofZ 1000000; ofZ (-5); ofZ 12; ofZ 12;
     posZero; negZero; NaN; NaN; NaN].
Proof. vm_compute. reflexivity. Qed.

(** White space of more than one byte is skipped as well: U+00A0, the byte
    order mark U+FEFF and the line separator U+2028 before "123"; a byte
    that only begins such a character is not. *)
Example parseInt10_white_space :
  let bytes := fold_right (fun n s => String (ascii_of_N n) s) in
  map parseInt10
      [Some (bytes "123" [194; 160]%N);
       Some (bytes "123" [239; 187; 191; 32; 226; 128; 168]%N);
       Some (bytes "-7" [226; 128; 138; 227; 128; 128; 9]%N);
       Some (bytes "123" [226; 128; 139]%N);
       Some (bytes "123" [194]%N)]
  = [ofZ 123; ofZ 123; ofZ (-7); NaN; NaN].
Proof. vm_compute. reflexivity. Qed.

Example includes_samples :
  map (fun s => includes s "nvenc")
      ["nvenc"; "h264_nvenc"; "xnvencx"; "nvennvenc"; "nven"; ""; "NVENC"]
  = [true; true; true; true; false; false; false]
  /\ includes "abc" "" = true.
Proof. split; vm_compute; reflexivity. Qed.

End BuiltinExamples.

(* ================================================================== *)
(** * Properties of the EncoderQualityMapper *)
(* ================================================================== *)

Section EncoderQualityMapperFacts.

(** Case analysis on every comparison of [e] with a literal name; in the
    equal case [e] is replaced by the literal, so every substring test on
    it evaluates. *)
Ltac split_names e :=
  repeat match goal with
    | |- context [String.eqb e ?lit] =>
        destruct (String.eqb_spec e lit) as [-> | ?]
    end.

Ltac absurd_name :=
  match goal with
  | H : includes _ _ = _ |- _ => vm_compute in H; discriminate H
  | H : ?x <> ?x |- _ => exfalso; apply H; reflexivity
  | H : ~ In _ _ |- _ => exfalso; apply H; simpl; tauto
  end.

(** [getOptimalCRF] recognizes an encoder by exact name only. *)
Lemma getOptimalCRF_exact_names (encoder : string) :
  ~ In encoder crfNames -> getOptimalCRF encoder = None.
Proof.
  intros Hn. unfold getOptimalCRF.
  split_names encoder; try reflexivity; try absurd_name.
  destruct (includes encoder "vaapi"); reflexivity.
Qed.

Lemma supportsCRF_exact_names (encoder : string) :
  supportsCRF encoder = true -> In encoder crfNames.
Proof.
  intros H.
  destruct (in_dec string_dec encoder crfNames) as [Hin | Hout]; [exact Hin |].
  unfold supportsCRF in H. rewrite (getOptimalCRF_exact_names _ Hout) in H.
  discriminate H.
Qed.

(** No name with a CRF value contains 'videotoolbox'. *)
Lemma getOptimalCRF_videotoolbox (encoder : string) :
  includes encoder "videotoolbox" = true -> getOptimalCRF encoder = None.
Proof.
  intros Hv. apply getOptimalCRF_exact_names. intros Hin.
  simpl in Hin.
  repeat (destruct Hin as [<- | Hin]; [vm_compute in Hv; discriminate Hv |]).
  exact Hin.
Qed.

Lemma getOptimalPreset_nvenc (encoder : string) :
  includes encoder "nvenc" = true -> getOptimalPreset encoder = Some "p4".
Proof.
  intros Hn. unfold getOptimalPreset.
  split_names encoder; try absurd_name.
  rewrite Hn. reflexivity.
Qed.

Lemma getOptimalPreset_videotoolbox (encoder : string) :
  includes encoder "videotoolbox" = true ->
  includes encoder "nvenc" = false ->
  getOptimalPreset encoder = None.
Proof.
  intros Hv Hn. unfold getOptimalPreset.
  split_names encoder; try absurd_name.
  rewrite Hn, Hv. reflexivity.
Qed.

(** Apart from the three software names, [getOptimalPreset] decides by
    substring, in the order of its tests. *)
Lemma getOptimalPreset_by_substring (encoder : string) :
  ~ In encoder ["libx264"; "libx265"; "libsvtav1"] ->
  getOptimalPreset encoder
  = if includes encoder "nvenc" then Some "p4"
    else if includes encoder "videotoolbox" then None
    else if includes encoder "qsv" then Some "medium"
    else if includes encoder "vaapi" then None
    else if includes encoder "amf" then Some "balanced"
    else None.
Proof.
  intros Hn. unfold getOptimalPreset.
  split_names encoder; try absurd_name. reflexivity.
Qed.

Lemma crfNames_supportsCRF (encoder : string) :
  In encoder crfNames -> supportsCRF encoder = true.
Proof.
  intros Hin. simpl in Hin.
  repeat (destruct Hin as [<- | Hin]; [reflexivity |]).
  destruct Hin.
Qed.

End EncoderQualityMapperFacts.

(** C6: [getEncoderQualityArgs('libx264', 0)] is the rate-factor pair for
    index 0 with value 23 followed by the preset pair with value "medium",
    and [getEncoderQualityArgs('h264_nvenc', 2, 18)] is the constant-quality
    pair for index 2 with the override 18 followed by the default preset
    "p4". *)
Theorem C6_quality_args_examples :
  getEncoderQualityArgs "libx264" (ofZ 0) None None
    = ["-crf:0"; "23"; "-preset:0"; "medium"]
  /\ getEncoderQualityArgs "h264_nvenc" (ofZ 2) (Some (ofZ 18)) None
    = ["-cq:2"; "18"; "-preset:2"; "p4"].
Proof. split; vm_compute; reflexivity. Qed.

(** C7, as stated, fails: 'nvenc_videotoolbox' contains 'videotoolbox', yet
    its substring 'nvenc' is tested first by [getOptimalPreset], so a preset
    pair precedes the quality-scale pair. *)
Lemma C7_counterexample :
  ~ (forall (encoder : string) (outputIndex : number),
        includes encoder "videotoolbox" = true ->
        getEncoderQualityArgs encoder outputIndex None None
          = [scoped "-q" outputIndex; "65"]).
Proof.
  intros H.
  specialize (H "nvenc_videotoolbox" (ofZ 0) eq_refl).
  vm_compute in H. discriminate H.
Qed.

(** C7 (amended): for every encoder identifier that contains 'videotoolbox'
    and does not contain 'nvenc', and every output index,
    [getEncoderQualityArgs] with no overrides returns exactly
    ['-q:<outputIndex>', '65']; the quality default and the preset default
    are both absent. *)
Theorem C7_videotoolbox_quality_scale_only
  (encoder : string) (outputIndex : number) :
  includes encoder "videotoolbox" = true ->
  includes encoder "nvenc" = false ->
  getOptimalCRF encoder = None
  /\ getOptimalPreset encoder = None
  /\ getEncoderQualityArgs encoder outputIndex None None
     = [scoped "-q" outputIndex; "65"].
Proof.
  intros Hv Hn.
  pose proof (getOptimalCRF_videotoolbox _ Hv) as Hcrf.
  pose proof (getOptimalPreset_videotoolbox _ Hv Hn) as Hpre.
  repeat split; try assumption.
  unfold getEncoderQualityArgs. simpl nullish.
  rewrite Hcrf, Hpre, Hv. reflexivity.
Qed.

Lemma C7_videotoolbox_quality_scale_only_witness :
  getOptimalCRF "hevc_videotoolbox" = None
  /\ getOptimalPreset "hevc_videotoolbox" = None
  /\ getEncoderQualityArgs "hevc_videotoolbox" (ofZ 3) None None
     = [scoped "-q" (ofZ 3); "65"].
Proof.
  apply (C7_videotoolbox_quality_scale_only "hevc_videotoolbox" (ofZ 3));
    reflexivity.
Defined.

(** C9: for every encoder identifier containing none of 'nvenc', 'qsv' and
    'amf', every output index and every numeric quality override [q]
    (whatever the preset override), the arguments start with the generic
    rate-factor pair ['-crf:<outputIndex>', String(q)]; what follows is the
    preset pair, when a preset is resolved, and the quality-scale pair of
    the VideoToolbox family. *)
Theorem C9_override_uses_generic_rate_factor
  (encoder : string) (outputIndex q : number) (customPreset : option string) :
  includes encoder "nvenc" = false ->
  includes encoder "qsv" = false ->
  includes encoder "amf" = false ->
  getEncoderQualityArgs encoder outputIndex (Some q) customPreset
  = ([scoped "-crf" outputIndex; toString q]
       ++ match nullish customPreset (getOptimalPreset encoder) with
          | Some preset => [scoped "-preset" outputIndex; preset]
          | None => []
          end
       ++ if includes encoder "videotoolbox"
          then [scoped "-q" outputIndex; "65"] else [])%list.
Proof.
  intros Hn Hq Ha. unfold getEncoderQualityArgs. simpl nullish.
  rewrite Hn, Hq, Ha.
  destruct (nullish customPreset (getOptimalPreset encoder)) as [preset |];
    destruct (includes encoder "videotoolbox"); reflexivity.
Qed.

Lemma C9_override_uses_generic_rate_factor_witness :
  getEncoderQualityArgs "h264_videotoolbox" (ofZ 1) (Some (ofZ 20)) None
  = ["-crf:1"; "20"; "-q:1"; "65"].
Proof.
  exact (C9_override_uses_generic_rate_factor
           "h264_videotoolbox" (ofZ 1) (ofZ 20) None eq_refl eq_refl eq_refl).
Defined.

(** C10, as stated, fails: 'nvenc_videotoolbox' contains 'nvenc' and is none
    of the three exact NVENC names, yet the quality-scale pair follows the
    preset pair. *)
Lemma C10_counterexample :
  ~ (forall (encoder : string) (outputIndex : number),
        includes encoder "nvenc" = true ->
        ~ In encoder ["h264_nvenc"; "hevc_nvenc"; "av1_nvenc"] ->
        supportsCRF encoder = false
        /\ getEncoderQualityArgs encoder outputIndex None None
           = [scoped "-preset" outputIndex; "p4"]).
Proof.
  intros H.
  destruct (H "nvenc_videotoolbox" (ofZ 0) eq_refl) as [_ Habs].
  - simpl. intros [E | [E | [E | []]]]; discriminate E.
  - vm_compute in Habs. discriminate Habs.
Qed.

(** C10 (amended): [getOptimalCRF] has a value for twelve exact names and
    for no other identifier, while [getOptimalPreset], for every identifier
    other than the three software names, decides by substring, testing
    'nvenc', 'videotoolbox', 'qsv', 'vaapi' and 'amf' in this order, the
    first one contained deciding ("p4", none, "medium", none, "balanced");
    so for every identifier that contains 'nvenc' and is none of
    'h264_nvenc', 'hevc_nvenc', 'av1_nvenc', [supportsCRF] is false and
    [getEncoderQualityArgs] with no overrides emits no CRF/CQ pair: it
    returns the preset pair ['-preset:<outputIndex>', 'p4'], followed by the
    quality-scale pair ['-q:<outputIndex>', '65'] exactly when the
    identifier also contains 'videotoolbox'. *)
Theorem C10_nvenc_substring_preset_only
  (encoder : string) (outputIndex : number) :
  includes encoder "nvenc" = true ->
  ~ In encoder ["h264_nvenc"; "hevc_nvenc"; "av1_nvenc"] ->
  (forall name, supportsCRF name = true <-> In name crfNames)
  /\ (forall name,
         ~ In name ["libx264"; "libx265"; "libsvtav1"] ->
         getOptimalPreset name
         = if includes name "nvenc" then Some "p4"
           else if includes name "videotoolbox" then None
           else if includes name "qsv" then Some "medium"
           else if includes name "vaapi" then None
           else if includes name "amf" then Some "balanced"
           else None)
  /\ getOptimalPreset encoder = Some "p4"
  /\ supportsCRF encoder = false
  /\ getEncoderQualityArgs encoder outputIndex None None
     = ([scoped "-preset" outputIndex; "p4"]
          ++ if includes encoder "videotoolbox"
             then [scoped "-q" outputIndex; "65"] else [])%list.
Proof.
  intros Hn Hex.
  split.
  { intros name. split;
      [exact (supportsCRF_exact_names name) | exact (crfNames_supportsCRF name)]. }
  split; [exact getOptimalPreset_by_substring |].
  split; [exact (getOptimalPreset_nvenc _ Hn) |].
  assert (Hcrf : getOptimalCRF encoder = None).
  { apply getOptimalCRF_exact_names. intros Hin. simpl in Hin, Hex.
    repeat (destruct Hin as [<- | Hin];
            [first [ vm_compute in Hn; discriminate Hn | apply Hex; tauto ] |]).
    exact Hin. }
  split.
  - unfold supportsCRF. rewrite Hcrf. reflexivity.
  - unfold getEncoderQualityArgs. simpl nullish.
    rewrite Hcrf, (getOptimalPreset_nvenc _ Hn).
    destruct (includes encoder "videotoolbox"); reflexivity.
Qed.

Lemma C10_nvenc_substring_preset_only_witness :
  supportsCRF "h264_nvenc_custom" = false
  /\ getEncoderQualityArgs "h264_nvenc_custom" (ofZ 0) None None
     = ["-preset:0"; "p4"].
Proof.
  apply (C10_nvenc_substring_preset_only "h264_nvenc_custom" (ofZ 0)).
  - reflexivity.
  - simpl. intros [E | [E | [E | []]]]; discriminate E.
Defined.

(* ================================================================== *)
(** * The collaborator models meet their contracts *)
(* ================================================================== *)

Lemma find_contract {A : Type} (p : A -> bool) (l : list A) :
  match find p l with
  | Some x => In x l /\ p x = true
  | None => ~ exists x, In x l /\ p x = true
  end.
Proof.
  destruct (find p l) as [x |] eqn:E.
  - exact (find_some _ _ E).
  - intros [x [Hin Hp]]. pose proof (find_none _ _ E x Hin) as Hf.
    rewrite Hp in Hf. discriminate Hf.
Qed.

Lemma model_ExactTimeContract :
  ExactTimeContract Collaborators.findKeyframeAtExactTime.
Proof.
  intros keyframes t. unfold Collaborators.findKeyframeAtExactTime, hasKeyframeAt.
  exact (find_contract (fun kf => strictEqb (time kf) t) keyframes).
Qed.

Lemma model_NextKeyframeContract :
  NextKeyframeContract Collaborators.findNextKeyframe.
Proof.
  intros keyframes t. unfold Collaborators.findNextKeyframe, hasKeyframeAtOrAfter.
  exact (find_contract (fun kf => geb (time kf) t) keyframes).
Qed.

(* ================================================================== *)
(** * Properties of the CutPointResolver *)
(* ================================================================== *)

Section CutPointResolverFacts.

Variable IOFailure : Type.
Variable readKeyframesAroundTime :
  string -> number -> number -> number -> IOFailure + list Keyframe.
Variable findKeyframeAtExactTime : list Keyframe -> number -> option Keyframe.
Variable findNextKeyframe : list Keyframe -> number -> option Keyframe.
Variable i18n_t : string -> string.

Let resolve : string -> number -> number -> M IOFailure CutDecision :=
  needsSmartCut IOFailure readKeyframesAroundTime
    findKeyframeAtExactTime findNextKeyframe i18n_t.

(** The run of [needsSmartCut], by cases on the two queries and on what the
    helpers find. *)
Lemma needsSmartCut_cases (path : string) (desiredCutFrom streamIndex : number) :
  let query w := readKeyframesAroundTime path streamIndex desiredCutFrom (ofZ w) in
  let run := resolve path desiredCutFrom streamIndex in
  match query 10 with
  | inl cause =>
      queriedWindows (effects run) = [ofZ 10]
      /\ outcome run = Throw (Rejected cause)
  | inr keyframes =>
      match findKeyframeAtExactTime keyframes desiredCutFrom with
      | Some kf =>
          queriedWindows (effects run) = [ofZ 10]
          /\ outcome run = Return {| losslessCutFrom := time kf;
                                     segmentNeedsSmartCut := false |}
      | None =>
          match findNextKeyframe keyframes desiredCutFrom with
          | Some kf =>
              queriedWindows (effects run) = [ofZ 10]
              /\ outcome run = Return {| losslessCutFrom := time kf;
                                         segmentNeedsSmartCut := true |}
          | None =>
              queriedWindows (effects run) = [ofZ 10; ofZ 60]
              /\ match query 60 with
                 | inl cause => outcome run = Throw (Rejected cause)
                 | inr widened =>
                     match findNextKeyframe widened desiredCutFrom with
                     | Some kf =>
                         outcome run
                         = Return {| losslessCutFrom := time kf;
                                     segmentNeedsSmartCut := true |}
                     | None =>
                         outcome run
                         = Throw (UserFacingError
                                    (i18n_t "Cannot find any keyframe after the desired start cut point"))
                     end
                 end
          end
      end
  end.
Proof.
  cbv zeta. unfold resolve, needsSmartCut, readKeyframes.
  destruct (readKeyframesAroundTime path streamIndex desiredCutFrom (ofZ 10))
    as [cause | keyframes]; [split; reflexivity |].
  cbn [await bind].
  destruct (findKeyframeAtExactTime keyframes desiredCutFrom) as [kf |];
    [split; reflexivity |].
  destruct (findNextKeyframe keyframes desiredCutFrom) as [kf |];
    [split; reflexivity |].
  destruct (readKeyframesAroundTime path streamIndex desiredCutFrom (ofZ 60))
    as [cause | widened]; [split; reflexivity |].
  cbn [await bind ret].
  destruct (findNextKeyframe widened desiredCutFrom) as [kf |];
    split; reflexivity.
Qed.

Section HelpersSound.

Hypothesis exactTime_ok : ExactTimeSound findKeyframeAtExactTime.
Hypothesis nextKeyframe_ok : NextKeyframeSound findNextKeyframe.

(** C1: whenever [needsSmartCut] returns a decision, and the keyframe
    helpers return only keyframes with the time they are asked for
    ([findKeyframeAtExactTime]: a time [===] to [desiredCutFrom];
    [findNextKeyframe]: a time [>= desiredCutFrom]), then [losslessCutFrom]
    is [===] to [desiredCutFrom] when [segmentNeedsSmartCut] is false, and
    [losslessCutFrom >= desiredCutFrom] when it is true. *)
Theorem C1_lossless_cut_from_bounds
  (path : string) (desiredCutFrom streamIndex : number) (decision : CutDecision) :
  outcome (resolve path desiredCutFrom streamIndex) = Return decision ->
  (segmentNeedsSmartCut decision = false ->
   strictEqb (losslessCutFrom decision) desiredCutFrom = true)
  /\ (segmentNeedsSmartCut decision = true ->
      geb (losslessCutFrom decision) desiredCutFrom = true).
Proof.
  intros Hrun.
  pose proof (needsSmartCut_cases path desiredCutFrom streamIndex) as Hc.
  cbv zeta in Hc.
  destruct (readKeyframesAroundTime path streamIndex desiredCutFrom (ofZ 10))
    as [cause | keyframes].
  { destruct Hc as [_ Ho]. rewrite Ho in Hrun. discriminate Hrun. }
  destruct (findKeyframeAtExactTime keyframes desiredCutFrom) as [kf |] eqn:Hexact.
  { destruct Hc as [_ Ho]. rewrite Ho in Hrun. injection Hrun as <-.
    split; [intros _; exact (exactTime_ok _ _ _ Hexact) | discriminate]. }
  destruct (findNextKeyframe keyframes desiredCutFrom) as [kf |] eqn:Hnext.
  { destruct Hc as [_ Ho]. rewrite Ho in Hrun. injection Hrun as <-.
    split; [discriminate | intros _; exact (nextKeyframe_ok _ _ _ Hnext)]. }
  destruct Hc as [_ Ho].
  destruct (readKeyframesAroundTime path streamIndex desiredCutFrom (ofZ 60))
    as [cause | widened].
  { rewrite Ho in Hrun. discriminate Hrun. }
  destruct (findNextKeyframe widened desiredCutFrom) as [kf |] eqn:Hwide.
  - rewrite Ho in Hrun. injection Hrun as <-.
    split; [discriminate | intros _; exact (nextKeyframe_ok _ _ _ Hwide)].
  - rewrite Ho in Hrun. discriminate Hrun.
Qed.

End HelpersSound.

Section HelpersComplete.

Hypothesis exactTime_ok : ExactTimeContract findKeyframeAtExactTime.
Hypothesis nextKeyframe_ok : NextKeyframeContract findNextKeyframe.

(** C2: the first keyframe query of [needsSmartCut] has window 10; there is
    a second query, with window 60, if and only if the first window holds
    no keyframe at [desiredCutFrom] and none with time [>= desiredCutFrom],
    and there is never a third one; the call fails with a
    [UserFacingError] if and only if, in addition, the widened window holds
    no keyframe with time [>= desiredCutFrom]. The helpers are assumed to
    meet their contracts. *)
Theorem C2_single_widening_then_user_error
  (path : string) (desiredCutFrom streamIndex : number) :
  let run := resolve path desiredCutFrom streamIndex in
  (queriedWindows (effects run) = [ofZ 10]
   \/ queriedWindows (effects run) = [ofZ 10; ofZ 60])
  /\ (queriedWindows (effects run) = [ofZ 10; ofZ 60]
      <-> firstWindowEmpty readKeyframesAroundTime path desiredCutFrom streamIndex)
  /\ ((exists message, outcome run = Throw (UserFacingError message))
      <-> firstWindowEmpty readKeyframesAroundTime path desiredCutFrom streamIndex
          /\ widenedWindowEmpty readKeyframesAroundTime path desiredCutFrom streamIndex).
Proof.
  cbv zeta.
  pose proof (needsSmartCut_cases path desiredCutFrom streamIndex) as Hc.
  cbv zeta in Hc. unfold firstWindowEmpty, widenedWindowEmpty.
  set (run := resolve path desiredCutFrom streamIndex) in *.
  assert (Hne : [ofZ 10] <> [ofZ 10; ofZ 60]) by discriminate.
  destruct (readKeyframesAroundTime path streamIndex desiredCutFrom (ofZ 10))
    as [cause | keyframes].
  { destruct Hc as [Hw Ho]. rewrite Hw, Ho.
    split; [left; reflexivity |]. split; split.
    - intros E. destruct (Hne E).
    - intros [k [E _]]. discriminate E.
    - intros [m E]. discriminate E.
    - intros [[k [E _]] _]. discriminate E. }
  pose proof (exactTime_ok keyframes desiredCutFrom) as Hexact.
  pose proof (nextKeyframe_ok keyframes desiredCutFrom) as Hnext.
  destruct (findKeyframeAtExactTime keyframes desiredCutFrom) as [kf |].
  { destruct Hc as [Hw Ho]. rewrite Hw, Ho.
    assert (Hat : hasKeyframeAt keyframes desiredCutFrom) by (exists kf; exact Hexact).
    split; [left; reflexivity |]. split; split.
    - intros E. destruct (Hne E).
    - intros [k [E [Hno _]]]. injection E as <-. destruct (Hno Hat).
    - intros [m E]. discriminate E.
    - intros [[k [E [Hno _]]] _]. injection E as <-. destruct (Hno Hat). }
  destruct (findNextKeyframe keyframes desiredCutFrom) as [kf |].
  { destruct Hc as [Hw Ho]. rewrite Hw, Ho.
    assert (Hat : hasKeyframeAtOrAfter keyframes desiredCutFrom)
      by (exists kf; exact Hnext).
    split; [left; reflexivity |]. split; split.
    - intros E. destruct (Hne E).
    - intros [k [E [_ Hno]]]. injection E as <-. destruct (Hno Hat).
    - intros [m E]. discriminate E.
    - intros [[k [E [_ Hno]]] _]. injection E as <-. destruct (Hno Hat). }
  destruct Hc as [Hw Ho]. rewrite Hw.
  assert (Hfirst : exists k, @inr IOFailure _ keyframes = inr k
                        /\ ~ hasKeyframeAt k desiredCutFrom
                        /\ ~ hasKeyframeAtOrAfter k desiredCutFrom)
    by (exists keyframes; auto).
  split; [right; reflexivity |]. split; [split; auto |].
  destruct (readKeyframesAroundTime path streamIndex desiredCutFrom (ofZ 60))
    as [cause | widened].
  { rewrite Ho. split.
    - intros [m E]. discriminate E.
    - intros [_ [k [E _]]]. discriminate E. }
  pose proof (nextKeyframe_ok widened desiredCutFrom) as Hwide.
  destruct (findNextKeyframe widened desiredCutFrom) as [kf |]; rewrite Ho.
  - split.
    + intros [m E]. discriminate E.
    + intros [_ [k [E Hno]]]. injection E as <-.
      destruct Hno. exists kf. exact Hwide.
  - split.
    + intros _. split; [exact Hfirst |]. exists widened. auto.
    + intros _. eexists. reflexivity.
Qed.

End HelpersComplete.

End CutPointResolverFacts.

Lemma model_ExactTimeSound :
  ExactTimeSound Collaborators.findKeyframeAtExactTime.
Proof.
  intros keyframes t kf E.
  pose proof (model_ExactTimeContract keyframes t) as H.
  rewrite E in H. apply H.
Qed.

Lemma model_NextKeyframeSound :
  NextKeyframeSound Collaborators.findNextKeyframe.
Proof.
  intros keyframes t kf E.
  pose proof (model_NextKeyframeContract keyframes t) as H.
  rewrite E in H. apply H.
Qed.

(** In the sample file a cut at 95 s is moved to the keyframe at 100 s. *)
Lemma C1_lossless_cut_from_bounds_witness :
  outcome (Sample.needsSmartCut "a.mp4" (ofZ 95) (ofZ 0))
  = Return {| losslessCutFrom := ofZ 100; segmentNeedsSmartCut := true |}
  /\ geb (ofZ 100) (ofZ 95) = true.
Proof.
  assert (Hrun : outcome (Sample.needsSmartCut "a.mp4" (ofZ 95) (ofZ 0))
                 = Return {| losslessCutFrom := ofZ 100;
                             segmentNeedsSmartCut := true |})
    by (vm_compute; reflexivity).
  split; [exact Hrun |].
  exact (proj2 (C1_lossless_cut_from_bounds
                  string Sample.readKeyframesAroundTime
                  Collaborators.findKeyframeAtExactTime
                  Collaborators.findNextKeyframe Collaborators.i18n_t
                  model_ExactTimeSound model_NextKeyframeSound
                  "a.mp4" (ofZ 95) (ofZ 0) _ Hrun) eq_refl).
Defined.

(** In the sample file the last keyframe is at 200 s: a cut at 205 s is
    looked up twice and then refused. *)
Lemma C2_single_widening_then_user_error_witness :
  let run := Sample.needsSmartCut "a.mp4" (ofZ 205) (ofZ 0) in
  (queriedWindows (effects run) = [ofZ 10]
   \/ queriedWindows (effects run) = [ofZ 10; ofZ 60])
  /\ (queriedWindows (effects run) = [ofZ 10; ofZ 60]
      <-> firstWindowEmpty Sample.readKeyframesAroundTime "a.mp4" (ofZ 205) (ofZ 0))
  /\ ((exists message, outcome run = Throw (UserFacingError message))
      <-> firstWindowEmpty Sample.readKeyframesAroundTime "a.mp4" (ofZ 205) (ofZ 0)
          /\ widenedWindowEmpty Sample.readKeyframesAroundTime "a.mp4" (ofZ 205) (ofZ 0)).
Proof.
  exact (C2_single_widening_then_user_error
           string Sample.readKeyframesAroundTime
           Collaborators.findKeyframeAtExactTime
           Collaborators.findNextKeyframe Collaborators.i18n_t
           model_ExactTimeContract model_NextKeyframeContract
           "a.mp4" (ofZ 205) (ofZ 0)).
Defined.

(* ================================================================== *)
(** * Sign and integrality of the number operations *)
(* ================================================================== *)

Section NumberFacts.

Lemma shr_1_nonneg (mrs : shr_record) :
  0 <= shr_m mrs -> 0 <= shr_m (shr_1 mrs).
Proof.
  destruct mrs as [m r s]. simpl.
  destruct m as [| [p | p |] | p]; simpl; intros H; lia.
Qed.

Lemma iter_shr_1_nonneg (p : positive) :
  forall mrs, 0 <= shr_m mrs -> 0 <= shr_m (iter_pos shr_1 p mrs).
Proof.
  induction p as [p IH | p IH |]; intros mrs H; simpl.
  - apply IH, IH, shr_1_nonneg, H.
  - apply IH, IH, H.
  - apply shr_1_nonneg, H.
Qed.

Lemma shr_fexp_nonneg (m e : Z) (l : location) :
  0 <= m -> 0 <= shr_m (fst (shr_fexp prec emax m e l)).
Proof.
  intros H. unfold shr_fexp, shr.
  assert (H0 : 0 <= shr_m (shr_record_of_loc m l))
    by (destruct l as [| []]; exact H).
  destruct (fexp prec emax (Zdigits2 m + e) - e); simpl;
    try exact H0.
  apply iter_shr_1_nonneg, H0.
Qed.

Lemma round_nearest_even_nonneg (m : Z) (l : location) :
  0 <= m -> 0 <= round_nearest_even m l.
Proof.
  intros H. destruct l as [| []]; simpl; try lia.
  destruct (Z.even m); lia.
Qed.

(** Rounding a non-negative mantissa under a clear sign bit gives [+0], a
    positive finite value or [+Infinity]. *)
Lemma binary_round_aux_nonneg (m e : Z) (l : location) :
  0 <= m -> isNonNeg (binary_round_aux prec emax false m e l) = true.
Proof.
  intros H. unfold binary_round_aux.
  pose proof (shr_fexp_nonneg m e l H) as H1.
  destruct (shr_fexp prec emax m e l) as [mrs1 e1]. simpl in H1.
  pose proof (shr_fexp_nonneg _ e1 loc_Exact
                (round_nearest_even_nonneg _ (loc_of_shr_record mrs1) H1)) as H2.
  destruct (shr_fexp prec emax
              (round_nearest_even (shr_m mrs1) (loc_of_shr_record mrs1)) e1 loc_Exact)
    as [mrs2 e2]. simpl in H2.
  destruct (shr_m mrs2) as [| p | p]; [reflexivity | | lia].
  destruct (e2 <=? emax - prec); reflexivity.
Qed.

Lemma mul_nonneg (x y : number) :
  isNonNeg x = true -> isPositiveFinite y = true -> isNonNeg (mul x y) = true.
Proof.
  destruct y as [| | | [] my ey]; try discriminate. intros Hx _.
  destruct x as [[] | [] | | [] mx ex]; try discriminate Hx; try reflexivity.
  unfold mul, SFmul. simpl xorb. apply binary_round_aux_nonneg. lia.
Qed.

Lemma div_nonneg (x y : number) :
  isNonNeg x = true -> isPositiveFinite y = true -> isNonNeg (div x y) = true.
Proof.
  destruct y as [| | | [] my ey]; try discriminate. intros Hx _.
  destruct x as [[] | [] | | [] mx ex]; try discriminate Hx; try reflexivity.
  unfold div, SFdiv. simpl xorb.
  destruct (SFdiv_core_binary prec emax (Z.pos mx) ex (Z.pos my) ey)
    as [[mz ez] lz] eqn:E.
  apply binary_round_aux_nonneg.
  unfold SFdiv_core_binary in E.
  set (s := ex - ey - _) in E.
  set (m' := match s with Z.pos _ => Z.shiftl (Z.pos mx) s | Z0 => Z.pos mx | Z.neg _ => 0 end) in E.
  assert (Hm : 0 <= m').
  { unfold m'. destruct s; try lia. apply Z.shiftl_nonneg. lia. }
  pose proof (Z_div_mod m' (Z.pos my) eq_refl) as D.
  destruct (Z.div_eucl m' (Z.pos my)) as [q r].
  injection E as <- _ _. nia.
Qed.

Lemma floor_nonneg (x : number) :
  isNonNeg x = true -> isNonNeg (floor x) = true.
Proof.
  destruct x as [[] | [] | | [] m e]; try discriminate; try reflexivity.
  intros _. unfold floor.
  destruct (0 <=? e); [reflexivity |].
  destruct (Z.shiftl (Z.shiftr (Z.pos m) (- e)) (- e)); reflexivity.
Qed.

Lemma floor_integer (x : number) :
  isNonNeg x = true -> isNonNegIntegerOrInfinity (floor x).
Proof.
  intros Hx. unfold isNonNegIntegerOrInfinity.
  destruct x as [[] | [] | | [] m e]; try discriminate Hx.
  - right. split; reflexivity.
  - left. reflexivity.
  - right. split; [exact (floor_nonneg _ Hx) |].
    unfold floor. destruct (0 <=? e) eqn:He.
    + unfold isNonNegInteger. rewrite He. reflexivity.
    + apply Z.leb_gt in He.
      destruct (Z.shiftl (Z.shiftr (Z.pos m) (- e)) (- e)) as [| m' | m'] eqn:Hs;
        try reflexivity.
      unfold isNonNegInteger. rewrite <- Hs.
      apply Z.leb_gt in He. rewrite He. cbn [orb]. apply Z.leb_gt in He.
      rewrite Z.land_ones by lia. rewrite Z.shiftl_mul_pow2 by lia.
      rewrite Z.mod_mul by (apply Z.pow_nonzero; lia). reflexivity.
Qed.

End NumberFacts.

(* ================================================================== *)
(** * Properties of the CodecParameterDeriver *)
(* ================================================================== *)

Section CodecParameterDeriverFacts.

Variable IOFailure : Type.
Variable stat : string -> IOFailure + Stats.
Variable getRealVideoStreams : list FFprobeStream -> list FFprobeStream.
Variable Timebase : Type.
Variable getVideoTimebase : FFprobeStream -> option Timebase.

Let derive : string -> option number -> list FFprobeStream
             -> M IOFailure (CodecParams Timebase) :=
  getCodecParams IOFailure stat getRealVideoStreams Timebase getVideoTimebase.

(** The outcome of [getCodecParams], by cases on the selected streams, the
    parsed bit rate, the stat and the duration. *)
Lemma getCodecParams_cases (path : string) (fileDuration : option number)
  (streams : list FFprobeStream) :
  outcome (derive path fileDuration streams)
  = match getRealVideoStreams streams with
    | [] => Throw (Error "Smart cut only works on videos")
    | _ :: _ :: _ =>
        Throw (Error "Can only smart cut video with exactly one video stream")
    | [videoStream] =>
        let parsed := parseInt10 (bit_rate videoStream) in
        if isNaN parsed then
          match stat path with
          | inl cause => Throw (Rejected cause)
          | inr stats =>
              match fileDuration with
              | None =>
                  Throw (Error "Video duration is unknown, cannot estimate bitrate")
              | Some duration =>
                  codecOutcome getVideoTimebase videoStream
                    (estimateBitrate stats duration)
              end
          end
        else codecOutcome getVideoTimebase videoStream parsed
    end.
Proof.
  unfold derive, getCodecParams, codecOutcome.
  destruct (getRealVideoStreams streams) as [| videoStream [| other rest]];
    [reflexivity | | reflexivity].
  cbn [List.length Nat.ltb Nat.leb]. cbv zeta.
  destruct (isNaN (parseInt10 (bit_rate videoStream))).
  - cbn [emit bind]. destruct (stat path) as [cause | stats]; [reflexivity |].
    cbn [await bind]. destruct fileDuration as [duration |]; [| reflexivity].
    cbn [emit bind ret].
    destruct (codec_name videoStream); [| reflexivity].
    destruct (getVideoTimebase videoStream); reflexivity.
  - cbn [ret bind].
    destruct (codec_name videoStream); [| reflexivity].
    destruct (getVideoTimebase videoStream); reflexivity.
Qed.

(** C3: with exactly one real video stream whose bit rate is unparseable, a
    duration of 100 seconds and a file of 12,500,000 bytes, the estimated
    raw bit rate [size * 8 / fileDuration] is 1,000,000 and the returned
    [videoBitrate] is [floor (1,000,000 * 1.2)] = 1,200,000 (the call
    returns whenever the stream has a codec identifier). *)
Theorem C3_estimated_bitrate_example
  (path : string) (streams : list FFprobeStream)
  (videoStream : FFprobeStream) (stats : Stats) :
  getRealVideoStreams streams = [videoStream] ->
  isNaN (parseInt10 (bit_rate videoStream)) = true ->
  stat path = inr stats ->
  size stats = ofZ 12500000 ->
  let run := derive path (Some (ofZ 100)) streams in
  estimateBitrate stats (ofZ 100) = ofZ 1000000
  /\ floor (mul (ofZ 1000000) lit_1_2) = ofZ 1200000
  /\ (forall params, outcome run = Return params ->
                     videoBitrate params = ofZ 1200000)
  /\ (forall codec, codec_name videoStream = Some codec ->
        outcome run
        = Return (Build_CodecParams Timebase videoStream (mapVideoCodec codec)
                    (ofZ 1200000) (getVideoTimebase videoStream))).
Proof.
  intros Hreal Hnan Hstat Hsize run.
  assert (Hest : estimateBitrate stats (ofZ 100) = ofZ 1000000).
  { unfold estimateBitrate. rewrite Hsize. vm_compute. reflexivity. }
  assert (Hrun : outcome run
                 = codecOutcome getVideoTimebase videoStream (ofZ 1000000)).
  { unfold run. rewrite getCodecParams_cases, Hreal. cbv zeta.
    rewrite Hnan, Hstat, Hest. reflexivity. }
  assert (Hfloor : floor (floor (mul (ofZ 1000000) lit_1_2)) = ofZ 1200000)
    by (vm_compute; reflexivity).
  split; [exact Hest |].
  split; [vm_compute; reflexivity |].
  unfold codecOutcome in Hrun. rewrite Hfloor in Hrun.
  split.
  - intros params Hp. rewrite Hrun in Hp.
    destruct (codec_name videoStream); [| discriminate Hp].
    injection Hp as <-. reflexivity.
  - intros codec Hc. rewrite Hrun, Hc. reflexivity.
Qed.

(** Every run ends in exactly one of three ways: the stat it needed was
    rejected, and the rejection is what is thrown; a contract is violated
    and a plain [Error] is thrown; or [CodecParams] is returned. *)
Lemma getCodecParams_outcome_kind
  (path : string) (fileDuration : option number) (streams : list FFprobeStream) :
  let run := derive path fileDuration streams in
  let violation := contractViolation (getRealVideoStreams streams) fileDuration in
  let rejected := statRejected stat (getRealVideoStreams streams) path in
  (rejected
   /\ exists cause, stat path = inl cause /\ outcome run = Throw (Rejected cause))
  \/ (~ rejected /\ violation /\ isInternalError (outcome run))
  \/ (~ rejected /\ ~ violation /\ returns (outcome run)).
Proof.
  cbv zeta. unfold contractViolation, statRejected, isInternalError, returns.
  rewrite getCodecParams_cases. unfold codecOutcome.
  destruct (getRealVideoStreams streams) as [| videoStream [| other rest]].
  - right. left. split; [| split].
    + intros [v [c [E _]]]. discriminate E.
    + left. reflexivity.
    + eexists. reflexivity.
  - cbv zeta.
    assert (Hone : forall P Q : FFprobeStream -> Prop,
               List.length [videoStream] = 0%nat
               \/ (1 < List.length [videoStream])%nat
               \/ (exists v, [videoStream] = [v] /\ P v)
               \/ (exists v, [videoStream] = [v] /\ Q v)
               -> P videoStream \/ Q videoStream).
    { intros P Q [E | [E | [[v [E H]] | [v [E H]]]]].
      - discriminate E.
      - simpl in E. lia.
      - injection E as <-. left. exact H.
      - injection E as <-. right. exact H. }
    destruct (isNaN (parseInt10 (bit_rate videoStream))) eqn:Hnan.
    + destruct (stat path) as [cause | stats] eqn:Hstat.
      { left. split; [| exists cause; split; reflexivity].
        exists videoStream, cause. auto. }
      assert (Hnr : ~ (exists v c, [videoStream] = [v]
                                   /\ isNaN (parseInt10 (bit_rate v)) = true
                                   /\ @inr IOFailure Stats stats = inl c)).
      { intros [v [c [_ [_ E]]]]. discriminate E. }
      right.
      destruct fileDuration as [duration |];
        [destruct (codec_name videoStream) as [codec |] eqn:Hcodec |].
      * right. split; [exact Hnr |]. split; [| eexists; reflexivity].
        intros V. apply Hone in V. destruct V as [V | [_ V]].
        -- rewrite Hcodec in V. discriminate V.
        -- discriminate V.
      * left. split; [exact Hnr |]. split; [| eexists; reflexivity].
        right. right. left. exists videoStream. auto.
      * left. split; [exact Hnr |]. split; [| eexists; reflexivity].
        right. right. right. exists videoStream. auto.
    + assert (Hnr : ~ (exists v c, [videoStream] = [v]
                                   /\ isNaN (parseInt10 (bit_rate v)) = true
                                   /\ stat path = inl c)).
      { intros [v [c [E [Hn _]]]]. injection E as <-.
        rewrite Hnan in Hn. discriminate Hn. }
      right.
      destruct (codec_name videoStream) as [codec |] eqn:Hcodec.
      * right. split; [exact Hnr |]. split; [| eexists; reflexivity].
        intros V. apply Hone in V. destruct V as [V | [V _]].
        -- rewrite Hcodec in V. discriminate V.
        -- rewrite Hnan in V. discriminate V.
      * left. split; [exact Hnr |]. split; [| eexists; reflexivity].
        right. right. left. exists videoStream. auto.
  - right. left. split; [| split].
    + intros [v [c [E _]]]. discriminate E.
    + right. left. simpl. lia.
    + eexists. reflexivity.
Qed.

(** C4 (amended): [getCodecParams] never throws a [UserFacingError], and it
    throws in exactly five cases: the four contract violations (no real
    video stream, more than one, no codec identifier, unparseable bit rate
    with absent duration) and the rejection of the file stat that an
    unparseable bit rate makes it await. A rejected stat is thrown as it
    is, before the duration and the codec are looked at; a plain [Error] of
    the module's own is thrown exactly on a contract violation without a
    rejected stat; [CodecParams] is returned in all other cases. *)
Theorem C4_internal_errors_exactly
  (path : string) (fileDuration : option number) (streams : list FFprobeStream) :
  let run := derive path fileDuration streams in
  let violation := contractViolation (getRealVideoStreams streams) fileDuration in
  let rejected := statRejected stat (getRealVideoStreams streams) path in
  (isNonUserFacingError (outcome run) <-> violation \/ rejected)
  /\ (returns (outcome run) <-> ~ (violation \/ rejected))
  /\ (isInternalError (outcome run) <-> violation /\ ~ rejected)
  /\ (forall cause,
         outcome run = Throw (Rejected cause)
         <-> rejected /\ stat path = inl cause)
  /\ ~ isUserFacingError (outcome run).
Proof.
  cbv zeta.
  pose proof (getCodecParams_outcome_kind path fileDuration streams) as K.
  cbv zeta in K.
  set (o := outcome (derive path fileDuration streams)) in *.
  set (violation := contractViolation (getRealVideoStreams streams) fileDuration) in *.
  set (rejected := statRejected stat (getRealVideoStreams streams) path) in *.
  unfold isNonUserFacingError, isInternalError, isUserFacingError, returns.
  destruct K as [[R [cause [Hstat E]]] | [[NR [V [m E]]] | [NR [NV [a E]]]]];
    rewrite E.
  - split; [| split; [| split; [| split]]].
    + split; [intros _; right; exact R |].
      intros _. eexists. split; [reflexivity | discriminate].
    + split; [intros [a' E']; discriminate E' | intros H; destruct H; auto].
    + split; [intros [m E']; discriminate E' | intros [_ H]; destruct (H R)].
    + intros cause'. split.
      * intros E'. injection E' as <-. auto.
      * intros [_ Hs]. rewrite Hstat in Hs. injection Hs as <-. reflexivity.
    + intros [m E']. discriminate E'.
  - split; [| split; [| split; [| split]]].
    + split; [intros _; left; exact V |].
      intros _. eexists. split; [reflexivity | discriminate].
    + split; [intros [a' E']; discriminate E' | intros H; destruct H; auto].
    + split; [auto | intros _; eexists; reflexivity].
    + intros cause'. split; [discriminate | intros [R _]; destruct (NR R)].
    + intros [m' E']. discriminate E'.
  - split; [| split; [| split; [| split]]].
    + split; [intros [e [E' _]]; discriminate E' | tauto].
    + split; [tauto | intros _; eexists; reflexivity].
    + split; [intros [m E']; discriminate E' | tauto].
    + intros cause'. split; [discriminate | intros [R _]; destruct (NR R)].
    + intros [m E']. discriminate E'.
Qed.

(** The margin and the two floors keep a bit rate that is not negative a
    non-negative integer (or [+Infinity]). *)
Lemma margin_nonneg_integer (rate : number) :
  isNonNeg rate = true ->
  isNonNegIntegerOrInfinity (floor (floor (mul rate lit_1_2))).
Proof.
  intros H. apply floor_integer, floor_nonneg, mul_nonneg; [exact H | reflexivity].
Qed.

(** C5 (amended): for every successful call of [getCodecParams] in which the
    reported bit rate parses to a number that is not negative, or is
    unparseable while the stat size is not negative and [fileDuration] is a
    positive finite number, the returned [videoBitrate] is neither NaN nor
    negative: it is a non-negative integer or [+Infinity]. *)
Theorem C5_bitrate_nonneg_integer
  (path : string) (fileDuration : option number) (streams : list FFprobeStream)
  (params : CodecParams Timebase) :
  outcome (derive path fileDuration streams) = Return params ->
  bitrateSourceNonNegative stat (getRealVideoStreams streams) path fileDuration ->
  isNonNegIntegerOrInfinity (videoBitrate params).
Proof.
  intros Hrun [videoStream [Hreal Hsrc]].
  rewrite getCodecParams_cases, Hreal in Hrun. cbv zeta in Hrun.
  assert (Hend : forall rate,
             isNonNeg rate = true ->
             @codecOutcome IOFailure Timebase getVideoTimebase videoStream rate
             = Return params ->
             isNonNegIntegerOrInfinity (videoBitrate params)).
  { intros rate Hrate E. unfold codecOutcome in E.
    destruct (codec_name videoStream); [| discriminate E].
    injection E as <-. exact (margin_nonneg_integer rate Hrate). }
  destruct Hsrc as [Hparsed | [Hnan [stats [duration [Hstat [Hdur [Hsize Hpos]]]]]]].
  - assert (Hnan : isNaN (parseInt10 (bit_rate videoStream)) = false)
      by (destruct (parseInt10 (bit_rate videoStream)) as [| | |];
          try reflexivity; discriminate Hparsed).
    rewrite Hnan in Hrun. exact (Hend _ Hparsed Hrun).
  - rewrite Hnan, Hstat, Hdur in Hrun.
    refine (Hend _ _ Hrun). unfold estimateBitrate.
    apply div_nonneg; [| exact Hpos].
    apply mul_nonneg; [exact Hsize | reflexivity].
Qed.

End CodecParameterDeriverFacts.

(** In the sample file: one real video stream without reported bit rate, a
    duration of 100 s and 12,500,000 bytes. *)
Lemma C3_estimated_bitrate_example_witness :
  let run := Sample.getCodecParams "a.mp4" (Some (ofZ 100))
               [Sample.video (Some "h264") None; Sample.audio] in
  estimateBitrate {| size := ofZ 12500000 |} (ofZ 100) = ofZ 1000000
  /\ floor (mul (ofZ 1000000) lit_1_2) = ofZ 1200000
  /\ (forall params, outcome run = Return params ->
                     videoBitrate params = ofZ 1200000)
  /\ (forall codec, Some "h264" = Some codec ->
        outcome run
        = Return (Build_CodecParams (number * number)
                    (Sample.video (Some "h264") None) (mapVideoCodec codec)
                    (ofZ 1200000)
                    (Collaborators.getVideoTimebase (Sample.video (Some "h264") None)))).
Proof.
  apply (C3_estimated_bitrate_example string Sample.stat
           Collaborators.getRealVideoStreams (number * number)
           Collaborators.getVideoTimebase
           "a.mp4" [Sample.video (Some "h264") None; Sample.audio]
           (Sample.video (Some "h264") None) {| size := ofZ 12500000 |});
    reflexivity.
Defined.

(** C4, as stated, fails: with an unreported bit rate, a known duration, a
    codec identifier and one real video stream none of the four cases
    holds, yet the stat of a missing file is rejected and the call throws
    that rejection, which is no [UserFacingError]. *)
Lemma C4_counterexample :
  ~ (forall (path : string) (fileDuration : option number)
            (streams : list FFprobeStream),
        isNonUserFacingError
          (outcome (Sample.getCodecParams path fileDuration streams))
        <-> contractViolation (Collaborators.getRealVideoStreams streams)
              fileDuration).
Proof.
  intros H.
  destruct (H "missing.mp4" (Some (ofZ 100)) [Sample.video (Some "h264") None])
    as [Hthrow _].
  assert (Hrun : outcome (Sample.getCodecParams "missing.mp4" (Some (ofZ 100))
                            [Sample.video (Some "h264") None])
                 = Throw (Rejected "ENOENT")) by reflexivity.
  assert (Hreal : Collaborators.getRealVideoStreams
                    [Sample.video (Some "h264") None]
                  = [Sample.video (Some "h264") None]) by reflexivity.
  rewrite Hrun, Hreal in Hthrow.
  destruct Hthrow as [E | [E | [[v [E Hc]] | [v [_ [_ E]]]]]].
  - eexists. split; [reflexivity | discriminate].
  - discriminate E.
  - simpl in E. lia.
  - injection E as <-. discriminate Hc.
  - discriminate E.
Qed.

(** C5, as stated, fails: a reported bit rate of "-5" parses to -5, and the
    call returns [videoBitrate] = floor (-5 * 1.2) = -6. *)
Lemma C5_counterexample :
  exists params,
    outcome (Sample.getCodecParams "a.mp4" (Some (ofZ 100))
               [Sample.video (Some "h264") (Some "-5")])
    = Return params
    /\ videoBitrate params = ofZ (-6)
    /\ isNonNeg (videoBitrate params) = false
    /\ ~ isNonNegIntegerOrInfinity (videoBitrate params).
Proof.
  eexists. split; [vm_compute; reflexivity |].
  split; [vm_compute; reflexivity |].
  split; [vm_compute; reflexivity |].
  intros [E | [E _]]; vm_compute in E; discriminate E.
Qed.

(** Nor is NaN excluded: an empty file of duration 0 gives the estimate
    0 / 0. *)
Lemma videoBitrate_NaN_example :
  exists params,
    outcome (Sample.getCodecParams "empty.mp4" (Some (ofZ 0))
               [Sample.video (Some "h264") None])
    = Return params
    /\ videoBitrate params = NaN.
Proof. eexists. split; vm_compute; reflexivity. Qed.

(** A duration of 0 for a non-empty file gives [+Infinity]; so does a
    reported bit rate of 310 digits. *)
Lemma videoBitrate_Infinity_example :
  (exists params,
      outcome (Sample.getCodecParams "a.mp4" (Some (ofZ 0))
                 [Sample.video (Some "h264") None])
      = Return params
      /\ videoBitrate params = Infinity)
  /\ (exists params,
         outcome (Sample.getCodecParams "a.mp4" None
                    [Sample.video (Some "h264")
                       (Some (String "1" (zeros 309)))])
         = Return params
         /\ videoBitrate params = Infinity).
Proof. split; eexists; split; vm_compute; reflexivity. Qed.

(** In the sample file the estimated bit rate starts from 12,500,000 bytes
    and 100 s. *)
Lemma C5_bitrate_nonneg_integer_witness :
  isNonNegIntegerOrInfinity (ofZ 1200000).
Proof.
  apply (C5_bitrate_nonneg_integer string Sample.stat
           Collaborators.getRealVideoStreams (number * number)
           Collaborators.getVideoTimebase
           "a.mp4" (Some (ofZ 100)) [Sample.video (Some "h264") None]
           (Build_CodecParams (number * number)
              (Sample.video (Some "h264") None) (StringValue "h264")
              (ofZ 1200000) (Some (ofZ 1, ofZ 90000)))).
  - vm_compute. reflexivity.
  - exists (Sample.video (Some "h264") None). split; [reflexivity |].
    right. split; [reflexivity |].
    exists {| size := ofZ 12500000 |}, (ofZ 100).
    repeat split; reflexivity.
Defined.

(** What [mapVideoCodec] returns: the table entry for 'av1', the inherited
    member for a key of [Object.prototype], and the identifier itself for
    every other identifier. *)
Lemma mapVideoCodec_spec (codec : string) :
  mapVideoCodec codec
  = if String.eqb codec "av1" then StringValue "libsvtav1"
    else if existsb (String.eqb codec) Object_prototype_keys
         then InheritedMember codec
         else StringValue codec.
Proof.
  unfold mapVideoCodec, getProperty, videoCodecTable, ownProperty.
  rewrite (String.eqb_sym "av1" codec).
  destruct (String.eqb codec "av1"); [reflexivity |].
  destruct (existsb (String.eqb codec) Object_prototype_keys); reflexivity.
Qed.

Lemma mapVideoCodec_pass_through (codec : string) :
  codec <> "av1" -> ~ In codec Object_prototype_keys ->
  mapVideoCodec codec = StringValue codec.
Proof.
  intros Hav1 Hkeys. rewrite mapVideoCodec_spec.
  destruct (String.eqb_spec codec "av1") as [E | _]; [destruct (Hav1 E) |].
  destruct (existsb (String.eqb codec) Object_prototype_keys) eqn:Hex;
    [| reflexivity].
  apply existsb_exists in Hex. destruct Hex as [key [Hin Heq]].
  apply String.eqb_eq in Heq. subst key. destruct (Hkeys Hin).
Qed.

(** C8 fails on the code: for the codec identifier 'constructor' the lookup
    in the substitution table finds the member inherited from
    [Object.prototype], which is not nullish, so the returned [videoCodec]
    is that member and not the identifier. *)
Theorem C8_inherited_member_returned :
  mapVideoCodec "constructor" = InheritedMember "constructor"
  /\ mapVideoCodec "constructor" <> StringValue "constructor"
  /\ outcome (Sample.getCodecParams "a.mp4" (Some (ofZ 100))
                [Sample.video (Some "constructor") (Some "1000000")])
     = Return (Build_CodecParams (number * number)
                 (Sample.video (Some "constructor") (Some "1000000"))
                 (InheritedMember "constructor")
                 (ofZ 1200000)
                 (Some (ofZ 1, ofZ 90000))).
Proof.
  split; [reflexivity |]. split; [discriminate |].
  vm_compute. reflexivity.
Qed.

(* ================================================================== *)
(** * Further properties of the EncoderQualityMapper *)
(* ================================================================== *)

Section QualityArgumentsFacts.

Variable encoder : string.
Variable outputIndex : number.

(** The arguments are the quality pairs, then the preset pair, then the
    quality-scale pair of the VideoToolbox family. *)
Lemma getEncoderQualityArgs_pairs
  (customCRF : option number) (customPreset : option string) :
  getEncoderQualityArgs encoder outputIndex customCRF customPreset
  = tokensOfPairs outputIndex
      (match nullish customCRF (getOptimalCRF encoder) with
       | Some q => qualityPairs encoder (toString q)
       | None => []
       end
       ++ match nullish customPreset (getOptimalPreset encoder) with
          | Some p => [("-preset", p)]
          | None => []
          end
       ++ if includes encoder "videotoolbox" then [("-q", "65")] else [])%list.
Proof.
  unfold getEncoderQualityArgs, qualityPairs, tokensOfPairs, push.
  destruct (nullish customCRF (getOptimalCRF encoder)) as [q |];
    destruct (nullish customPreset (getOptimalPreset encoder)) as [p |];
    destruct (includes encoder "videotoolbox");
    try (destruct (includes encoder "nvenc");
         [| destruct (includes encoder "qsv");
            [| destruct (includes encoder "amf")]]);
    reflexivity.
Qed.

End QualityArgumentsFacts.

(** Each of the twelve names has a default quality and a default preset. *)
Lemma crfNames_have_quality_and_preset (encoder : string) :
  In encoder crfNames ->
  supportsCRF encoder = true /\ exists p, getOptimalPreset encoder = Some p.
Proof.
  intros Hin. simpl in Hin.
  repeat (destruct Hin as [<- | Hin];
          [split; [reflexivity | eexists; reflexivity] |]).
  destruct Hin.
Qed.

(** No name with a default quality contains 'vaapi' or 'videotoolbox'. *)
Lemma getOptimalCRF_vaapi_videotoolbox (encoder : string) :
  includes encoder "vaapi" = true \/ includes encoder "videotoolbox" = true ->
  getOptimalCRF encoder = None.
Proof.
  intros H. apply getOptimalCRF_exact_names. intros Hin. simpl in Hin.
  repeat (destruct Hin as [<- | Hin];
          [destruct H as [H | H]; vm_compute in H; discriminate H |]).
  exact Hin.
Qed.

(** X1: [supportsCRF] is true for exactly twelve encoder names, and for
    each of them [getOptimalPreset] has a value too. *)
Theorem supportsCRF_iff_crfNames (encoder : string) :
  (supportsCRF encoder = true <-> In encoder crfNames)
  /\ (supportsCRF encoder = true -> exists p, getOptimalPreset encoder = Some p).
Proof.
  split.
  - split; [apply supportsCRF_exact_names |].
    intros H. apply crfNames_have_quality_and_preset, H.
  - intros H. apply crfNames_have_quality_and_preset, supportsCRF_exact_names, H.
Qed.

(** X2: an identifier that contains 'vaapi' or 'videotoolbox' has no
    default quality value. *)
Theorem no_default_quality_for_vaapi_or_videotoolbox (encoder : string) :
  includes encoder "vaapi" = true \/ includes encoder "videotoolbox" = true ->
  getOptimalCRF encoder = None /\ supportsCRF encoder = false.
Proof.
  intros H. pose proof (getOptimalCRF_vaapi_videotoolbox encoder H) as Hnone.
  split; [exact Hnone |]. unfold supportsCRF. rewrite Hnone. reflexivity.
Qed.

Lemma no_default_quality_for_vaapi_or_videotoolbox_witness :
  getOptimalCRF "vaapi_whatever" = None /\ supportsCRF "vaapi_whatever" = false.
Proof.
  apply (no_default_quality_for_vaapi_or_videotoolbox "vaapi_whatever").
  left. reflexivity.
Defined.

(** X3: for an encoder with a default quality value, the arguments without
    overrides are the quality pairs of its dialect followed by the preset
    pair, and nothing else. *)
Theorem default_args_of_crf_encoders (encoder : string) (outputIndex : number) :
  supportsCRF encoder = true ->
  exists q p,
    getOptimalCRF encoder = Some q
    /\ getOptimalPreset encoder = Some p
    /\ getEncoderQualityArgs encoder outputIndex None None
       = tokensOfPairs outputIndex
           (qualityPairs encoder (toString q) ++ [("-preset", p)])%list.
Proof.
  intros H.
  destruct (crfNames_have_quality_and_preset encoder
              (supportsCRF_exact_names encoder H)) as [_ [p Hp]].
  assert (Hvt : includes encoder "videotoolbox" = false).
  { destruct (includes encoder "videotoolbox") eqn:E; [| reflexivity].
    pose proof (getOptimalCRF_vaapi_videotoolbox encoder (or_intror E)) as Hf.
    unfold supportsCRF in H. rewrite Hf in H. discriminate H. }
  unfold supportsCRF in H.
  destruct (getOptimalCRF encoder) as [q |] eqn:Hq; [| discriminate H].
  exists q, p. split; [reflexivity |]. split; [exact Hp |].
  rewrite getEncoderQualityArgs_pairs. simpl nullish.
  rewrite Hq, Hp, Hvt. rewrite app_nil_r. reflexivity.
Qed.

Lemma default_args_of_crf_encoders_witness :
  exists q p,
    getOptimalCRF "hevc_amf" = Some q
    /\ getOptimalPreset "hevc_amf" = Some p
    /\ getEncoderQualityArgs "hevc_amf" (ofZ 1) None None
       = tokensOfPairs (ofZ 1)
           (qualityPairs "hevc_amf" (toString q) ++ [("-preset", p)])%list.
Proof.
  exact (default_args_of_crf_encoders "hevc_amf" (ofZ 1) eq_refl).
Defined.

(** X4: whatever the encoder and the overrides, the arguments are a list of
    at most four (flag, value) pairs whose flags are known, pairwise
    distinct and all scoped to the output index. *)
Theorem args_are_scoped_pairs
  (encoder : string) (outputIndex : number)
  (customCRF : option number) (customPreset : option string) :
  exists pairs,
    getEncoderQualityArgs encoder outputIndex customCRF customPreset
    = tokensOfPairs outputIndex pairs
    /\ Forall (fun nv => In (fst nv) flagNames) pairs
    /\ NoDup (map fst pairs)
    /\ (List.length pairs <= 4)%nat.
Proof.
  eexists. split; [apply getEncoderQualityArgs_pairs |].
  unfold qualityPairs.
  destruct (nullish customCRF (getOptimalCRF encoder)) as [q |];
    destruct (nullish customPreset (getOptimalPreset encoder)) as [p |];
    destruct (includes encoder "videotoolbox");
    try (destruct (includes encoder "nvenc");
         [| destruct (includes encoder "qsv");
            [| destruct (includes encoder "amf")]]);
    (split; [repeat constructor; simpl; tauto |]);
    (split; [| simpl; lia]);
    simpl; repeat constructor; simpl;
      intuition discriminate.
Qed.

(** X5: without overrides the argument list is empty exactly when the
    encoder has neither a default quality nor a default preset and is not of
    the VideoToolbox family; with an override it is never empty. *)
Theorem args_empty_iff
  (encoder : string) (outputIndex : number)
  (customCRF : option number) (customPreset : option string) :
  getEncoderQualityArgs encoder outputIndex customCRF customPreset = []
  <-> customCRF = None /\ customPreset = None
      /\ getOptimalCRF encoder = None
      /\ getOptimalPreset encoder = None
      /\ includes encoder "videotoolbox" = false.
Proof.
  rewrite getEncoderQualityArgs_pairs. unfold qualityPairs, tokensOfPairs.
  destruct customCRF as [c |]; destruct customPreset as [cp |]; simpl nullish;
    destruct (getOptimalCRF encoder) as [q |];
    destruct (getOptimalPreset encoder) as [p |];
    destruct (includes encoder "videotoolbox");
    try (destruct (includes encoder "nvenc");
         [| destruct (includes encoder "qsv");
            [| destruct (includes encoder "amf")]]);
    simpl; split; intros H; try discriminate H;
      try (repeat split; reflexivity);
      try (destruct H as [H1 [H2 [H3 [H4 H5]]]]; discriminate).
Qed.

(** X6: a quality override is always emitted first, in the dialect chosen
    by the first of 'nvenc', 'qsv', 'amf' that the identifier contains:
    constant quality, global quality, or the two quantizer flags with the
    same value. *)
Theorem quality_override_dialects
  (encoder : string) (outputIndex q : number) (customPreset : option string) :
  exists rest,
    getEncoderQualityArgs encoder outputIndex (Some q) customPreset
    = ((if includes encoder "nvenc" then
          [scoped "-cq" outputIndex; toString q]
        else if includes encoder "qsv" then
          [scoped "-global_quality" outputIndex; toString q]
        else if includes encoder "amf" then
          [scoped "-qp_i" outputIndex; toString q;
           scoped "-qp_p" outputIndex; toString q]
        else [scoped "-crf" outputIndex; toString q]) ++ rest)%list
    /\ forall otherQ,
        getEncoderQualityArgs encoder outputIndex (Some otherQ) customPreset
        = ((if includes encoder "nvenc" then
              [scoped "-cq" outputIndex; toString otherQ]
            else if includes encoder "qsv" then
              [scoped "-global_quality" outputIndex; toString otherQ]
            else if includes encoder "amf" then
              [scoped "-qp_i" outputIndex; toString otherQ;
               scoped "-qp_p" outputIndex; toString otherQ]
            else [scoped "-crf" outputIndex; toString otherQ]) ++ rest)%list.
Proof.
  exists (tokensOfPairs outputIndex
            (match nullish customPreset (getOptimalPreset encoder) with
             | Some p => [("-preset", p)]
             | None => []
             end
             ++ if includes encoder "videotoolbox" then [("-q", "65")] else [])%list).
  split; [| intros otherQ]; rewrite getEncoderQualityArgs_pairs;
    simpl nullish; unfold qualityPairs, tokensOfPairs;
    rewrite flat_map_app;
    (destruct (includes encoder "nvenc");
     [| destruct (includes encoder "qsv");
        [| destruct (includes encoder "amf")]]);
    reflexivity.
Qed.

(** X7: a preset override is always emitted, also for the families without
    a preset of their own; it replaces the default, comes after the quality
    pairs and before the quality-scale pair. *)
Theorem preset_override_always_emitted
  (encoder : string) (outputIndex : number)
  (customCRF : option number) (preset : string) :
  exists qualityPart,
    getEncoderQualityArgs encoder outputIndex customCRF (Some preset)
    = (tokensOfPairs outputIndex qualityPart
         ++ [scoped "-preset" outputIndex; preset]
         ++ if includes encoder "videotoolbox"
            then [scoped "-q" outputIndex; "65"] else [])%list
    /\ Forall (fun nv => In (fst nv) qualityFlagNames) qualityPart.
Proof.
  exists (match nullish customCRF (getOptimalCRF encoder) with
          | Some q => qualityPairs encoder (toString q)
          | None => []
          end).
  split.
  - rewrite getEncoderQualityArgs_pairs. simpl nullish. unfold tokensOfPairs.
    rewrite !flat_map_app.
    destruct (includes encoder "videotoolbox"); reflexivity.
  - destruct (nullish customCRF (getOptimalCRF encoder)) as [q |];
      [| constructor].
    unfold qualityPairs.
    destruct (includes encoder "nvenc");
      [| destruct (includes encoder "qsv");
         [| destruct (includes encoder "amf")]];
      repeat constructor; simpl; tauto.
Qed.

(** X8: for every codec identifier that is not a property name of
    [Object.prototype], [mapVideoCodec] returns a string: 'libsvtav1' for
    'av1' and the identifier itself otherwise; mapping the result again
    changes nothing. *)
Theorem mapVideoCodec_on_ordinary_names (codec : string) :
  ~ In codec Object_prototype_keys ->
  let mapped := if String.eqb codec "av1" then "libsvtav1" else codec in
  mapVideoCodec codec = StringValue mapped
  /\ mapVideoCodec mapped = StringValue mapped.
Proof.
  intros Hkeys. cbv zeta.
  destruct (String.eqb_spec codec "av1") as [-> | Hne].
  - split; reflexivity.
  - split; apply mapVideoCodec_pass_through; assumption.
Qed.

Lemma mapVideoCodec_on_ordinary_names_witness :
  mapVideoCodec "hevc" = StringValue "hevc".
Proof.
  apply (mapVideoCodec_on_ordinary_names "hevc").
  simpl. intuition discriminate.
Defined.

(* ================================================================== *)
(** * Further properties of the CutPointResolver *)
(* ================================================================== *)

Section CutPointResolverRuns.

Variable IOFailure : Type.
Variable readKeyframesAroundTime :
  string -> number -> number -> number -> IOFailure + list Keyframe.
Variable findKeyframeAtExactTime : list Keyframe -> number -> option Keyframe.
Variable findNextKeyframe : list Keyframe -> number -> option Keyframe.
Variable i18n_t : string -> string.

Variable path : string.
Variable desiredCutFrom streamIndex : number.

Let run : M IOFailure CutDecision :=
  needsSmartCut IOFailure readKeyframesAroundTime
    findKeyframeAtExactTime findNextKeyframe i18n_t
    path desiredCutFrom streamIndex.

Let query (w : Z) : IOFailure + list Keyframe :=
  readKeyframesAroundTime path streamIndex desiredCutFrom (ofZ w).

Let queryEffect (w : Z) : Effect :=
  ReadKeyframes path streamIndex desiredCutFrom (ofZ w).

(** The whole run, effects included, by cases. *)
Lemma needsSmartCut_run :
  run
  = match query 10 with
    | inl cause => ([queryEffect 10], Throw (Rejected cause))
    | inr keyframes =>
        match findKeyframeAtExactTime keyframes desiredCutFrom with
        | Some kf =>
            ([queryEffect 10;
              ConsoleLog [LStr "Start cut is already on exact keyframe";
                          LNum (time kf)]],
             Return {| losslessCutFrom := time kf;
                       segmentNeedsSmartCut := false |})
        | None =>
            let smartCut (before : list Effect) (kf : Keyframe) :=
              ((before
                  ++ [ConsoleLog [LStr "Smart cut from keyframe";
                                  LObject [FNum "keyframe" (time kf);
                                           FNum "desiredCutFrom" desiredCutFrom]]])%list,
               Return {| losslessCutFrom := time kf;
                         segmentNeedsSmartCut := true |}) in
            match findNextKeyframe keyframes desiredCutFrom with
            | Some kf => smartCut [queryEffect 10] kf
            | None =>
                match query 60 with
                | inl cause =>
                    ([queryEffect 10; queryEffect 60], Throw (Rejected cause))
                | inr widened =>
                    match findNextKeyframe widened desiredCutFrom with
                    | Some kf => smartCut [queryEffect 10; queryEffect 60] kf
                    | None =>
                        ([queryEffect 10; queryEffect 60],
                         Throw (UserFacingError
                                  (i18n_t "Cannot find any keyframe after the desired start cut point")))
                    end
                end
            end
        end
    end.
Proof.
  unfold run, query, queryEffect, needsSmartCut, readKeyframes.
  destruct (readKeyframesAroundTime path streamIndex desiredCutFrom (ofZ 10))
    as [cause | keyframes]; [reflexivity |].
  cbn [await bind].
  destruct (findKeyframeAtExactTime keyframes desiredCutFrom) as [kf |];
    [reflexivity |].
  destruct (findNextKeyframe keyframes desiredCutFrom) as [kf |];
    [reflexivity |].
  destruct (readKeyframesAroundTime path streamIndex desiredCutFrom (ofZ 60))
    as [cause | widened]; [reflexivity |].
  cbn [await bind ret].
  destruct (findNextKeyframe widened desiredCutFrom) as [kf |]; reflexivity.
Qed.

(** X9: a rejected keyframe query is propagated as the failure of the call:
    nothing is logged and, after a rejected first query, nothing more is
    queried. *)
Theorem rejected_query_is_propagated :
  (forall cause,
      query 10 = inl cause ->
      run = ([queryEffect 10], Throw (Rejected cause)))
  /\ (forall keyframes cause,
         query 10 = inr keyframes ->
         findKeyframeAtExactTime keyframes desiredCutFrom = None ->
         findNextKeyframe keyframes desiredCutFrom = None ->
         query 60 = inl cause ->
         run = ([queryEffect 10; queryEffect 60], Throw (Rejected cause))).
Proof.
  split.
  - intros cause H. rewrite needsSmartCut_run, H. reflexivity.
  - intros keyframes cause H1 He Hn H2.
    rewrite needsSmartCut_run, H1, He, Hn, H2. reflexivity.
Qed.

(** X10: every effect of a run is a keyframe query for the same file, the
    same stream and a window centred on [desiredCutFrom], of size 10 or 60,
    or a console log; the file is never stat'd and no warning is written. *)
Theorem effects_are_centred_queries_and_logs :
  Forall (fun ev =>
            ev = queryEffect 10 \/ ev = queryEffect 60 \/ isConsoleLog ev = true)
         (effects run).
Proof.
  assert (Hall : forall l,
             forallb (fun ev => isReadKeyframes ev || isConsoleLog ev) l = true ->
             (forall ev, In ev l -> isReadKeyframes ev = true ->
                         ev = queryEffect 10 \/ ev = queryEffect 60) ->
             Forall (fun ev => ev = queryEffect 10 \/ ev = queryEffect 60
                               \/ isConsoleLog ev = true) l).
  { intros l Hb Hq. apply Forall_forall. intros ev Hin.
    rewrite forallb_forall in Hb. specialize (Hb ev Hin).
    destruct (isReadKeyframes ev) eqn:E.
    - destruct (Hq ev Hin E); auto.
    - right. right. exact Hb. }
  rewrite needsSmartCut_run. cbv zeta.
  destruct (query 10) as [cause | keyframes];
    [| destruct (findKeyframeAtExactTime keyframes desiredCutFrom);
       [| destruct (findNextKeyframe keyframes desiredCutFrom);
          [| destruct (query 60) as [cause | widened];
             [| destruct (findNextKeyframe widened desiredCutFrom)]]]];
    (apply Hall; [reflexivity |]);
    simpl; intros ev Hin Hr;
    repeat (destruct Hin as [<- | Hin]; [auto; discriminate Hr |]);
    destruct Hin.
Qed.

(** X11: a run writes exactly one console log, as its last effect, when it
    returns a decision, and none when it throws. *)
Theorem one_log_on_success_none_on_failure :
  match outcome run with
  | Return _ =>
      exists queries entry,
        effects run = (queries ++ [ConsoleLog entry])%list
        /\ forallb isReadKeyframes queries = true
  | Throw _ => forallb isReadKeyframes (effects run) = true
  end.
Proof.
  rewrite needsSmartCut_run. cbv zeta.
  destruct (query 10) as [cause | keyframes]; [reflexivity |].
  destruct (findKeyframeAtExactTime keyframes desiredCutFrom).
  { exists [queryEffect 10]. eexists. split; reflexivity. }
  destruct (findNextKeyframe keyframes desiredCutFrom).
  { exists [queryEffect 10]. eexists. split; reflexivity. }
  destruct (query 60) as [cause | widened]; [reflexivity |].
  destruct (findNextKeyframe widened desiredCutFrom); [| reflexivity].
  exists [queryEffect 10; queryEffect 60]. eexists. split; reflexivity.
Qed.

Section HelpersReturnMembers.

Hypothesis exactTime_member : ReturnsKeyframeOfWindow findKeyframeAtExactTime.
Hypothesis nextKeyframe_member : ReturnsKeyframeOfWindow findNextKeyframe.

(** X12: when the helpers return only keyframes of the window they are
    given, the returned cut point is the time of a keyframe that one of
    the two queries reported. *)
Theorem cut_point_is_a_reported_keyframe (decision : CutDecision) :
  outcome run = Return decision ->
  exists w keyframes kf,
    (w = 10 \/ w = 60)
    /\ query w = inr keyframes
    /\ In kf keyframes
    /\ losslessCutFrom decision = time kf.
Proof.
  rewrite needsSmartCut_run. cbv zeta.
  destruct (query 10) as [cause | keyframes] eqn:Hq1; [discriminate |].
  destruct (findKeyframeAtExactTime keyframes desiredCutFrom) as [kf |] eqn:He.
  { intros E. injection E as <-. exists 10, keyframes, kf.
    repeat split; auto. exact (exactTime_member _ _ _ He). }
  destruct (findNextKeyframe keyframes desiredCutFrom) as [kf |] eqn:Hn.
  { intros E. injection E as <-. exists 10, keyframes, kf.
    repeat split; auto. exact (nextKeyframe_member _ _ _ Hn). }
  destruct (query 60) as [cause | widened] eqn:Hq2; [discriminate |].
  destruct (findNextKeyframe widened desiredCutFrom) as [kf |] eqn:Hw;
    [| discriminate].
  intros E. injection E as <-. exists 60, widened, kf.
  repeat split; auto. exact (nextKeyframe_member _ _ _ Hw).
Qed.

End HelpersReturnMembers.

Section WithContracts.

Hypothesis exactTime_ok : ExactTimeContract findKeyframeAtExactTime.
Hypothesis nextKeyframe_ok : NextKeyframeContract findNextKeyframe.

(** X13: the call returns a decision exactly when the first query resolves
    and its window holds a keyframe at, or at or after, the desired time,
    or else the widened query resolves and its window holds one at or
    after; the decision is lossless exactly when the first window holds a
    keyframe at the desired time. *)
Theorem returns_iff_some_window_has_a_keyframe :
  (returns (outcome run)
   <-> exists keyframes,
         query 10 = inr keyframes
         /\ (hasKeyframeAt keyframes desiredCutFrom
             \/ hasKeyframeAtOrAfter keyframes desiredCutFrom
             \/ exists widened,
                  query 60 = inr widened
                  /\ hasKeyframeAtOrAfter widened desiredCutFrom))
  /\ (forall decision,
         outcome run = Return decision ->
         (segmentNeedsSmartCut decision = false
          <-> exists keyframes,
                query 10 = inr keyframes
                /\ hasKeyframeAt keyframes desiredCutFrom)).
Proof.
  rewrite needsSmartCut_run. cbv zeta. unfold returns.
  destruct (query 10) as [cause | keyframes] eqn:Hq1.
  { split.
    - split; [intros [d E]; discriminate E | intros [k [E _]]; discriminate E].
    - intros d E. discriminate E. }
  pose proof (exactTime_ok keyframes desiredCutFrom) as He.
  pose proof (nextKeyframe_ok keyframes desiredCutFrom) as Hn.
  destruct (findKeyframeAtExactTime keyframes desiredCutFrom) as [kf |].
  { assert (Hat : hasKeyframeAt keyframes desiredCutFrom) by (exists kf; exact He).
    split.
    - split; [intros _; exists keyframes; auto | intros _; eexists; reflexivity].
    - intros d E. injection E as <-.
      split; [intros _; exists keyframes; auto | reflexivity]. }
  assert (Hnot : ~ exists k, @inr IOFailure _ keyframes = inr k
                             /\ hasKeyframeAt k desiredCutFrom).
  { intros [k [E Hat]]. injection E as <-. exact (He Hat). }
  destruct (findNextKeyframe keyframes desiredCutFrom) as [kf |].
  { assert (Hat : hasKeyframeAtOrAfter keyframes desiredCutFrom)
      by (exists kf; exact Hn).
    split.
    - split; [intros _; exists keyframes; auto | intros _; eexists; reflexivity].
    - intros d E. injection E as <-.
      split; [discriminate | intros H; destruct (Hnot H)]. }
  destruct (query 60) as [cause | widened] eqn:Hq2.
  { split.
    - split; [intros [d E]; discriminate E |].
      intros [k [E [Hat | [Hat | [w [E2 _]]]]]]; try discriminate E2;
        injection E as <-; [destruct (He Hat) | destruct (Hn Hat)].
    - intros d E. discriminate E. }
  pose proof (nextKeyframe_ok widened desiredCutFrom) as Hw.
  destruct (findNextKeyframe widened desiredCutFrom) as [kf |].
  - split.
    + split; [| intros _; eexists; reflexivity].
      intros _. exists keyframes. split; [reflexivity |].
      right. right. exists widened. split; [reflexivity |]. exists kf. exact Hw.
    + intros d E. injection E as <-.
      split; [discriminate | intros H; destruct (Hnot H)].
  - split.
    + split; [intros [d E]; discriminate E |].
      intros [k [E [Hat | [Hat | [w [E2 Hat]]]]]]; injection E as <-.
      * destruct (He Hat).
      * destruct (Hn Hat).
      * injection E2 as <-. destruct (Hw Hat).
    + intros d E. discriminate E.
Qed.

End WithContracts.

End CutPointResolverRuns.

(* ================================================================== *)
(** * Further properties of the built-ins *)
(* ================================================================== *)

Lemma digitValue_nonneg (c : ascii) (d : Z) :
  digitValue c = Some d -> 0 <= d.
Proof.
  unfold digitValue.
  destruct ((48 <=? N_of_ascii c)%N && (N_of_ascii c <=? 57)%N) eqn:E;
    [| discriminate].
  intros H. injection H as <-.
  apply andb_prop in E. destruct E as [E _]. apply N.leb_le in E. lia.
Qed.

Lemma digitsPrefix_some (s : string) :
  forall a, 0 <= a -> exists v, digitsPrefix s (Some a) = Some v /\ 0 <= v.
Proof.
  induction s as [| c s IH]; intros a Ha; cbn [digitsPrefix].
  - exists a. auto.
  - destruct (digitValue c) as [d |] eqn:Hd.
    + apply IH. pose proof (digitValue_nonneg _ _ Hd). lia.
    + exists a. auto.
Qed.

Lemma ofZ_nonneg (z : Z) : 0 <= z -> isNonNeg (ofZ z) = true.
Proof.
  intros Hz. unfold ofZ, binary_normalize.
  destruct z as [| p | p]; [reflexivity | | lia].
  unfold binary_round.
  destruct (shl_align p 0 (fexp prec emax (Z.pos (digits2_pos p) + 0)))
    as [mz ez].
  apply binary_round_aux_nonneg. lia.
Qed.

(** A string that starts with a decimal digit parses to a number that is
    neither NaN nor negative. *)
Lemma parseInt10_leading_digit (c : ascii) (rest : string) (d : Z) :
  digitValue c = Some d ->
  isNonNeg (parseInt10 (Some (String c rest))) = true.
Proof.
  intros Hd.
  assert (Hparse : parseInt10 (Some (String c rest))
                   = match digitsPrefix rest (Some d) with
                     | None => NaN
                     | Some 0 => S754_zero false
                     | Some mathInt => ofZ mathInt
                     end).
  { destruct c as [[] [] [] [] [] [] [] []];
      try (vm_compute in Hd; discriminate Hd);
      vm_compute in Hd; injection Hd as <-;
      destruct rest as [| c2 [| c3 rest']]; reflexivity. }
  rewrite Hparse.
  destruct (digitsPrefix_some rest d (digitValue_nonneg _ _ Hd)) as [v [Hv Hpos]].
  rewrite Hv. destruct v as [| p | p]; [reflexivity | | lia].
  apply ofZ_nonneg. lia.
Qed.

(** On a number that is not negative, [Math.floor] is idempotent. *)
Lemma floor_idempotent (x : number) :
  isNonNeg x = true -> floor (floor x) = floor x.
Proof.
  destruct x as [[] | [] | | [] m e]; try discriminate; try reflexivity.
  intros _. destruct (0 <=? e) eqn:He.
  - assert (E : floor (S754_finite false m e) = S754_finite false m e)
      by (unfold floor; rewrite He; reflexivity).
    rewrite E. exact E.
  - assert (E : floor (S754_finite false m e)
                = match Z.shiftl (Z.shiftr (Z.pos m) (- e)) (- e) with
                  | Z.pos m' => S754_finite false m' e
                  | _ => S754_zero false
                  end)
      by (unfold floor; rewrite He; reflexivity).
    rewrite E. apply Z.leb_gt in He.
    destruct (Z.shiftl (Z.shiftr (Z.pos m) (- e)) (- e)) as [| m' | m'] eqn:Hs;
      [reflexivity | | reflexivity].
    assert (H2 : Z.shiftl (Z.shiftr (Z.pos m') (- e)) (- e) = Z.pos m').
    { rewrite <- Hs. rewrite Z.shiftr_shiftl_l by lia.
      rewrite Z.sub_diag, Z.shiftl_0_r. reflexivity. }
    unfold floor. apply Z.leb_gt in He. rewrite He, H2. reflexivity.
Qed.

(* ================================================================== *)
(** * Further properties of the CodecParameterDeriver *)
(* ================================================================== *)

Section CodecParameterDeriverRuns.

Variable IOFailure : Type.
Variable getRealVideoStreams : list FFprobeStream -> list FFprobeStream.

(** The effects and the outcome of the last part of a run, once the bit
    rate is chosen: the codec check, the log of the codec, and the warning
    for an absent time base. *)
Let finish {Timebase : Type} (getVideoTimebase : FFprobeStream -> option Timebase)
  (before : list Effect) (videoStream : FFprobeStream) (rate : number)
  : M IOFailure (CodecParams Timebase) :=
  match codec_name videoStream with
  | None => (before, Throw (Error "Unable to determine codec for smart cut"))
  | Some codec =>
      ((before
          ++ [ConsoleLog [LObject [FStr "detectedVideoCodec" codec;
                                   FValue "videoCodec" (mapVideoCodec codec)]]]
          ++ match getVideoTimebase videoStream with
             | None => [ConsoleWarn [LStr "Unable to determine timebase";
                                     LOptStr (time_base videoStream)]]
             | Some _ => []
             end)%list,
       Return (Build_CodecParams Timebase videoStream (mapVideoCodec codec)
                 (floor (floor (mul rate lit_1_2)))
                 (getVideoTimebase videoStream)))
  end.

(** The whole run, effects included, by cases. *)
Lemma getCodecParams_run {Timebase : Type}
  (stat : string -> IOFailure + Stats)
  (getVideoTimebase : FFprobeStream -> option Timebase)
  (path : string) (fileDuration : option number) (streams : list FFprobeStream) :
  getCodecParams IOFailure stat getRealVideoStreams Timebase getVideoTimebase
    path fileDuration streams
  = match getRealVideoStreams streams with
    | [] => ([], Throw (Error "Smart cut only works on videos"))
    | _ :: _ :: _ =>
        ([], Throw (Error "Can only smart cut video with exactly one video stream"))
    | [videoStream] =>
        let parsed := parseInt10 (bit_rate videoStream) in
        if isNaN parsed then
          let before := [ConsoleWarn [LStr "Unable to detect input bitrate."];
                         StatFile path] in
          match stat path with
          | inl cause => (before, Throw (Rejected cause))
          | inr stats =>
              match fileDuration with
              | None =>
                  (before,
                   Throw (Error "Video duration is unknown, cannot estimate bitrate"))
              | Some duration =>
                  let rate := estimateBitrate stats duration in
                  finish getVideoTimebase
                    (before ++ [ConsoleWarn [LStr "Estimated bitrate.";
                                             LNum (div rate (ofZ 1000000));
                                             LStr "Mbit/s"]])%list
                    videoStream rate
              end
          end
        else finish getVideoTimebase [] videoStream parsed
    end.
Proof.
  unfold getCodecParams, finish.
  destruct (getRealVideoStreams streams) as [| videoStream [| other rest]];
    [reflexivity | | reflexivity].
  cbn [List.length Nat.ltb Nat.leb]. cbv zeta.
  destruct (isNaN (parseInt10 (bit_rate videoStream))).
  - cbn [emit bind]. destruct (stat path) as [cause | stats]; [reflexivity |].
    cbn [await bind]. destruct fileDuration as [duration |]; [| reflexivity].
    cbn [emit bind ret].
    destruct (codec_name videoStream); [| reflexivity].
    destruct (getVideoTimebase videoStream); reflexivity.
  - cbn [ret bind].
    destruct (codec_name videoStream); [| reflexivity].
    destruct (getVideoTimebase videoStream); reflexivity.
Qed.

Section OneRun.

Variable Timebase : Type.
Variable stat : string -> IOFailure + Stats.
Variable getVideoTimebase : FFprobeStream -> option Timebase.
Variable path : string.
Variable fileDuration : option number.
Variable streams : list FFprobeStream.

Let run : M IOFailure (CodecParams Timebase) :=
  getCodecParams IOFailure stat getRealVideoStreams Timebase getVideoTimebase
    path fileDuration streams.

(** X14: the file is stat'd exactly when one real video stream is selected
    and its bit rate is unparseable, and then once, for [path], whatever the
    duration and the codec; no run queries keyframes. *)
Theorem stat_iff_bitrate_unparseable :
  filter isStatFile (effects run)
  = match getRealVideoStreams streams with
    | [videoStream] =>
        if isNaN (parseInt10 (bit_rate videoStream)) then [StatFile path] else []
    | _ => []
    end
  /\ filter isReadKeyframes (effects run) = [].
Proof.
  unfold run. rewrite getCodecParams_run. unfold finish.
  destruct (getRealVideoStreams streams) as [| videoStream [| other rest]];
    [split; reflexivity | | split; reflexivity].
  cbv zeta.
  destruct (isNaN (parseInt10 (bit_rate videoStream)));
    [destruct (stat path) as [cause | stats];
     [| destruct fileDuration as [duration |]] |];
    try (split; reflexivity);
    destruct (codec_name videoStream); try (split; reflexivity);
    destruct (getVideoTimebase videoStream); split; reflexivity.
Qed.

(** X15: when the number of real video streams is not one, the call fails
    with a plain [Error] before any effect: nothing is logged and the file
    is not touched. *)
Theorem wrong_stream_count_fails_without_effects :
  List.length (getRealVideoStreams streams) <> 1%nat ->
  effects run = [] /\ isInternalError (outcome run).
Proof.
  intros Hlen. unfold run. rewrite getCodecParams_run.
  destruct (getRealVideoStreams streams) as [| videoStream [| other rest]].
  - split; [reflexivity | eexists; reflexivity].
  - destruct Hlen. reflexivity.
  - split; [reflexivity | eexists; reflexivity].
Qed.

(** X16: when the reported bit rate parses, the run does not depend on the
    file, on its stat or on the duration: any other path, stat and duration
    give the same effects and the same outcome. *)
Theorem parsed_bitrate_ignores_file_and_duration
  (videoStream : FFprobeStream)
  (stat' : string -> IOFailure + Stats) (path' : string)
  (fileDuration' : option number) :
  getRealVideoStreams streams = [videoStream] ->
  isNaN (parseInt10 (bit_rate videoStream)) = false ->
  run = getCodecParams IOFailure stat' getRealVideoStreams Timebase
          getVideoTimebase path' fileDuration' streams.
Proof.
  intros Hreal Hnan. unfold run. rewrite !getCodecParams_run, Hreal.
  cbv zeta. rewrite Hnan. reflexivity.
Qed.

(** X17: when the bit rate the run starts from is not negative, the second
    [Math.floor] changes nothing: the returned [videoBitrate] is
    [floor (rate * 1.2)] for the parsed or estimated [rate]. *)
Theorem bitrate_is_floor_of_margin (params : CodecParams Timebase) :
  outcome run = Return params ->
  bitrateSourceNonNegative stat (getRealVideoStreams streams) path fileDuration ->
  exists videoStream rate,
    getRealVideoStreams streams = [videoStream]
    /\ (rate = parseInt10 (bit_rate videoStream)
        \/ exists stats duration,
             stat path = inr stats /\ fileDuration = Some duration
             /\ rate = estimateBitrate stats duration)
    /\ isNonNeg rate = true
    /\ videoBitrate params = floor (mul rate lit_1_2).
Proof.
  intros Hrun [videoStream [Hreal Hsrc]].
  unfold run in Hrun. rewrite getCodecParams_run, Hreal in Hrun.
  cbv zeta in Hrun. unfold finish in Hrun. exists videoStream.
  assert (Hend : forall rate,
             isNonNeg rate = true ->
             floor (floor (mul rate lit_1_2)) = floor (mul rate lit_1_2)).
  { intros rate Hr. apply floor_idempotent, mul_nonneg; [exact Hr | reflexivity]. }
  destruct Hsrc as [Hparsed | [Hnan [stats [duration [Hstat [Hdur [Hsize Hpos]]]]]]].
  - assert (Hnan : isNaN (parseInt10 (bit_rate videoStream)) = false)
      by (destruct (parseInt10 (bit_rate videoStream)) as [| | |];
          try reflexivity; discriminate Hparsed).
    rewrite Hnan in Hrun. exists (parseInt10 (bit_rate videoStream)).
    destruct (codec_name videoStream); [| discriminate Hrun].
    injection Hrun as <-. cbn [videoBitrate].
    split; [exact Hreal |]. split; [left; reflexivity |].
    split; [exact Hparsed | apply Hend, Hparsed].
  - rewrite Hnan, Hstat, Hdur in Hrun. exists (estimateBitrate stats duration).
    destruct (codec_name videoStream); [| discriminate Hrun].
    injection Hrun as <-. cbn [videoBitrate].
    assert (Hrate : isNonNeg (estimateBitrate stats duration) = true).
    { unfold estimateBitrate. apply div_nonneg; [| exact Hpos].
      apply mul_nonneg; [exact Hsize | reflexivity]. }
    split; [exact Hreal |]. split; [right; exists stats, duration; auto |].
    split; [exact Hrate | apply Hend, Hrate].
Qed.

End OneRun.

End CodecParameterDeriverRuns.

Section TimebaseAndBitrateText.

Variable IOFailure : Type.
Variable stat : string -> IOFailure + Stats.
Variable getRealVideoStreams : list FFprobeStream -> list FFprobeStream.
Variable path : string.
Variable fileDuration : option number.
Variable streams : list FFprobeStream.

(** X18: what [getVideoTimebase] answers never decides whether the call
    succeeds: with any two time-base parsers the two runs throw the same
    value or both return, with the same stream, codec and bit rate and
    each with its own time base; their effects differ in warnings only. *)
Theorem timebase_never_decides_the_outcome
  (Timebase1 Timebase2 : Type)
  (getVideoTimebase1 : FFprobeStream -> option Timebase1)
  (getVideoTimebase2 : FFprobeStream -> option Timebase2) :
  let run1 := getCodecParams IOFailure stat getRealVideoStreams
                Timebase1 getVideoTimebase1 path fileDuration streams in
  let run2 := getCodecParams IOFailure stat getRealVideoStreams
                Timebase2 getVideoTimebase2 path fileDuration streams in
  match outcome run1, outcome run2 with
  | Return p1, Return p2 =>
      videoStream p1 = videoStream p2
      /\ videoCodec p1 = videoCodec p2
      /\ videoBitrate p1 = videoBitrate p2
      /\ videoTimebase p1 = getVideoTimebase1 (videoStream p1)
      /\ videoTimebase p2 = getVideoTimebase2 (videoStream p2)
  | Throw e1, Throw e2 => e1 = e2
  | _, _ => False
  end
  /\ filter (fun ev => negb (isConsoleWarn ev)) (effects run1)
     = filter (fun ev => negb (isConsoleWarn ev)) (effects run2).
Proof.
  cbv zeta. rewrite !getCodecParams_run.
  destruct (getRealVideoStreams streams) as [| vs [| other rest]];
    [split; reflexivity | | split; reflexivity].
  cbv zeta.
  destruct (isNaN (parseInt10 (bit_rate vs)));
    [destruct (stat path) as [cause | stats];
     [| destruct fileDuration as [duration |]] |];
    try (split; reflexivity);
    destruct (codec_name vs); try (split; reflexivity);
    (split;
     [unfold outcome; cbn [snd videoStream videoCodec videoBitrate videoTimebase];
      repeat split; reflexivity
     | destruct (getVideoTimebase1 vs); destruct (getVideoTimebase2 vs);
       reflexivity]).
Qed.

(** X19: when the reported bit rate starts with a decimal digit it parses:
    the file is not stat'd, the call returns if and only if the stream has
    a codec identifier, whatever the duration, and the returned
    [videoBitrate] is a non-negative integer or [+Infinity]. *)
Theorem bitrate_with_leading_digit
  (Timebase : Type) (getVideoTimebase : FFprobeStream -> option Timebase)
  (videoStream : FFprobeStream) (c : ascii) (rest : string) (d : Z) :
  getRealVideoStreams streams = [videoStream] ->
  bit_rate videoStream = Some (String c rest) ->
  digitValue c = Some d ->
  let run := getCodecParams IOFailure stat getRealVideoStreams
               Timebase getVideoTimebase path fileDuration streams in
  filter isStatFile (effects run) = []
  /\ (returns (outcome run) <-> codec_name videoStream <> None)
  /\ (forall params,
         outcome run = Return params ->
         isNonNegIntegerOrInfinity (videoBitrate params)).
Proof.
  intros Hreal Hrate Hd. cbv zeta.
  pose proof (parseInt10_leading_digit c rest d Hd) as Hpos.
  rewrite <- Hrate in Hpos.
  assert (Hnan : isNaN (parseInt10 (bit_rate videoStream)) = false)
    by (destruct (parseInt10 (bit_rate videoStream)) as [| | |];
        try reflexivity; discriminate Hpos).
  rewrite getCodecParams_run, Hreal. cbv zeta. rewrite Hnan.
  unfold returns.
  destruct (codec_name videoStream) as [codec |].
  - destruct (getVideoTimebase videoStream); (split; [reflexivity |]); split;
      try (split; [intros _; discriminate | intros _; eexists; reflexivity]);
      intros params E; injection E as <-;
      exact (margin_nonneg_integer _ Hpos).
  - split; [reflexivity |]. split.
    + split; [intros [p E]; discriminate E | intros H; destruct (H eq_refl)].
    + intros params E. discriminate E.
Qed.

End TimebaseAndBitrateText.

(* ================================================================== *)
(** * The further properties on the sample file *)
(* ================================================================== *)

Lemma model_exactTime_member :
  ReturnsKeyframeOfWindow Collaborators.findKeyframeAtExactTime.
Proof.
  intros keyframes t kf E.
  pose proof (model_ExactTimeContract keyframes t) as H.
  rewrite E in H. apply H.
Qed.

Lemma model_nextKeyframe_member :
  ReturnsKeyframeOfWindow Collaborators.findNextKeyframe.
Proof.
  intros keyframes t kf E.
  pose proof (model_NextKeyframeContract keyframes t) as H.
  rewrite E in H. apply H.
Qed.

(** A cut at 55 s in the sample file lands on the keyframe at 100 s, which
    the widened query reported. *)
Lemma cut_point_is_a_reported_keyframe_witness :
  exists w keyframes kf,
    (w = 10 \/ w = 60)
    /\ Sample.readKeyframesAroundTime "a.mp4" (ofZ 0) (ofZ 55) (ofZ w)
       = inr keyframes
    /\ In kf keyframes
    /\ ofZ 100 = time kf.
Proof.
  apply (cut_point_is_a_reported_keyframe
           string Sample.readKeyframesAroundTime
           Collaborators.findKeyframeAtExactTime
           Collaborators.findNextKeyframe Collaborators.i18n_t
           "a.mp4" (ofZ 55) (ofZ 0)
           model_exactTime_member model_nextKeyframe_member
           {| losslessCutFrom := ofZ 100; segmentNeedsSmartCut := true |}).
  vm_compute. reflexivity.
Defined.

Lemma returns_iff_some_window_has_a_keyframe_witness :
  returns (outcome (Sample.needsSmartCut "a.mp4" (ofZ 55) (ofZ 0)))
  <-> exists keyframes,
        Sample.readKeyframesAroundTime "a.mp4" (ofZ 0) (ofZ 55) (ofZ 10)
        = inr keyframes
        /\ (hasKeyframeAt keyframes (ofZ 55)
            \/ hasKeyframeAtOrAfter keyframes (ofZ 55)
            \/ exists widened,
                 Sample.readKeyframesAroundTime "a.mp4" (ofZ 0) (ofZ 55) (ofZ 60)
                 = inr widened
                 /\ hasKeyframeAtOrAfter widened (ofZ 55)).
Proof.
  exact (proj1 (returns_iff_some_window_has_a_keyframe
                  string Sample.readKeyframesAroundTime
                  Collaborators.findKeyframeAtExactTime
                  Collaborators.findNextKeyframe Collaborators.i18n_t
                  "a.mp4" (ofZ 55) (ofZ 0)
                  model_ExactTimeContract model_NextKeyframeContract)).
Defined.

(** Two video streams in the sample file. *)
Lemma wrong_stream_count_fails_without_effects_witness :
  effects (Sample.getCodecParams "a.mp4" (Some (ofZ 100))
             [Sample.video (Some "h264") None; Sample.video (Some "hevc") None])
  = []
  /\ isInternalError
       (outcome (Sample.getCodecParams "a.mp4" (Some (ofZ 100))
                   [Sample.video (Some "h264") None;
                    Sample.video (Some "hevc") None])).
Proof.
  apply (wrong_stream_count_fails_without_effects
           string Collaborators.getRealVideoStreams (number * number)
           Sample.stat Collaborators.getVideoTimebase "a.mp4" (Some (ofZ 100))
           [Sample.video (Some "h264") None; Sample.video (Some "hevc") None]).
  vm_compute. discriminate.
Defined.

(** A reported bit rate of 5,000,000: the missing file and the absent
    duration change nothing. *)
Lemma parsed_bitrate_ignores_file_and_duration_witness :
  Sample.getCodecParams "a.mp4" (Some (ofZ 100))
    [Sample.video (Some "h264") (Some "5000000")]
  = Sample.getCodecParams "missing.mp4" None
      [Sample.video (Some "h264") (Some "5000000")].
Proof.
  apply (parsed_bitrate_ignores_file_and_duration
           string Collaborators.getRealVideoStreams (number * number)
           Sample.stat Collaborators.getVideoTimebase "a.mp4" (Some (ofZ 100))
           [Sample.video (Some "h264") (Some "5000000")]
           (Sample.video (Some "h264") (Some "5000000"))
           Sample.stat "missing.mp4" None);
    reflexivity.
Defined.

Lemma bitrate_is_floor_of_margin_witness :
  exists videoStream rate,
    Collaborators.getRealVideoStreams
      [Sample.video (Some "h264") (Some "5000000")] = [videoStream]
    /\ (rate = parseInt10 (bit_rate videoStream)
        \/ exists stats duration,
             Sample.stat "a.mp4" = inr stats /\ Some (ofZ 100) = Some duration
             /\ rate = estimateBitrate stats duration)
    /\ isNonNeg rate = true
    /\ ofZ 6000000 = floor (mul rate lit_1_2).
Proof.
  apply (bitrate_is_floor_of_margin
           string Collaborators.getRealVideoStreams (number * number)
           Sample.stat Collaborators.getVideoTimebase "a.mp4" (Some (ofZ 100))
           [Sample.video (Some "h264") (Some "5000000")]
           (Build_CodecParams (number * number)
              (Sample.video (Some "h264") (Some "5000000")) (StringValue "h264")
              (ofZ 6000000) (Some (ofZ 1, ofZ 90000)))).
  - vm_compute. reflexivity.
  - exists (Sample.video (Some "h264") (Some "5000000")).
    split; [reflexivity |]. left. reflexivity.
Defined.

Lemma bitrate_with_leading_digit_witness :
  let run := Sample.getCodecParams "missing.mp4" None
               [Sample.video (Some "h264") (Some "128k")] in
  filter isStatFile (effects run) = []
  /\ (returns (outcome run) <-> Some "h264" <> None)
  /\ (forall params,
         outcome run = Return params ->
         isNonNegIntegerOrInfinity (videoBitrate params)).
Proof.
  apply (bitrate_with_leading_digit
           string Sample.stat Collaborators.getRealVideoStreams
           "missing.mp4" None [Sample.video (Some "h264") (Some "128k")]
           (number * number) Collaborators.getVideoTimebase
           (Sample.video (Some "h264") (Some "128k")) "1"%char "28k" 1);
    reflexivity.
Defined.

(* ================================================================== *)
(** * Integers in binary64: the operations that are exact *)
(* ================================================================== *)

Section ExactFloats.

(** ** Digits and shifts *)

Lemma digits2_pos_size (p : positive) : digits2_pos p = Pos.size p.
Proof. induction p; simpl; congruence. Qed.

Lemma digits2_bounds (p : positive) :
  2 ^ (Z.pos (digits2_pos p) - 1) <= Z.pos p < 2 ^ Z.pos (digits2_pos p).
Proof.
  rewrite digits2_pos_size. split.
  - pose proof (Pos.size_le p) as H.
    assert (E : Z.pos (2 ^ Pos.size p) = 2 ^ Z.pos (Pos.size p))
      by (rewrite Pos2Z.inj_pow; reflexivity).
    assert (H' : Z.pos (2 ^ Pos.size p) <= Z.pos p~0) by exact H.
    rewrite E in H'.
    replace (Z.pos (Pos.size p)) with (Z.pos (Pos.size p) - 1 + 1) in H' by lia.
    rewrite Z.pow_add_r in H' by lia. lia.
  - pose proof (Pos.size_gt p) as H.
    assert (E : Z.pos (2 ^ Pos.size p) = 2 ^ Z.pos (Pos.size p))
      by (rewrite Pos2Z.inj_pow; reflexivity).
    rewrite <- E. exact H.
Qed.

Lemma digits2_unique (p : positive) (d : Z) :
  2 ^ (d - 1) <= Z.pos p < 2 ^ d -> Z.pos (digits2_pos p) = d.
Proof.
  intros [Hlo Hhi]. pose proof (digits2_bounds p) as [Blo Bhi].
  set (d' := Z.pos (digits2_pos p)) in *.
  assert (Hd' : 0 < d') by (unfold d'; lia).
  destruct (Z.lt_trichotomy d d') as [Hlt | [Heq | Hgt]]; [| exact (eq_sym Heq) |].
  - assert (2 ^ d <= 2 ^ (d' - 1)).
    { destruct (Z.le_gt_cases 0 d).
      - apply Z.pow_le_mono_r; lia.
      - rewrite (Z.pow_neg_r 2 d) by lia. apply Z.pow_nonneg. lia. }
    lia.
  - assert (2 ^ d' <= 2 ^ (d - 1)) by (apply Z.pow_le_mono_r; lia). lia.
Qed.

Lemma digits2_shift (p q : positive) (k : Z) :
  0 <= k -> Z.pos q = Z.pos p * 2 ^ k ->
  Z.pos (digits2_pos q) = Z.pos (digits2_pos p) + k.
Proof.
  intros Hk E. apply digits2_unique. rewrite E.
  pose proof (digits2_bounds p) as [Blo Bhi].
  replace (Z.pos (digits2_pos p) + k - 1) with (Z.pos (digits2_pos p) - 1 + k) by lia.
  rewrite !Z.pow_add_r by lia.
  assert (0 < 2 ^ k) by (apply Z.pow_pos_nonneg; lia).
  split; nia.
Qed.

Lemma iter_xO_mul (p n : positive) :
  Z.pos (Pos.iter xO p n) = Z.pos p * 2 ^ Z.pos n.
Proof.
  induction n as [| n IH] using Pos.peano_ind.
  - simpl. lia.
  - rewrite Pos.iter_succ. rewrite Pos2Z.inj_succ, Z.pow_succ_r by lia.
    rewrite Pos2Z.inj_xO, IH. lia.
Qed.

(** Shifting an exact record right by [n] bits that are all zero. *)
Lemma iter_shr_1_exact (n : positive) :
  forall q, 0 <= q ->
            iter_pos shr_1 n {| shr_m := q * 2 ^ Z.pos n; shr_r := false; shr_s := false |}
            = {| shr_m := q; shr_r := false; shr_s := false |}.
Proof.
  assert (H1 : forall q, 0 <= q ->
                         shr_1 {| shr_m := q * 2; shr_r := false; shr_s := false |}
                         = {| shr_m := q; shr_r := false; shr_s := false |}).
  { intros [| q | q] Hq; [reflexivity | | lia].
    replace (Z.pos q * 2) with (Z.pos q~0) by lia. reflexivity. }
  induction n as [n IH | n IH |]; intros q Hq.
  - cbn [iter_pos].
    replace (q * 2 ^ Z.pos n~1) with ((q * 2 ^ Z.pos n * 2 ^ Z.pos n) * 2).
    + rewrite H1 by (apply Z.mul_nonneg_nonneg; [apply Z.mul_nonneg_nonneg |];
                     try lia; apply Z.pow_nonneg; lia).
      rewrite IH by (apply Z.mul_nonneg_nonneg; [lia | apply Z.pow_nonneg; lia]).
      apply IH, Hq.
    + replace (Z.pos n~1) with (Z.pos n + Z.pos n + 1) by lia.
      rewrite !Z.pow_add_r by lia. rewrite Z.pow_1_r. ring.
  - cbn [iter_pos].
    replace (q * 2 ^ Z.pos n~0) with ((q * 2 ^ Z.pos n) * 2 ^ Z.pos n).
    + rewrite IH by (apply Z.mul_nonneg_nonneg; [lia | apply Z.pow_nonneg; lia]).
      apply IH, Hq.
    + replace (Z.pos n~0) with (Z.pos n + Z.pos n) by lia.
      rewrite Z.pow_add_r by lia. ring.
  - cbn [iter_pos]. rewrite Z.pow_1_r. apply H1, Hq.
Qed.

(** ** Rounding that is exact *)

Lemma fexp_normal (x : Z) : -1021 <= x -> fexp prec emax x = x - 53.
Proof. intros H. unfold fexp, emin, prec, emax. lia. Qed.

(** A mantissa of 53 digits followed by [n] zero bits rounds to itself. *)
Lemma binary_round_aux_exact (s : bool) (m q : positive) (n e : Z) :
  Z.pos (digits2_pos m) = 53 -> 0 <= n ->
  Z.pos q = Z.pos m * 2 ^ n ->
  -1074 <= e + n <= 971 ->
  binary_round_aux prec emax s (Z.pos q) e loc_Exact = S754_finite s m (e + n).
Proof.
  intros Hm Hn Hq He.
  pose proof (digits2_shift m q n Hn Hq) as Hdq.
  unfold binary_round_aux, shr_fexp. cbn [Zdigits2 shr_record_of_loc].
  rewrite fexp_normal by lia.
  replace (Z.pos (digits2_pos q) + e - 53 - e) with n by lia.
  assert (Hshr : shr {| shr_m := Z.pos q; shr_r := false; shr_s := false |} e n
                 = ({| shr_m := Z.pos m; shr_r := false; shr_s := false |}, e + n)).
  { unfold shr. destruct n as [| n | n]; [| | lia].
    - rewrite Z.pow_0_r, Z.mul_1_r in Hq. rewrite Hq, Z.add_0_r. reflexivity.
    - rewrite Hq. rewrite iter_shr_1_exact by lia. reflexivity. }
  rewrite Hshr. cbn [shr_m loc_of_shr_record round_nearest_even Zdigits2
                       shr_record_of_loc].
  rewrite fexp_normal by lia.
  replace (Z.pos (digits2_pos m) + (e + n) - 53 - (e + n)) with 0 by lia.
  cbn [shr shr_m].
  replace (e + n <=? emax - prec) with true
    by (symmetry; apply Z.leb_le; unfold emax, prec; lia).
  reflexivity.
Qed.

(** [binary_round] of [q * 2^k] at exponent [e], for [q] of at most 53
    digits: the canonical representation of the value. *)
Lemma binary_round_canonical (s : bool) (p q m : positive) (k e : Z) :
  0 <= k ->
  Z.pos p = Z.pos q * 2 ^ k ->
  Z.pos (digits2_pos q) <= 53 ->
  Z.pos m = Z.pos q * 2 ^ (53 - Z.pos (digits2_pos q)) ->
  -1074 <= e + k + Z.pos (digits2_pos q) - 53 <= 971 ->
  binary_round prec emax s p e
  = S754_finite s m (e + k + Z.pos (digits2_pos q) - 53).
Proof.
  intros Hk Hp Hdq Hm He.
  set (dq := Z.pos (digits2_pos q)) in *.
  pose proof (digits2_shift q p k Hk Hp) as Hdp. fold dq in Hdp.
  assert (Hdm : Z.pos (digits2_pos m) = 53).
  { rewrite (digits2_shift q m (53 - dq)); [fold dq; lia | lia | exact Hm]. }
  unfold binary_round. rewrite fexp_normal by lia.
  unfold shl_align.
  destruct (Z.pos (digits2_pos p) + e - 53 - e) as [| d | d] eqn:Hd.
  - (* already 53 digits *)
    assert (Hpm : p = m).
    { apply Pos2Z.inj. rewrite Hp, Hm. f_equal. f_equal. lia. }
    subst p.
    replace (e + k + dq - 53) with (e + 0) by lia.
    apply binary_round_aux_exact; try lia.
  - (* more than 53 digits: the low bits are zero *)
    replace (e + k + dq - 53) with (e + Z.pos d) by lia.
    apply binary_round_aux_exact; try lia.
    rewrite Hp, Hm. rewrite <- Z.mul_assoc, <- Z.pow_add_r by lia.
    f_equal. f_equal. lia.
  - (* fewer than 53 digits: shift left *)
    replace (e + k + dq - 53) with (Z.pos (digits2_pos p) + e - 53 + 0) by lia.
    apply binary_round_aux_exact; try lia.
    rewrite Z.pow_0_r, Z.mul_1_r, iter_xO_mul, Hp, Hm.
    rewrite <- Z.mul_assoc, <- Z.pow_add_r by lia.
    f_equal. f_equal. lia.
Qed.

End ExactFloats.

Section ExactIntegers.

Lemma canonicalMantissa_eq (q : positive) :
  Z.pos (digits2_pos q) <= 53 ->
  Z.pos (canonicalMantissa q) = Z.pos q * 2 ^ (53 - Z.pos (digits2_pos q)).
Proof.
  intros H. unfold canonicalMantissa. rewrite Z2Pos.id; [reflexivity |].
  apply Z.mul_pos_pos; [lia | apply Z.pow_pos_nonneg; lia].
Qed.

Lemma canonicalMantissa_digits (q : positive) :
  Z.pos (digits2_pos q) <= 53 ->
  Z.pos (digits2_pos (canonicalMantissa q)) = 53.
Proof.
  intros H.
  rewrite (digits2_shift q (canonicalMantissa q) (53 - Z.pos (digits2_pos q)));
    [lia | lia | apply canonicalMantissa_eq, H].
Qed.

(** Rounding [q * 2^k] at exponent [e] gives the canonical representation
    of [q] at exponent [e + k]. *)
Lemma binary_round_shift (s : bool) (p q : positive) (k e : Z) :
  0 <= k ->
  Z.pos p = Z.pos q * 2 ^ k ->
  Z.pos (digits2_pos q) <= 53 ->
  -1074 <= e + k + Z.pos (digits2_pos q) - 53 <= 971 ->
  binary_round prec emax s p e = canonical s q (e + k).
Proof.
  intros Hk Hp Hq He. unfold canonical.
  apply (binary_round_canonical s p q (canonicalMantissa q) k e); auto.
  apply canonicalMantissa_eq, Hq.
Qed.

Lemma digits_le_53 (q : positive) :
  Z.pos q < 2 ^ 53 -> Z.pos (digits2_pos q) <= 53.
Proof.
  intros H. pose proof (digits2_bounds q) as [Hlo _].
  destruct (Z.le_gt_cases (Z.pos (digits2_pos q)) 53) as [Hle | Hgt]; [exact Hle |].
  assert (2 ^ 53 <= 2 ^ (Z.pos (digits2_pos q) - 1))
    by (apply Z.pow_le_mono_r; lia).
  lia.
Qed.

(** The Number value of a non-zero integer below 2^53 in magnitude. *)
Lemma ofZ_pos (q : positive) :
  Z.pos q < 2 ^ 53 -> ofZ (Z.pos q) = canonical false q 0.
Proof.
  intros H. unfold ofZ, binary_normalize.
  pose proof (digits_le_53 q H) as Hd. pose proof (digits2_bounds q) as Hb.
  replace 0 with (0 + 0) at 2 by lia.
  apply binary_round_shift; try lia. 
Qed.

Lemma ofZ_neg (q : positive) :
  Z.pos q < 2 ^ 53 -> ofZ (Z.neg q) = canonical true q 0.
Proof.
  intros H. unfold ofZ, binary_normalize.
  pose proof (digits_le_53 q H) as Hd.
  replace 0 with (0 + 0) at 2 by lia.
  apply binary_round_shift; try lia.
Qed.

(** The value [z * 2^k] at exponent [-k] normalizes to the Number value of
    [z]. *)
Lemma binary_normalize_shift (z k : Z) :
  Z.abs z < 2 ^ 53 -> 0 <= k <= 1000 ->
  binary_normalize prec emax (z * 2 ^ k) (- k) false = ofZ z.
Proof.
  intros Hz Hk.
  assert (Hpow : 0 < 2 ^ k) by (apply Z.pow_pos_nonneg; lia).
  destruct z as [| q | q].
  - reflexivity.
  - rewrite ofZ_pos by lia.
    destruct (Z.pos q * 2 ^ k) as [| p | p] eqn:Hp; try lia.
    unfold binary_normalize.
    replace 0 with (- k + k) by lia.
    pose proof (digits_le_53 q) as Hd.
    apply binary_round_shift; try lia.
  - rewrite ofZ_neg by lia.
    destruct (Z.neg q * 2 ^ k) as [| p | p] eqn:Hp; try lia.
    unfold binary_normalize.
    replace 0 with (- k + k) by lia.
    pose proof (digits_le_53 q) as Hd.
    apply binary_round_shift; try lia.
Qed.

Lemma shl_align_value (m : positive) (e ez : Z) :
  ez <= e -> Z.pos (fst (shl_align m e ez)) = Z.pos m * 2 ^ (e - ez).
Proof.
  intros H. unfold shl_align.
  destruct (ez - e) as [| d | d] eqn:Hd; cbn [fst].
  - replace (e - ez) with 0 by lia. rewrite Z.pow_0_r. lia.
  - lia.
  - rewrite iter_xO_mul. f_equal. f_equal. lia.
Qed.

(** The aligned, signed mantissa of a canonical integer is the integer
    scaled by the common exponent. *)
Lemma aligned_canonical (s : bool) (q : positive) (ez : Z) :
  Z.pos q < 2 ^ 53 -> ez <= Z.pos (digits2_pos q) - 53 -> 
  cond_Zopp s (Z.pos (fst (shl_align (canonicalMantissa q)
                                      (0 + Z.pos (digits2_pos q) - 53) ez)))
  = cond_Zopp s (Z.pos q) * 2 ^ (- ez).
Proof.
  intros Hq Hez. pose proof (digits_le_53 q Hq) as Hd.
  rewrite shl_align_value by lia. rewrite canonicalMantissa_eq by exact Hd.
  rewrite <- Z.mul_assoc, <- Z.pow_add_r by lia.
  replace (53 - Z.pos (digits2_pos q) + (0 + Z.pos (digits2_pos q) - 53 - ez))
    with (- ez) by lia.
  destruct s; cbn [cond_Zopp]; lia.
Qed.

Lemma ofZ_signed (s : bool) (q : positive) :
  Z.pos q < 2 ^ 53 -> ofZ (cond_Zopp s (Z.pos q)) = canonical s q 0.
Proof.
  intros H. destruct s; cbn [cond_Zopp Z.opp]; [apply ofZ_neg | apply ofZ_pos];
    exact H.
Qed.

Lemma SFadd_canonical (sa sb : bool) (qa qb : positive) :
  Z.pos qa < 2 ^ 53 -> Z.pos qb < 2 ^ 53 ->
  Z.abs (cond_Zopp sa (Z.pos qa) + cond_Zopp sb (Z.pos qb)) < 2 ^ 53 ->
  SFadd prec emax (canonical sa qa 0) (canonical sb qb 0)
  = ofZ (cond_Zopp sa (Z.pos qa) + cond_Zopp sb (Z.pos qb)).
Proof.
  intros Ha Hb Hab. unfold canonical. cbn [SFadd].
  pose proof (digits_le_53 qa Ha) as Hda. pose proof (digits_le_53 qb Hb) as Hdb.
  set (ea := 0 + Z.pos (digits2_pos qa) - 53).
  set (eb := 0 + Z.pos (digits2_pos qb) - 53).
  set (ez := Z.min ea eb).
  unfold ea at 1, eb at 1.
  rewrite !aligned_canonical by (try assumption; unfold ez, ea, eb; lia).
  rewrite <- Z.mul_add_distr_r.
  rewrite <- (binary_normalize_shift _ (- ez)) by (unfold ez, ea, eb; lia).
  rewrite Z.opp_involutive. reflexivity.
Qed.

Lemma SFsub_canonical (sa sb : bool) (qa qb : positive) :
  Z.pos qa < 2 ^ 53 -> Z.pos qb < 2 ^ 53 ->
  Z.abs (cond_Zopp sa (Z.pos qa) - cond_Zopp sb (Z.pos qb)) < 2 ^ 53 ->
  SFsub prec emax (canonical sa qa 0) (canonical sb qb 0)
  = ofZ (cond_Zopp sa (Z.pos qa) - cond_Zopp sb (Z.pos qb)).
Proof.
  intros Ha Hb Hab. unfold canonical. cbn [SFsub].
  pose proof (digits_le_53 qa Ha) as Hda. pose proof (digits_le_53 qb Hb) as Hdb.
  set (ea := 0 + Z.pos (digits2_pos qa) - 53).
  set (eb := 0 + Z.pos (digits2_pos qb) - 53).
  set (ez := Z.min ea eb).
  unfold ea at 1, eb at 1.
  rewrite !aligned_canonical by (try assumption; unfold ez, ea, eb; lia).
  rewrite <- Z.mul_sub_distr_r.
  rewrite <- (binary_normalize_shift _ (- ez)) by (unfold ez, ea, eb; lia).
  rewrite Z.opp_involutive. reflexivity.
Qed.

(** Every integer is zero or a signed positive. *)
Lemma Z_signed_cases (z : Z) :
  z = 0 \/ exists s q, z = cond_Zopp s (Z.pos q) /\ Z.pos q = Z.abs z.
Proof.
  destruct z as [| q | q]; [left; reflexivity | right | right].
  - exists false, q. split; reflexivity.
  - exists true, q. split; reflexivity.
Qed.

(** Addition and subtraction of integers are exact below 2^53. *)
Lemma add_ofZ (a b : Z) :
  Z.abs a < 2 ^ 53 -> Z.abs b < 2 ^ 53 -> Z.abs (a + b) < 2 ^ 53 ->
  SFadd prec emax (ofZ a) (ofZ b) = ofZ (a + b).
Proof.
  intros Ha Hb Hab.
  destruct (Z_signed_cases a) as [-> | [sa [qa [-> Eqa]]]];
    destruct (Z_signed_cases b) as [-> | [sb [qb [-> Eqb]]]].
  - reflexivity.
  - rewrite Z.add_0_l. rewrite ofZ_signed by lia. reflexivity.
  - rewrite Z.add_0_r. rewrite ofZ_signed by lia. reflexivity.
  - rewrite (ofZ_signed sa), (ofZ_signed sb) by lia.
    apply SFadd_canonical; lia.
Qed.

Lemma sub_ofZ (a b : Z) :
  Z.abs a < 2 ^ 53 -> Z.abs b < 2 ^ 53 -> Z.abs (a - b) < 2 ^ 53 ->
  SFsub prec emax (ofZ a) (ofZ b) = ofZ (a - b).
Proof.
  intros Ha Hb Hab.
  destruct (Z_signed_cases a) as [-> | [sa [qa [-> Eqa]]]];
    destruct (Z_signed_cases b) as [-> | [sb [qb [-> Eqb]]]].
  - reflexivity.
  - rewrite Z.sub_0_l. rewrite (ofZ_signed sb) by lia.
    replace (- cond_Zopp sb (Z.pos qb)) with (cond_Zopp (negb sb) (Z.pos qb))
      by (destruct sb; reflexivity).
    rewrite ofZ_signed by lia. reflexivity.
  - rewrite Z.sub_0_r. rewrite ofZ_signed by lia. reflexivity.
  - rewrite (ofZ_signed sa), (ofZ_signed sb) by lia.
    apply SFsub_canonical; lia.
Qed.

(** ** Comparison *)

Lemma compare_magnitudes (qa qb : positive) :
  Z.pos qa < 2 ^ 53 -> Z.pos qb < 2 ^ 53 ->
  match (0 + Z.pos (digits2_pos qa) - 53) ?= (0 + Z.pos (digits2_pos qb) - 53) with
  | Lt => Lt
  | Gt => Gt
  | Eq => Pos.compare_cont Eq (canonicalMantissa qa) (canonicalMantissa qb)
  end = (Z.pos qa ?= Z.pos qb).
Proof.
  intros Ha Hb.
  pose proof (digits_le_53 qa Ha) as Hda. pose proof (digits_le_53 qb Hb) as Hdb.
  pose proof (digits2_bounds qa) as [Alo Ahi].
  pose proof (digits2_bounds qb) as [Blo Bhi].
  set (da := Z.pos (digits2_pos qa)) in *. set (db := Z.pos (digits2_pos qb)) in *.
  assert (Hda0 : 0 < da) by (unfold da; lia).
  assert (Hdb0 : 0 < db) by (unfold db; lia).
  destruct (Z.compare_spec (0 + da - 53) (0 + db - 53)) as [E | L | G].
  - change (Pos.compare_cont Eq (canonicalMantissa qa) (canonicalMantissa qb))
      with (Pos.compare (canonicalMantissa qa) (canonicalMantissa qb)).
    change (Pos.compare (canonicalMantissa qa) (canonicalMantissa qb))
      with (Z.pos (canonicalMantissa qa) ?= Z.pos (canonicalMantissa qb)).
    rewrite !canonicalMantissa_eq by assumption. fold da db.
    replace db with da by lia.
    assert (Hp : 0 < 2 ^ (53 - da)) by (apply Z.pow_pos_nonneg; lia).
    destruct (Z.compare_spec (Z.pos qa) (Z.pos qb)) as [E' | L' | G'].
    + rewrite E'. apply Z.compare_refl.
    + apply Z.compare_lt_iff. nia.
    + apply Z.compare_gt_iff. nia.
  - symmetry. apply Z.compare_lt_iff.
    assert (2 ^ da <= 2 ^ (db - 1)) by (apply Z.pow_le_mono_r; lia). lia.
  - symmetry. apply Z.compare_gt_iff.
    assert (2 ^ db <= 2 ^ (da - 1)) by (apply Z.pow_le_mono_r; lia). lia.
Qed.

Lemma compare_ofZ (a b : Z) :
  Z.abs a < 2 ^ 53 -> Z.abs b < 2 ^ 53 ->
  SFcompare (ofZ a) (ofZ b) = Some (a ?= b).
Proof.
  intros Ha Hb.
  destruct a as [| qa | qa]; destruct b as [| qb | qb];
    try rewrite (ofZ_pos qa) by lia; try rewrite (ofZ_neg qa) by lia;
    try rewrite (ofZ_pos qb) by lia; try rewrite (ofZ_neg qb) by lia;
    try reflexivity.
  - unfold canonical. cbn [SFcompare]. f_equal. apply compare_magnitudes; lia.
  - unfold canonical. cbn [SFcompare]. f_equal.
    change (Z.neg qa ?= Z.neg qb) with (CompOpp (Z.pos qa ?= Z.pos qb)).
    rewrite <- (compare_magnitudes qa qb) by lia.
    destruct (0 + Z.pos (digits2_pos qa) - 53 ?= 0 + Z.pos (digits2_pos qb) - 53);
      reflexivity.
Qed.

Lemma ltb_ofZ (a b : Z) :
  Z.abs a < 2 ^ 53 -> Z.abs b < 2 ^ 53 ->
  SFltb (ofZ a) (ofZ b) = (a <? b).
Proof.
  intros Ha Hb. unfold SFltb. rewrite compare_ofZ by assumption.
  unfold Z.ltb. destruct (a ?= b); reflexivity.
Qed.

End ExactIntegers.

Section EnsureEvenFacts.

Lemma ofZ_2 : ofZ 2 = S754_finite false 4503599627370496 (-51).
Proof. vm_compute. reflexivity. Qed.

Lemma div2_canonical (s : bool) (q : positive) :
  Z.pos q < 2 ^ 53 ->
  div (canonical s q 0) (ofZ 2) = canonical s q (-1).
Proof.
  intros Hq. pose proof (digits_le_53 q Hq) as Hd.
  pose proof (canonicalMantissa_digits q Hd) as Hm.
  pose proof (digits2_bounds q) as Hb.
  rewrite ofZ_2. unfold canonical, div. cbn [SFdiv].
  unfold SFdiv_core_binary. cbn [Zdigits2]. rewrite Hm.
  change (Z.pos (digits2_pos 4503599627370496)) with 53.
  set (e := 0 + Z.pos (digits2_pos q) - 53).
  assert (He : -52 <= e <= 0) by (unfold e; lia).
  rewrite fexp_normal by lia.
  replace (Z.min (53 + e - (53 + -51) - 53) (e - -51)) with (e - 2) by lia.
  replace (e - -51 - (e - 2)) with 53 by lia.
  set (A := IntDef.Z.shiftl (Z.pos (canonicalMantissa q)) 53).
  assert (HA : A = (2 * Z.pos (canonicalMantissa q)) * 4503599627370496).
  { unfold A. change (IntDef.Z.shiftl ?a ?b) with (Z.shiftl a b).
    rewrite Z.shiftl_mul_pow2 by lia. change (2 ^ 53) with (2 * 4503599627370496).
    ring. }
  change (IntDef.Z.div_eucl A 4503599627370496)
    with (Z.div_eucl A 4503599627370496).
  destruct (Z.div_eucl A 4503599627370496) as [q0 r] eqn:E.
  assert (Hq0 : q0 = 2 * Z.pos (canonicalMantissa q)).
  { change q0 with (fst (q0, r)). rewrite <- E.
    change (fst (Z.div_eucl A 4503599627370496)) with (A / 4503599627370496).
    rewrite HA. apply Z.div_mul. discriminate. }
  assert (Hr : r = 0).
  { change r with (snd (q0, r)). rewrite <- E.
    change (snd (Z.div_eucl A 4503599627370496)) with (A mod 4503599627370496).
    rewrite HA. apply Z.mod_mul. discriminate. }
  subst q0 r. cbn [xorb].
  replace (xorb s false) with s by (destruct s; reflexivity).
  change (new_location 4503599627370496 0) with loc_Exact.
  replace (-1 + Z.pos (digits2_pos q) - 53) with (e - 2 + 1) by (unfold e; lia).
  apply (binary_round_aux_exact s (canonicalMantissa q)
           (canonicalMantissa q)~0 1 (e - 2)); try lia.
Qed.

Lemma double_ofZ (h : Z) :
  Z.abs h < 2 ^ 53 -> mul (ofZ h) (ofZ 2) = ofZ (2 * h).
Proof.
  intros Hh. destruct (Z_signed_cases h) as [-> | [s [q [-> Eq]]]];
    [reflexivity |].
  assert (Hq : Z.pos q < 2 ^ 53) by lia.
  pose proof (digits_le_53 q Hq) as Hd.
  pose proof (canonicalMantissa_digits q Hd) as Hm.
  pose proof (digits2_bounds q) as Hb.
  rewrite ofZ_signed by exact Hq.
  replace (2 * cond_Zopp s (Z.pos q)) with (cond_Zopp s (Z.pos q~0))
    by (destruct s; cbn [cond_Zopp]; lia).
  assert (Hdouble : ofZ (cond_Zopp s (Z.pos q~0)) = canonical s q 1).
  { unfold ofZ. destruct s; cbn [cond_Zopp Z.opp binary_normalize];
      (replace 1 with (0 + 1) by lia);
      apply binary_round_shift; lia. }
  rewrite Hdouble, ofZ_2. unfold canonical, mul. cbn [SFmul].
  replace (xorb s false) with s by (destruct s; reflexivity).
  set (e := 0 + Z.pos (digits2_pos q) - 53).
  replace (1 + Z.pos (digits2_pos q) - 53) with (e + -51 + 52) by (unfold e; lia).
  apply (binary_round_aux_exact s (canonicalMantissa q)); unfold e; lia.
Qed.

Lemma digits_half (q h : positive) :
  Z.pos h = Z.pos q / 2 ->
  Z.pos (digits2_pos h) = Z.pos (digits2_pos q) - 1.
Proof.
  intros Hh. apply digits2_unique. rewrite Hh.
  pose proof (digits2_bounds q) as [Hlo Hhi].
  set (d := Z.pos (digits2_pos q)) in *.
  assert (Hd : 2 <= d).
  { destruct (Z.le_gt_cases 2 d) as [H | H]; [exact H |].
    assert (d = 1) by (unfold d in *; lia).
    assert (Z.pos q < 2 ^ 1) by (replace 1 with d by lia; exact Hhi).
    assert (Z.pos q / 2 = 0) by (apply Z.div_small; lia). lia. }
  replace (2 ^ d) with (2 * 2 ^ (d - 1)) in Hhi
    by (rewrite <- Z.pow_succ_r by lia; f_equal; lia).
  replace (2 ^ (d - 1)) with (2 * 2 ^ (d - 1 - 1)) in Hlo
    by (rewrite <- Z.pow_succ_r by lia; f_equal; lia).
  split.
  - apply Z.div_le_lower_bound; lia.
  - apply Z.div_lt_upper_bound; lia.
Qed.

(** The floor of half an integer is the quotient of the floored division. *)
Lemma floor_half_ofZ (a : Z) :
  Z.abs a < 2 ^ 53 -> floor (div (ofZ a) (ofZ 2)) = ofZ (a / 2).
Proof.
  intros Ha. destruct (Z_signed_cases a) as [-> | [s [q [-> Eq]]]];
    [reflexivity |].
  assert (Hq : Z.pos q < 2 ^ 53) by lia.
  pose proof (digits_le_53 q Hq) as Hd.
  pose proof (digits2_bounds q) as Hb.
  rewrite ofZ_signed by exact Hq. rewrite div2_canonical by exact Hq.
  unfold canonical.
  set (d := Z.pos (digits2_pos q)) in *.
  assert (Hd1 : 1 <= d) by (unfold d; lia).
  set (k := 54 - d).
  assert (Hpk : 0 < 2 ^ (53 - d)) by (apply Z.pow_pos_nonneg; lia).
  assert (H2k : 2 ^ k = 2 * 2 ^ (53 - d)).
  { unfold k. replace (54 - d) with (Z.succ (53 - d)) by lia.
    apply Z.pow_succ_r. lia. }
  assert (Hshr : Z.shiftr (Z.pos (canonicalMantissa q)) k = Z.pos q / 2).
  { rewrite Z.shiftr_div_pow2 by (unfold k; lia).
    rewrite canonicalMantissa_eq by exact Hd. fold d. rewrite H2k.
    rewrite Z.div_mul_cancel_r by lia. reflexivity. }
  assert (Hland : Z.land (Z.pos (canonicalMantissa q)) (Z.ones k)
                  = (Z.pos q mod 2) * 2 ^ (53 - d)).
  { rewrite Z.land_ones by (unfold k; lia).
    rewrite canonicalMantissa_eq by exact Hd. fold d. rewrite H2k.
    apply Z.mul_mod_distr_r; lia. }
  unfold floor.
  replace (0 <=? -1 + d - 53) with false by (symmetry; apply Z.leb_gt; lia).
  replace (- (-1 + d - 53)) with k by (unfold k; lia).
  rewrite Hshr, Hland.
  (* the canonical representation of a positive quotient *)
  assert (Hquot : forall h s',
             Z.pos h = Z.pos q / 2 ->
             forall m', Z.pos m' = Z.pos h * 2 ^ k ->
             S754_finite s' m' (-1 + d - 53) = ofZ (cond_Zopp s' (Z.pos h))).
  { intros h s' Hh m' Hm'.
    pose proof (digits_half q h Hh) as Hdh. fold d in Hdh.
    assert (Hh53 : Z.pos h < 2 ^ 53)
      by (rewrite Hh; apply Z.div_lt_upper_bound; lia).
    rewrite ofZ_signed by exact Hh53. unfold canonical.
    rewrite Hdh. f_equal; try lia.
    apply Pos2Z.inj. rewrite canonicalMantissa_eq by lia.
    rewrite Hm', Hdh. f_equal. f_equal. unfold k. lia. }
  destruct s; cbn [cond_Zopp].
  - (* negative *)
    destruct (Z.pos q mod 2 * 2 ^ (53 - d) =? 0) eqn:Hr.
    + apply Z.eqb_eq in Hr.
      assert (Hmod : Z.pos q mod 2 = 0) by nia.
      assert (Hdiv : Z.pos q = 2 * (Z.pos q / 2))
        by (pose proof (Z.div_mod (Z.pos q) 2); lia).
      destruct (Z.pos q / 2) as [| h | h] eqn:Hh; try lia.
      replace (- Z.pos q / 2) with (cond_Zopp true (Z.pos h)).
      * apply (Hquot h true eq_refl).
        rewrite canonicalMantissa_eq by exact Hd. fold d.
        rewrite H2k. lia.
      * cbn [cond_Zopp]. rewrite Hdiv at 1.
        replace (- (2 * Z.pos h)) with ((- Z.pos h) * 2) by lia.
        rewrite Z.div_mul by lia. reflexivity.
    + apply Z.eqb_neq in Hr. unfold ofZ. f_equal.
      assert (Hmod : Z.pos q mod 2 = 1).
      { pose proof (Z.mod_pos_bound (Z.pos q) 2). 
        destruct (Z.eq_dec (Z.pos q mod 2) 0) as [E | E]; [| lia].
        rewrite E in Hr. lia. }
      pose proof (Z.div_mod (Z.pos q) 2).
      assert (Hq2 : - Z.pos q = (- (Z.pos q / 2 + 1)) * 2 + 1) by lia.
      rewrite Hq2. rewrite Z.div_add_l by lia.
      change (1 / 2) with 0. lia.
  - (* positive *)
    destruct (Z.pos q / 2) as [| h | h] eqn:Hh.
    + rewrite Z.shiftl_0_l. reflexivity.
    + rewrite Z.shiftl_mul_pow2 by (unfold k; lia).
      destruct (Z.pos h * 2 ^ k) as [| m' | m'] eqn:Hm';
        try (assert (0 < 2 ^ k) by (apply Z.pow_pos_nonneg; unfold k; lia); lia).
      apply (Hquot h false eq_refl m'). symmetry. exact Hm'.
    + pose proof (Z.div_pos (Z.pos q) 2). lia.
Qed.

End EnsureEvenFacts.

Section UnitScaleFacts.

Import CropOverlay.

Lemma ofZ_1 : ofZ 1 = S754_finite false 4503599627370496 (-52).
Proof. vm_compute. reflexivity. Qed.

Lemma SFltb_irrefl (v : number) : SFltb v v = false.
Proof.
  unfold SFltb. destruct v as [[] | [] | | [] m ex]; try reflexivity;
    cbn [SFcompare]; rewrite Z.compare_refl;
    change (Pos.compare_cont Eq m m) with (Pos.compare m m);
    rewrite Pos.compare_refl; reflexivity.
Qed.

(** Multiplying and dividing an integer by 1 are exact. *)
Lemma mul_one_ofZ (a : Z) :
  Z.abs a < 2 ^ 53 -> mul (ofZ a) (ofZ 1) = ofZ a.
Proof.
  intros Ha. destruct (Z_signed_cases a) as [-> | [s [q [-> Eq]]]];
    [reflexivity |].
  assert (Hq : Z.pos q < 2 ^ 53) by lia.
  pose proof (digits_le_53 q Hq) as Hd.
  pose proof (canonicalMantissa_digits q Hd) as Hm.
  pose proof (digits2_bounds q) as Hb.
  rewrite ofZ_signed by exact Hq. rewrite ofZ_1.
  unfold canonical, mul. cbn [SFmul].
  replace (xorb s false) with s by (destruct s; reflexivity).
  set (e := 0 + Z.pos (digits2_pos q) - 53).
  replace e with (e + -52 + 52) at 2 by lia.
  apply (binary_round_aux_exact s (canonicalMantissa q)); unfold e; lia.
Qed.

Lemma div_one_ofZ (a : Z) :
  Z.abs a < 2 ^ 53 -> div (ofZ a) (ofZ 1) = ofZ a.
Proof.
  intros Ha. destruct (Z_signed_cases a) as [-> | [s [q [-> Eq]]]];
    [reflexivity |].
  assert (Hq : Z.pos q < 2 ^ 53) by lia.
  pose proof (digits_le_53 q Hq) as Hd.
  pose proof (canonicalMantissa_digits q Hd) as Hm.
  pose proof (digits2_bounds q) as Hb.
  rewrite ofZ_signed by exact Hq. rewrite ofZ_1.
  unfold canonical, div. cbn [SFdiv].
  unfold SFdiv_core_binary. cbn [Zdigits2]. rewrite Hm.
  change (Z.pos (digits2_pos 4503599627370496)) with 53.
  set (e := 0 + Z.pos (digits2_pos q) - 53).
  assert (He : -52 <= e <= 0) by (unfold e; lia).
  rewrite fexp_normal by lia.
  replace (Z.min (53 + e - (53 + -52) - 53) (e - -52)) with (e - 1) by lia.
  replace (e - -52 - (e - 1)) with 53 by lia.
  set (A := IntDef.Z.shiftl (Z.pos (canonicalMantissa q)) 53).
  assert (HA : A = (2 * Z.pos (canonicalMantissa q)) * 4503599627370496).
  { unfold A. change (IntDef.Z.shiftl ?a ?b) with (Z.shiftl a b).
    rewrite Z.shiftl_mul_pow2 by lia. change (2 ^ 53) with (2 * 4503599627370496).
    ring. }
  change (IntDef.Z.div_eucl A 4503599627370496)
    with (Z.div_eucl A 4503599627370496).
  destruct (Z.div_eucl A 4503599627370496) as [q0 r] eqn:E.
  assert (Hq0 : q0 = 2 * Z.pos (canonicalMantissa q)).
  { change q0 with (fst (q0, r)). rewrite <- E.
    change (fst (Z.div_eucl A 4503599627370496)) with (A / 4503599627370496).
    rewrite HA. apply Z.div_mul. discriminate. }
  assert (Hr : r = 0).
  { change r with (snd (q0, r)). rewrite <- E.
    change (snd (Z.div_eucl A 4503599627370496)) with (A mod 4503599627370496).
    rewrite HA. apply Z.mod_mul. discriminate. }
  subst q0 r.
  replace (xorb s false) with s by (destruct s; reflexivity).
  change (new_location 4503599627370496 0) with loc_Exact.
  replace e with (e - 1 + 1) at 2 by lia.
  apply (binary_round_aux_exact s (canonicalMantissa q)
           (canonicalMantissa q)~0 1 (e - 1)); try lia.
Qed.

(** A non-zero integer divided by itself is 1. *)
Lemma div_self_ofZ (a : Z) :
  a <> 0 -> Z.abs a < 2 ^ 53 -> div (ofZ a) (ofZ a) = ofZ 1.
Proof.
  intros Hne Ha. destruct (Z_signed_cases a) as [-> | [s [q [-> Eq]]]];
    [destruct Hne; reflexivity |].
  assert (Hq : Z.pos q < 2 ^ 53) by lia.
  pose proof (digits_le_53 q Hq) as Hd.
  pose proof (canonicalMantissa_digits q Hd) as Hm.
  pose proof (digits2_bounds q) as Hb.
  rewrite ofZ_signed by exact Hq. rewrite ofZ_1.
  unfold canonical, div. cbn [SFdiv].
  unfold SFdiv_core_binary. cbn [Zdigits2]. rewrite Hm.
  set (e := 0 + Z.pos (digits2_pos q) - 53).
  replace (53 + e - (53 + e)) with 0 by lia.
  replace (e - e) with 0 by lia.
  change (Z.min (fexp prec emax 0) 0) with (-53).
  change (0 - -53) with 53.
  set (m := canonicalMantissa q) in *.
  set (A := IntDef.Z.shiftl (Z.pos m) 53).
  assert (HA : A = 9007199254740992 * Z.pos m).
  { unfold A. change (IntDef.Z.shiftl ?a ?b) with (Z.shiftl a b).
    rewrite Z.shiftl_mul_pow2 by lia. change (2 ^ 53) with 9007199254740992.
    ring. }
  change (IntDef.Z.div_eucl A (Z.pos m)) with (Z.div_eucl A (Z.pos m)).
  destruct (Z.div_eucl A (Z.pos m)) as [q0 r] eqn:E.
  assert (Hq0 : q0 = 9007199254740992).
  { change q0 with (fst (q0, r)). rewrite <- E.
    change (fst (Z.div_eucl A (Z.pos m))) with (A / Z.pos m).
    rewrite HA. apply Z.div_mul. discriminate. }
  assert (Hr : r = 0).
  { change r with (snd (q0, r)). rewrite <- E.
    change (snd (Z.div_eucl A (Z.pos m))) with (A mod Z.pos m).
    rewrite HA. apply Z.mod_mul. discriminate. }
  subst q0 r.
  replace (xorb s s) with false by (destruct s; reflexivity).
  assert (Hloc : new_location (Z.pos m) 0 = loc_Exact).
  { unfold new_location. destruct (Z.even (Z.pos m)); reflexivity. }
  rewrite Hloc.
  change (-52) with (-53 + 1).
  apply (binary_round_aux_exact false 4503599627370496
           9007199254740992 1 (-53)); try lia; reflexivity.
Qed.

(** [Math.round] returns an integer as it is. *)
Lemma round_ofZ (a : Z) : Z.abs a < 2 ^ 53 -> round (ofZ a) = ofZ a.
Proof.
  intros Ha. destruct (Z_signed_cases a) as [-> | [s [q [-> Eq]]]];
    [reflexivity |].
  assert (Hq : Z.pos q < 2 ^ 53) by lia.
  pose proof (digits_le_53 q Hq) as Hd.
  pose proof (digits2_bounds q) as Hb.
  rewrite ofZ_signed by exact Hq. unfold canonical, round.
  set (d := Z.pos (digits2_pos q)) in *.
  destruct (0 <=? 0 + d - 53) eqn:He; [reflexivity |].
  apply Z.leb_gt in He.
  set (k := - (0 + d - 53)).
  assert (Hk : 0 < k) by (unfold k; lia).
  assert (Hpk : 0 < 2 ^ k) by (apply Z.pow_pos_nonneg; lia).
  assert (Hm : Z.pos (canonicalMantissa q) = Z.pos q * 2 ^ k).
  { rewrite canonicalMantissa_eq by exact Hd. fold d. f_equal. f_equal.
    unfold k. lia. }
  assert (Hshr : Z.shiftr (Z.pos (canonicalMantissa q)) k = Z.pos q).
  { rewrite Z.shiftr_div_pow2 by lia. rewrite Hm. apply Z.div_mul. lia. }
  assert (Hland : Z.land (Z.pos (canonicalMantissa q)) (Z.ones k) = 0).
  { rewrite Z.land_ones by lia. rewrite Hm. apply Z.mod_mul. lia. }
  rewrite Hshr, Hland.
  assert (Hhalf : 0 < 2 ^ (k - 1)) by (apply Z.pow_pos_nonneg; lia).
  replace (2 ^ (k - 1) <? 0) with false by (symmetry; apply Z.ltb_ge; lia).
  replace (2 ^ (k - 1) <=? 0) with false by (symmetry; apply Z.leb_gt; lia).
  destruct s; cbn [Z.eqb].
  - change (- Z.pos q) with (Z.neg q).
    rewrite ofZ_neg by exact Hq. reflexivity.
  - rewrite ofZ_pos by exact Hq. reflexivity.
Qed.

End UnitScaleFacts.

(* ================================================================== *)
(** * Properties of the CropOverlay geometry *)
(* ================================================================== *)

Section CropOverlayFacts.

Import CropOverlay.

(** [ensureEven] is exact on the integers below 2^53. *)
Lemma ensureEven_ofZ (a : Z) :
  Z.abs a < 2 ^ 53 -> ensureEven (ofZ a) = ofZ (2 * (a / 2)).
Proof.
  intros Ha. unfold ensureEven. rewrite floor_half_ofZ by exact Ha.
  apply double_ofZ.
  pose proof (Z.div_mod a 2). pose proof (Z.mod_pos_bound a 2). lia.
Qed.

(** On integer coordinates of magnitude at most 2^50 every step of
    [constrainRect] is exact: it computes [constrainZ]. *)
Lemma constrainRect_on_integers (handle : DragHandle)
  (videoWidth videoHeight rx ry rw rh : Z) :
  Z.abs videoWidth <= coordinateBound -> Z.abs videoHeight <= coordinateBound ->
  Z.abs rx <= coordinateBound -> Z.abs ry <= coordinateBound ->
  Z.abs rw <= coordinateBound -> Z.abs rh <= coordinateBound ->
  constrainRect handle (ofZ videoWidth) (ofZ videoHeight) (rectOfZ (rx, ry, rw, rh))
  = rectOfZ (constrainZ (isMove handle) videoWidth videoHeight (rx, ry, rw, rh)).
Proof.
  unfold coordinateBound. change (2 ^ 50) with 1125899906842624.
  intros HVW HVH Hx Hy Hw Hh.
  assert (P53 : 2 ^ 53 = 9007199254740992) by reflexivity.
  unfold constrainRect, constrainZ, rectOfZ. cbv zeta.
  unfold ltb, gtb, add, sub.
  cbn [x y width height].
  (* minimum size *)
  rewrite (ltb_ofZ rw 50) by (rewrite P53; lia).
  set (w1 := if rw <? 50 then 50 else rw).
  assert (Hw1 : 50 <= w1 <= 1125899906842624) by (unfold w1; destruct (Z.ltb_spec rw 50); lia).
  replace (if rw <? 50
           then setWidth {| x := ofZ rx; y := ofZ ry; width := ofZ rw; height := ofZ rh |} (ofZ 50)
           else {| x := ofZ rx; y := ofZ ry; width := ofZ rw; height := ofZ rh |})
    with {| x := ofZ rx; y := ofZ ry; width := ofZ w1; height := ofZ rh |}
    by (unfold w1; destruct (rw <? 50); reflexivity).
  cbn [x y width height].
  rewrite (ltb_ofZ rh 50) by (rewrite P53; lia).
  set (h1 := if rh <? 50 then 50 else rh).
  assert (Hh1 : 50 <= h1 <= 1125899906842624) by (unfold h1; destruct (Z.ltb_spec rh 50); lia).
  replace (if rh <? 50
           then setHeight {| x := ofZ rx; y := ofZ ry; width := ofZ w1; height := ofZ rh |} (ofZ 50)
           else {| x := ofZ rx; y := ofZ ry; width := ofZ w1; height := ofZ rh |})
    with {| x := ofZ rx; y := ofZ ry; width := ofZ w1; height := ofZ h1 |}
    by (unfold h1; destruct (rh <? 50); reflexivity).
  cbn [x y width height].
  (* not before the origin *)
  rewrite (ltb_ofZ rx 0) by (rewrite P53; lia).
  set (x1 := if rx <? 0 then 0 else rx).
  assert (Hx1 : 0 <= x1 <= 1125899906842624) by (unfold x1; destruct (Z.ltb_spec rx 0); lia).
  replace (if rx <? 0
           then setX {| x := ofZ rx; y := ofZ ry; width := ofZ w1; height := ofZ h1 |} (ofZ 0)
           else {| x := ofZ rx; y := ofZ ry; width := ofZ w1; height := ofZ h1 |})
    with {| x := ofZ x1; y := ofZ ry; width := ofZ w1; height := ofZ h1 |}
    by (unfold x1; destruct (rx <? 0); reflexivity).
  cbn [x y width height].
  rewrite (ltb_ofZ ry 0) by (rewrite P53; lia).
  set (y1 := if ry <? 0 then 0 else ry).
  assert (Hy1 : 0 <= y1 <= 1125899906842624) by (unfold y1; destruct (Z.ltb_spec ry 0); lia).
  replace (if ry <? 0
           then setY {| x := ofZ x1; y := ofZ ry; width := ofZ w1; height := ofZ h1 |} (ofZ 0)
           else {| x := ofZ x1; y := ofZ ry; width := ofZ w1; height := ofZ h1 |})
    with {| x := ofZ x1; y := ofZ y1; width := ofZ w1; height := ofZ h1 |}
    by (unfold y1; destruct (ry <? 0); reflexivity).
  cbn [x y width height].
  (* the right and bottom edges *)
  rewrite (add_ofZ x1 w1) by (rewrite P53; lia).
  rewrite (ltb_ofZ videoWidth (x1 + w1)) by (rewrite P53; lia).
  destruct (videoWidth <? x1 + w1); destruct (isMove handle);
    cbn [setX setY setWidth setHeight x y width height];
    try rewrite (sub_ofZ videoWidth w1) by (rewrite P53; lia);
    try rewrite (sub_ofZ videoWidth x1) by (rewrite P53; lia);
    rewrite (add_ofZ y1 h1) by (rewrite P53; lia);
    rewrite (ltb_ofZ videoHeight (y1 + h1)) by (rewrite P53; lia);
    destruct (videoHeight <? y1 + h1);
    cbn [setX setY setWidth setHeight x y width height];
    try rewrite (sub_ofZ videoHeight h1) by (rewrite P53; lia);
    try rewrite (sub_ofZ videoHeight y1) by (rewrite P53; lia);
    rewrite !ensureEven_ofZ by (rewrite P53; lia);
    reflexivity.
Qed.

(** ** Integers with a signed zero *)

Lemma integerValue_ofZ (n : Z) :
  Z.abs n < 2 ^ 53 -> integerValue (ofZ n) = Some n.
Proof.
  intros Hn. destruct (Z_signed_cases n) as [-> | [s [q [-> Eq]]]];
    [reflexivity |].
  assert (Hq : Z.pos q < 2 ^ 53) by lia.
  rewrite (ofZ_signed s q Hq). unfold canonical, integerValue.
  pose proof (digits_le_53 q Hq) as Hd.
  rewrite (canonicalMantissa_eq q Hd).
  set (d := Z.pos (digits2_pos q)) in *.
  assert (Hd0 : 0 < d) by (unfold d; lia).
  destruct (Z.leb_spec 0 (0 + d - 53)) as [H | H].
  - assert (E : d = 53) by lia. rewrite E. cbn [Z.add Z.sub]. 
    change (53 - 53) with 0. change (0 + 53 - 53) with 0.
    rewrite !Z.pow_0_r, !Z.mul_1_r. reflexivity.
  - replace (- (0 + d - 53)) with (53 - d) by lia.
    assert (P : 0 < 2 ^ (53 - d)) by (apply Z.pow_pos_nonneg; lia).
    rewrite Z.mod_mul by lia. rewrite Z.eqb_refl.
    rewrite Z.div_mul by lia. reflexivity.
Qed.

Lemma integerValue_integer (v : number) (n : Z) :
  isInteger v n -> Z.abs n < 2 ^ 53 -> integerValue v = Some n.
Proof.
  intros [-> | [-> ->]] Hn; [exact (integerValue_ofZ n Hn) | reflexivity].
Qed.

Lemma ofZ_nonzero (n : Z) :
  Z.abs n < 2 ^ 53 -> n <> 0 -> exists s m e, ofZ n = S754_finite s m e.
Proof.
  intros Hn Hz. destruct (Z_signed_cases n) as [-> | [s [q [-> Eq]]]];
    [destruct (Hz eq_refl) |].
  rewrite (ofZ_signed s q) by lia. unfold canonical. eauto.
Qed.

Lemma ltb_integer (v : number) (n m : Z) :
  isInteger v n -> Z.abs n < 2 ^ 53 -> Z.abs m < 2 ^ 53 ->
  SFltb v (ofZ m) = (n <? m).
Proof.
  intros [-> | [-> ->]] Hn Hm; [exact (ltb_ofZ n m Hn Hm) |].
  rewrite <- (ltb_ofZ 0 m Hn Hm). reflexivity.
Qed.

Lemma add_integer (v : number) (n m : Z) :
  isInteger v n -> Z.abs n < 2 ^ 53 -> Z.abs m < 2 ^ 53 ->
  Z.abs (n + m) < 2 ^ 53 ->
  SFadd prec emax v (ofZ m) = ofZ (n + m).
Proof.
  intros [-> | [-> ->]] Hn Hm Hs; [exact (add_ofZ n m Hn Hm Hs) |].
  rewrite Z.add_0_l.
  destruct (Z.eq_dec m 0) as [-> | Hz]; [reflexivity |].
  destruct (ofZ_nonzero m Hm Hz) as [s [q [e E]]]. rewrite E. reflexivity.
Qed.

Lemma sub_integer (v : number) (n m : Z) :
  isInteger v n -> Z.abs n < 2 ^ 53 -> Z.abs m < 2 ^ 53 ->
  Z.abs (m - n) < 2 ^ 53 ->
  SFsub prec emax (ofZ m) v = ofZ (m - n).
Proof.
  intros [-> | [-> ->]] Hn Hm Hs; [exact (sub_ofZ m n Hm Hn Hs) |].
  rewrite Z.sub_0_r.
  destruct (Z.eq_dec m 0) as [-> | Hz]; [reflexivity |].
  destruct (ofZ_nonzero m Hm Hz) as [s [q [e E]]]. rewrite E. reflexivity.
Qed.

Lemma ensureEven_integer (v : number) (n : Z) :
  isInteger v n -> Z.abs n < 2 ^ 53 -> isInteger (ensureEven v) (2 * (n / 2)).
Proof.
  intros [-> | [-> ->]] Hn.
  - left. exact (ensureEven_ofZ n Hn).
  - right. split; reflexivity.
Qed.


(** On coordinates that are integers of magnitude at most 2^50, a [-0]
    included, every step of [constrainRect] is exact: it computes
    [constrainZ]. *)
Lemma constrainRect_on_coordinates (handle : DragHandle)
  (videoWidth videoHeight : Z) (r : CropRect) (rx ry rw rh : Z) :
  Z.abs videoWidth <= coordinateBound -> Z.abs videoHeight <= coordinateBound ->
  Z.abs rx <= coordinateBound -> Z.abs ry <= coordinateBound ->
  Z.abs rw <= coordinateBound -> Z.abs rh <= coordinateBound ->
  isInteger (x r) rx -> isInteger (y r) ry ->
  isInteger (width r) rw -> isInteger (height r) rh ->
  exists X' Y' x' y' w' h',
    constrainZ (isMove handle) videoWidth videoHeight (rx, ry, rw, rh)
    = (x', y', w', h')
    /\ constrainRect handle (ofZ videoWidth) (ofZ videoHeight) r
       = {| x := X'; y := Y'; width := ofZ w'; height := ofZ h' |}
    /\ isInteger X' x' /\ isInteger Y' y'.
Proof.
  unfold coordinateBound. change (2 ^ 50) with 1125899906842624.
  intros HVW HVH Hx Hy Hw Hh Ix Iy Iw Ih.
  assert (P53 : 2 ^ 53 = 9007199254740992) by reflexivity.
  destruct r as [x0 y0 w0 h0]. cbn [x y width height] in Ix, Iy, Iw, Ih.
  unfold constrainRect, constrainZ. cbv zeta.
  unfold ltb, gtb, add, sub.
  cbn [x y width height].
  (* minimum size *)
  rewrite (ltb_integer w0 rw 50 Iw) by (rewrite P53; lia).
  set (w1 := if rw <? 50 then 50 else rw).
  assert (Hw1 : 50 <= w1 <= 1125899906842624)
    by (unfold w1; destruct (Z.ltb_spec rw 50); lia).
  replace (if rw <? 50
           then setWidth {| x := x0; y := y0; width := w0; height := h0 |} (ofZ 50)
           else {| x := x0; y := y0; width := w0; height := h0 |})
    with {| x := x0; y := y0; width := ofZ w1; height := h0 |}
    by (unfold w1; destruct (Z.ltb_spec rw 50); [reflexivity |];
        destruct Iw as [-> | [E _]]; [reflexivity | lia]).
  cbn [x y width height].
  rewrite (ltb_integer h0 rh 50 Ih) by (rewrite P53; lia).
  set (h1 := if rh <? 50 then 50 else rh).
  assert (Hh1 : 50 <= h1 <= 1125899906842624)
    by (unfold h1; destruct (Z.ltb_spec rh 50); lia).
  replace (if rh <? 50
           then setHeight {| x := x0; y := y0; width := ofZ w1; height := h0 |} (ofZ 50)
           else {| x := x0; y := y0; width := ofZ w1; height := h0 |})
    with {| x := x0; y := y0; width := ofZ w1; height := ofZ h1 |}
    by (unfold h1; destruct (Z.ltb_spec rh 50); [reflexivity |];
        destruct Ih as [-> | [E _]]; [reflexivity | lia]).
  cbn [x y width height].
  (* not before the origin: a [-0] is not below 0 and stays *)
  rewrite (ltb_integer x0 rx 0 Ix) by (rewrite P53; lia).
  set (x1 := if rx <? 0 then 0 else rx).
  assert (Hx1 : 0 <= x1 <= 1125899906842624)
    by (unfold x1; destruct (Z.ltb_spec rx 0); lia).
  set (X1 := if rx <? 0 then ofZ 0 else x0).
  assert (IX1 : isInteger X1 x1)
    by (unfold X1, x1; destruct (rx <? 0); [left; reflexivity | exact Ix]).
  replace (if rx <? 0
           then setX {| x := x0; y := y0; width := ofZ w1; height := ofZ h1 |} (ofZ 0)
           else {| x := x0; y := y0; width := ofZ w1; height := ofZ h1 |})
    with {| x := X1; y := y0; width := ofZ w1; height := ofZ h1 |}
    by (unfold X1; destruct (rx <? 0); reflexivity).
  clearbody X1. cbn [x y width height].
  rewrite (ltb_integer y0 ry 0 Iy) by (rewrite P53; lia).
  set (y1 := if ry <? 0 then 0 else ry).
  assert (Hy1 : 0 <= y1 <= 1125899906842624)
    by (unfold y1; destruct (Z.ltb_spec ry 0); lia).
  set (Y1 := if ry <? 0 then ofZ 0 else y0).
  assert (IY1 : isInteger Y1 y1)
    by (unfold Y1, y1; destruct (ry <? 0); [left; reflexivity | exact Iy]).
  replace (if ry <? 0
           then setY {| x := X1; y := y0; width := ofZ w1; height := ofZ h1 |} (ofZ 0)
           else {| x := X1; y := y0; width := ofZ w1; height := ofZ h1 |})
    with {| x := X1; y := Y1; width := ofZ w1; height := ofZ h1 |}
    by (unfold Y1; destruct (ry <? 0); reflexivity).
  clearbody Y1. cbn [x y width height].
  clearbody w1 h1 x1 y1. clear Ix Iy Iw Ih Hx Hy Hw Hh x0 y0 w0 h0 rx ry rw rh.
  (* the right and bottom edges *)
  rewrite (add_integer X1 x1 w1 IX1) by (rewrite P53; lia).
  rewrite (ltb_ofZ videoWidth (x1 + w1)) by (rewrite P53; lia).
  destruct (videoWidth <? x1 + w1); destruct (isMove handle);
    cbn [setX setY setWidth setHeight x y width height];
    try rewrite (sub_ofZ videoWidth w1) by (rewrite P53; lia);
    try rewrite (sub_integer X1 x1 videoWidth IX1) by (rewrite P53; lia);
    rewrite (add_integer Y1 y1 h1 IY1) by (rewrite P53; lia);
    rewrite (ltb_ofZ videoHeight (y1 + h1)) by (rewrite P53; lia);
    destruct (videoHeight <? y1 + h1);
    cbn [setX setY setWidth setHeight x y width height];
    try rewrite (sub_ofZ videoHeight h1) by (rewrite P53; lia);
    try rewrite (sub_integer Y1 y1 videoHeight IY1) by (rewrite P53; lia);
    rewrite !ensureEven_ofZ by (rewrite P53; lia);
    do 6 eexists; (split; [reflexivity |]); (split; [reflexivity |]);
    split;
    first [ left; reflexivity
          | apply ensureEven_integer; [assumption | rewrite P53; lia] ].
Qed.


Lemma leb_ofZ (a b : Z) :
  Z.abs a < 2 ^ 53 -> Z.abs b < 2 ^ 53 ->
  SFleb (ofZ a) (ofZ b) = (a <=? b).
Proof.
  intros Ha Hb. unfold SFleb. rewrite compare_ofZ by assumption.
  unfold Z.leb. destruct (a ?= b); reflexivity.
Qed.

(** [v >= 0] on an integer, a [-0] included. *)
Lemma geb_zero_integer (v : number) (n : Z) :
  isInteger v n -> Z.abs n < 2 ^ 53 -> geb v (ofZ 0) = (0 <=? n).
Proof.
  intros [-> | [-> ->]] Hn; [| reflexivity].
  unfold geb. apply leb_ofZ; [reflexivity | exact Hn].
Qed.

Lemma even_floor (a : Z) : 2 * (a / 2) <= a < 2 * (a / 2) + 2.
Proof. pose proof (Z.div_mod a 2). pose proof (Z.mod_pos_bound a 2). lia. Qed.

(** All the halves of the goal, bounded. *)
Ltac bound_halves :=
  repeat match goal with
         | |- context [?a / 2] =>
             lazymatch goal with
             | _ : 2 * (a / 2) <= a < 2 * (a / 2) + 2 |- _ => fail
             | _ => pose proof (even_floor a)
             end
         end.

(** X20: on an integer of magnitude at most 2^52, [ensureEven] is exact: it
    returns the largest even integer that is not above its argument, and
    applying it again changes nothing. *)
Theorem ensureEven_rounds_down_to_even (a : Z) :
  Z.abs a <= 2 ^ 52 ->
  exists k,
    ensureEven (ofZ a) = ofZ (2 * k)
    /\ 2 * k <= a < 2 * k + 2
    /\ ensureEven (ensureEven (ofZ a)) = ensureEven (ofZ a).
Proof.
  intros Ha. exists (a / 2).
  assert (P53 : 2 ^ 53 = 9007199254740992) by reflexivity.
  change (2 ^ 52) with 4503599627370496 in Ha.
  pose proof (even_floor a) as Hf.
  split; [apply ensureEven_ofZ; rewrite P53; lia |].
  split; [exact Hf |].
  rewrite (ensureEven_ofZ a) by (rewrite P53; lia).
  rewrite ensureEven_ofZ by (rewrite P53; lia).
  assert (E : 2 * (a / 2) / 2 = a / 2)
    by (rewrite Z.mul_comm; apply Z.div_mul; lia).
  rewrite E. reflexivity.
Qed.

Section OnIntegers.

Variable handle : DragHandle.
Variables videoWidth videoHeight rx ry rw rh : Z.

Hypothesis videoWidth_small : Z.abs videoWidth <= coordinateBound.
Hypothesis videoHeight_small : Z.abs videoHeight <= coordinateBound.
Hypothesis rx_small : Z.abs rx <= coordinateBound.
Hypothesis ry_small : Z.abs ry <= coordinateBound.
Hypothesis rw_small : Z.abs rw <= coordinateBound.
Hypothesis rh_small : Z.abs rh <= coordinateBound.




End OnIntegers.

(** What [constrainZ] returns on coordinates of magnitude at most 2^50:
    even integers of magnitude at most 2^52. With a resize handle the
    rectangle lies inside the video. *)
Lemma constrainZ_even_and_small (move : bool)
  (videoWidth videoHeight rx ry rw rh : Z) :
  Z.abs videoWidth <= coordinateBound -> Z.abs videoHeight <= coordinateBound ->
  Z.abs rx <= coordinateBound -> Z.abs ry <= coordinateBound ->
  Z.abs rw <= coordinateBound -> Z.abs rh <= coordinateBound ->
  exists kx ky kw kh,
    constrainZ move videoWidth videoHeight (rx, ry, rw, rh)
    = (2 * kx, 2 * ky, 2 * kw, 2 * kh)
    /\ Z.abs (2 * kx) <= 2 ^ 52 /\ Z.abs (2 * ky) <= 2 ^ 52
    /\ Z.abs (2 * kw) <= 2 ^ 52 /\ Z.abs (2 * kh) <= 2 ^ 52
    /\ (move = false ->
        0 <= 2 * kx /\ 0 <= 2 * ky
        /\ 2 * kx + 2 * kw <= videoWidth /\ 2 * ky + 2 * kh <= videoHeight).
Proof.
  unfold coordinateBound. change (2 ^ 50) with 1125899906842624.
  change (2 ^ 52) with 4503599627370496.
  intros HVW HVH Hx Hy Hw Hh. unfold constrainZ.
  destruct move;
    repeat match goal with
           | |- context [if ?a <? ?b then _ else _] => destruct (Z.ltb_spec a b)
           end;
    do 4 eexists; (split; [reflexivity |]); bound_halves;
    repeat split; try discriminate; lia.
Qed.

Section OnCoordinates.

Variable handle : DragHandle.
Variables videoWidth videoHeight : Z.
Variable newRect : CropRect.
Variables rx ry rw rh : Z.

Hypothesis videoWidth_small : Z.abs videoWidth <= coordinateBound.
Hypothesis videoHeight_small : Z.abs videoHeight <= coordinateBound.
Hypothesis rx_small : Z.abs rx <= coordinateBound.
Hypothesis ry_small : Z.abs ry <= coordinateBound.
Hypothesis rw_small : Z.abs rw <= coordinateBound.
Hypothesis rh_small : Z.abs rh <= coordinateBound.
Hypothesis x_integer : isInteger (x newRect) rx.
Hypothesis y_integer : isInteger (y newRect) ry.
Hypothesis width_integer : isInteger (width newRect) rw.
Hypothesis height_integer : isInteger (height newRect) rh.

Let passed : CropRect :=
  constrainRect handle (ofZ videoWidth) (ofZ videoHeight) newRect.

(** The rectangle passed on, with the integers it holds. *)
Lemma passed_rect :
  exists X' Y' kx ky kw kh,
    constrainZ (isMove handle) videoWidth videoHeight (rx, ry, rw, rh)
    = (2 * kx, 2 * ky, 2 * kw, 2 * kh)
    /\ passed = {| x := X'; y := Y';
                   width := ofZ (2 * kw); height := ofZ (2 * kh) |}
    /\ isInteger X' (2 * kx) /\ isInteger Y' (2 * ky)
    /\ Z.abs (2 * kx) <= 2 ^ 52 /\ Z.abs (2 * ky) <= 2 ^ 52
    /\ Z.abs (2 * kw) <= 2 ^ 52 /\ Z.abs (2 * kh) <= 2 ^ 52
    /\ (isMove handle = false ->
        0 <= 2 * kx /\ 0 <= 2 * ky
        /\ 2 * kx + 2 * kw <= videoWidth /\ 2 * ky + 2 * kh <= videoHeight).
Proof.
  destruct (constrainRect_on_coordinates handle videoWidth videoHeight newRect
              rx ry rw rh videoWidth_small videoHeight_small
              rx_small ry_small rw_small rh_small
              x_integer y_integer width_integer height_integer)
    as [X' [Y' [x' [y' [w' [h' [HZ [HR [IX IY]]]]]]]]].
  destruct (constrainZ_even_and_small (isMove handle) videoWidth videoHeight
              rx ry rw rh videoWidth_small videoHeight_small
              rx_small ry_small rw_small rh_small)
    as [kx [ky [kw [kh [HE [Bx [By [Bw [Bh Hin]]]]]]]]].
  rewrite HE in HZ. injection HZ as <- <- <- <-.
  exists X', Y', kx, ky, kw, kh. unfold passed. auto 12.
Qed.

(** X21: on coordinates that are integers of magnitude at most 2^50, a
    [-0] included, the rectangle passed on has, whatever the handle, four
    finite components whose values are even integers. *)
Theorem constrained_rect_is_even :
  exists kx ky kw kh,
    integerValue (x passed) = Some (2 * kx)
    /\ integerValue (y passed) = Some (2 * ky)
    /\ integerValue (width passed) = Some (2 * kw)
    /\ integerValue (height passed) = Some (2 * kh).
Proof.
  destruct passed_rect
    as [X' [Y' [kx [ky [kw [kh [_ [-> [IX [IY [Bx [By [Bw [Bh _]]]]]]]]]]]]]].
  change (2 ^ 52) with 4503599627370496 in *.
  assert (P53 : 2 ^ 53 = 9007199254740992) by reflexivity.
  exists kx, ky, kw, kh. cbn [x y width height].
  repeat split;
    first [ apply integerValue_integer; [assumption | rewrite P53; lia]
          | apply integerValue_ofZ; rewrite P53; lia ].
Qed.

(** X22: with a resize handle the rectangle passed on has finite integer
    components, starts at or after the origin and ends at or before the
    right and bottom edges of the video; the comparisons hold of the
    numbers themselves, the sums being the ones the program computes. *)
Theorem resized_rect_stays_inside_video :
  isMove handle = false ->
  (exists x' y' w' h',
      integerValue (x passed) = Some x' /\ integerValue (y passed) = Some y'
      /\ integerValue (width passed) = Some w'
      /\ integerValue (height passed) = Some h'
      /\ 0 <= x' /\ 0 <= y'
      /\ x' + w' <= videoWidth /\ y' + h' <= videoHeight)
  /\ geb (x passed) (ofZ 0) = true
  /\ geb (y passed) (ofZ 0) = true
  /\ geb (ofZ videoWidth) (add (x passed) (width passed)) = true
  /\ geb (ofZ videoHeight) (add (y passed) (height passed)) = true.
Proof.
  intros Hmove.
  destruct passed_rect
    as [X' [Y' [kx [ky [kw [kh [_ [-> [IX [IY [Bx [By [Bw [Bh Hin]]]]]]]]]]]]]].
  destruct (Hin Hmove) as [Ox [Oy [Ex Ey]]].
  pose proof videoWidth_small as HVW. pose proof videoHeight_small as HVH.
  unfold coordinateBound in HVW, HVH.
  change (2 ^ 50) with 1125899906842624 in *.
  change (2 ^ 52) with 4503599627370496 in *.
  assert (P53 : 2 ^ 53 = 9007199254740992) by reflexivity.
  cbn [x y width height]. split.
  - exists (2 * kx), (2 * ky), (2 * kw), (2 * kh).
    repeat split; try assumption;
      first [ apply integerValue_integer; [assumption | rewrite P53; lia]
            | apply integerValue_ofZ; rewrite P53; lia ].
  - unfold add.
    rewrite (geb_zero_integer X' (2 * kx) IX) by (rewrite P53; lia).
    rewrite (geb_zero_integer Y' (2 * ky) IY) by (rewrite P53; lia).
    rewrite (add_integer X' (2 * kx) (2 * kw) IX) by (rewrite P53; lia).
    rewrite (add_integer Y' (2 * ky) (2 * kh) IY) by (rewrite P53; lia).
    unfold geb. rewrite !leb_ofZ by (rewrite P53; lia).
    repeat split; apply Z.leb_le; assumption.
Qed.

End OnCoordinates.


(** X24: the scale of [getVideoScale] is the same on both axes, at most
    one of the two offsets is not 0, and the video dimensions are passed
    through, whatever the container and the video dimensions. *)
Theorem getVideoScale_is_uniform (container : option DOMRect)
  (videoWidth videoHeight : number) :
  let scale := getVideoScale container videoWidth videoHeight in
  scaleX scale = scaleY scale
  /\ (offsetX scale = ofZ 0 \/ offsetY scale = ofZ 0)
  /\ scaleVideoWidth scale = videoWidth
  /\ scaleVideoHeight scale = videoHeight.
Proof.
  cbv zeta. unfold getVideoScale.
  destruct (gtb (div videoWidth videoHeight)
              (div (orZero (option_map rectWidth container))
                   (orZero (option_map rectHeight container))));
    cbn [scaleX scaleY offsetX offsetY scaleVideoWidth scaleVideoHeight];
    repeat split; auto.
Qed.

End CropOverlayFacts.

Section NativeSize.

Import CropOverlay.

Ltac small := change (2 ^ 53) with 9007199254740992; lia.

Ltac exact_integers :=
  repeat first
    [ rewrite add_ofZ by small
    | rewrite sub_ofZ by small
    | rewrite mul_one_ofZ by small
    | rewrite div_one_ofZ by small
    | rewrite round_ofZ by small ].

(** The scale of a container that has the size of the video. *)
Lemma getVideoScale_native (videoWidth videoHeight l t : Z) :
  0 < videoWidth <= pixelBound -> 0 < videoHeight <= pixelBound ->
  getVideoScale (Some {| left := ofZ l; top := ofZ t;
                         rectWidth := ofZ videoWidth;
                         rectHeight := ofZ videoHeight |})
    (ofZ videoWidth) (ofZ videoHeight)
  = {| scaleX := ofZ 1; scaleY := ofZ 1; offsetX := ofZ 0; offsetY := ofZ 0;
       scaleVideoWidth := ofZ videoWidth; scaleVideoHeight := ofZ videoHeight;
       displayWidth := ofZ videoWidth; displayHeight := ofZ videoHeight |}.
Proof.
  unfold pixelBound. change (2 ^ 40) with 1099511627776. intros HW HH.
  assert (Hor : forall v, 0 < v <= 1099511627776 -> orZero (Some (ofZ v)) = ofZ v).
  { intros v Hv. destruct v as [| q | q]; try lia.
    rewrite ofZ_pos by small. reflexivity. }
  unfold getVideoScale. cbn [option_map rectWidth rectHeight].
  rewrite !Hor by assumption.
  unfold gtb. rewrite SFltb_irrefl.
  rewrite div_self_ofZ by (try small; lia).
  unfold sub. exact_integers.
  replace (videoWidth - videoWidth) with 0 by lia.
  reflexivity.
Qed.

Lemma dragDisplayRect_on_integers (handle : DragHandle)
  (rx ry rw rh dx dy : Z) :
  Z.abs rx <= coordinateBound -> Z.abs ry <= coordinateBound ->
  Z.abs rw <= coordinateBound -> Z.abs rh <= coordinateBound ->
  Z.abs dx <= coordinateBound -> Z.abs dy <= coordinateBound ->
  dragDisplayRect handle (rectOfZ (rx, ry, rw, rh)) (ofZ dx) (ofZ dy)
  = rectOfZ (dragZ handle (rx, ry, rw, rh) dx dy).
Proof.
  unfold coordinateBound. change (2 ^ 50) with 1125899906842624.
  intros Hx Hy Hw Hh Hdx Hdy.
  unfold dragDisplayRect, dragZ, rectOfZ, add, sub. cbv zeta.
  cbn [x y width height].
  destruct handle; exact_integers; reflexivity.
Qed.

Lemma dragZ_small (handle : DragHandle) (rx ry rw rh dx dy b : Z) :
  Z.abs rx <= b -> Z.abs ry <= b -> Z.abs rw <= b -> Z.abs rh <= b ->
  Z.abs dx <= 3 * b -> Z.abs dy <= 3 * b ->
  exists px py pw ph,
    dragZ handle (rx, ry, rw, rh) dx dy = (px, py, pw, ph)
    /\ Z.abs px <= 4 * b /\ Z.abs py <= 4 * b
    /\ Z.abs pw <= 4 * b /\ Z.abs ph <= 4 * b.
Proof.
  intros Hx Hy Hw Hh Hdx Hdy. unfold dragZ.
  destruct handle; do 4 eexists; (split; [reflexivity |]); lia.
Qed.

(** At scale 1 without offsets the two conversions are the identity on
    integers. *)
Lemma videoToDisplay_native (videoWidth videoHeight rx ry rw rh : Z) :
  Z.abs rx <= coordinateBound -> Z.abs ry <= coordinateBound ->
  Z.abs rw <= coordinateBound -> Z.abs rh <= coordinateBound ->
  videoToDisplay
    {| scaleX := ofZ 1; scaleY := ofZ 1; offsetX := ofZ 0; offsetY := ofZ 0;
       scaleVideoWidth := ofZ videoWidth; scaleVideoHeight := ofZ videoHeight;
       displayWidth := ofZ videoWidth; displayHeight := ofZ videoHeight |}
    (rectOfZ (rx, ry, rw, rh))
  = rectOfZ (rx, ry, rw, rh).
Proof.
  unfold coordinateBound. change (2 ^ 50) with 1125899906842624.
  intros Hx Hy Hw Hh.
  unfold videoToDisplay, rectOfZ, add.
  cbn [x y width height scaleX scaleY offsetX offsetY].
  rewrite (mul_one_ofZ rx), (mul_one_ofZ ry), (mul_one_ofZ rw),
    (mul_one_ofZ rh) by small.
  rewrite (add_ofZ rx 0), (add_ofZ ry 0) by small.
  rewrite !Z.add_0_r. reflexivity.
Qed.

Lemma displayToVideo_native (videoWidth videoHeight a b : Z) :
  Z.abs a <= 4 * coordinateBound -> Z.abs b <= 4 * coordinateBound ->
  displayToVideo
    {| scaleX := ofZ 1; scaleY := ofZ 1; offsetX := ofZ 0; offsetY := ofZ 0;
       scaleVideoWidth := ofZ videoWidth; scaleVideoHeight := ofZ videoHeight;
       displayWidth := ofZ videoWidth; displayHeight := ofZ videoHeight |}
    (ofZ a) (ofZ b)
  = (ofZ a, ofZ b).
Proof.
  unfold coordinateBound. change (2 ^ 50) with 1125899906842624.
  intros Ha Hb.
  unfold displayToVideo, sub. cbn [scaleX scaleY offsetX offsetY].
  rewrite (sub_ofZ a 0), (sub_ofZ b 0) by small.
  rewrite !Z.sub_0_r.
  rewrite (div_one_ofZ a), (div_one_ofZ b) by small.
  rewrite (round_ofZ a), (round_ofZ b) by small.
  reflexivity.
Qed.

(** X25: when the container has exactly the size of the video and all
    pixel coordinates are integers of magnitude at most 2^40, a mouse move
    during a drag reports the start rectangle dragged by the whole-pixel
    displacement of the pointer and then constrained, all computed
    exactly. *)
Theorem handleMouseMove_at_native_size (handle : DragHandle)
  (videoWidth videoHeight l t sx sy cx cy rx ry rw rh : Z) :
  0 < videoWidth <= pixelBound -> 0 < videoHeight <= pixelBound ->
  Z.abs l <= pixelBound -> Z.abs t <= pixelBound ->
  Z.abs sx <= pixelBound -> Z.abs sy <= pixelBound ->
  Z.abs cx <= pixelBound -> Z.abs cy <= pixelBound ->
  Z.abs rx <= pixelBound -> Z.abs ry <= pixelBound ->
  Z.abs rw <= pixelBound -> Z.abs rh <= pixelBound ->
  handleMouseMove (ofZ videoWidth) (ofZ videoHeight)
    {| isDragging := true;
       dragHandle := Some handle;
       dragStartRef := Some {| startX := ofZ sx; startY := ofZ sy;
                               startRect := rectOfZ (rx, ry, rw, rh) |};
       containerRef := Some {| left := ofZ l; top := ofZ t;
                               rectWidth := ofZ videoWidth;
                               rectHeight := ofZ videoHeight |} |}
    (ofZ cx) (ofZ cy)
  = Some (rectOfZ (constrainZ (isMove handle) videoWidth videoHeight
                     (dragZ handle (rx, ry, rw, rh)
                        (cx - l - sx) (cy - t - sy)))).
Proof.
  intros HW HH Hl Ht Hsx Hsy Hcx Hcy Hx Hy Hw Hh.
  pose proof (getVideoScale_native videoWidth videoHeight l t HW HH) as Hscale.
  unfold pixelBound in *. change (2 ^ 40) with 1099511627776 in *.
  unfold handleMouseMove.
  cbn [isDragging dragHandle dragStartRef containerRef startX startY startRect
         left top].
  rewrite Hscale. clear Hscale. cbv zeta.
  cbn [scaleX scaleY offsetX offsetY scaleVideoWidth scaleVideoHeight].
  unfold sub.
  rewrite (sub_ofZ cx l), (sub_ofZ cy t) by small.
  rewrite (sub_ofZ (cx - l) sx), (sub_ofZ (cy - t) sy) by small.
  set (dx := cx - l - sx). set (dy := cy - t - sy).
  assert (Hdx : Z.abs dx <= 3 * 1099511627776) by (unfold dx; lia).
  assert (Hdy : Z.abs dy <= 3 * 1099511627776) by (unfold dy; lia).
  clearbody dx dy. clear Hl Ht Hsx Hsy Hcx Hcy l t sx sy cx cy.
  rewrite videoToDisplay_native
    by (unfold coordinateBound; change (2 ^ 50) with 1125899906842624; lia).
  rewrite dragDisplayRect_on_integers
    by (unfold coordinateBound; change (2 ^ 50) with 1125899906842624; lia).
  destruct (dragZ_small handle rx ry rw rh dx dy 1099511627776
              Hx Hy Hw Hh Hdx Hdy)
    as [px [py [pw [ph [Hd [Hpx [Hpy [Hpw Hph]]]]]]]].
  rewrite Hd. clear Hd Hx Hy Hw Hh Hdx Hdy rx ry rw rh dx dy.
  change (rectOfZ (px, py, pw, ph))
    with {| x := ofZ px; y := ofZ py; width := ofZ pw; height := ofZ ph |}.
  cbn [x y width height].
  unfold add.
  rewrite (add_ofZ px pw), (add_ofZ py ph) by small.
  rewrite !displayToVideo_native
    by (unfold coordinateBound; change (2 ^ 50) with 1125899906842624; lia).
  cbn [fst snd].
  rewrite (sub_ofZ (px + pw) px), (sub_ofZ (py + ph) py) by small.
  replace (px + pw - px) with pw by lia.
  replace (py + ph - py) with ph by lia.
  f_equal.
  change {| x := ofZ px; y := ofZ py; width := ofZ pw; height := ofZ ph |}
    with (rectOfZ (px, py, pw, ph)).
  apply (constrainRect_on_integers handle videoWidth videoHeight px py pw ph);
    unfold coordinateBound; change (2 ^ 50) with 1125899906842624; lia.
Qed.

End NativeSize.

(* ================================================================== *)
(** * The CropOverlay properties on sample values *)
(* ================================================================== *)

Example round_samples :
  map CropOverlay.round
      [div (ofZ 5) (ofZ 2); div (ofZ (-5)) (ofZ 2); div (ofZ 4) (ofZ 10);
       div (ofZ (-4)) (ofZ 10); div (ofZ (-1)) (ofZ 2); div (ofZ 1) (ofZ 2);
       div (ofZ 26) (ofZ 10); div (ofZ (-26)) (ofZ 10); ofZ 7; NaN; Infinity]
  = [ofZ 3; ofZ (-2); posZero; negZero; negZero; ofZ 1;
     ofZ 3; ofZ (-3); ofZ 7; NaN; Infinity].
Proof. vm_compute. reflexivity. Qed.

(** The rectangle of the sample drag that starts at [-0]: the [-0] is
    passed on, the width is cut at the right edge. *)
Example constrainRect_negative_zero :
  CropOverlay.constrainRect CropOverlay.drag_se (ofZ 1920) (ofZ 1080)
    {| CropOverlay.x := negZero; CropOverlay.y := ofZ 701;
       CropOverlay.width := ofZ 1921; CropOverlay.height := ofZ 299 |}
  = {| CropOverlay.x := negZero; CropOverlay.y := ofZ 700;
       CropOverlay.width := ofZ 1920; CropOverlay.height := ofZ 298 |}.
Proof. vm_compute. reflexivity. Qed.

Example integerValue_samples :
  map CropOverlay.integerValue
      [ofZ 7; ofZ (-8); negZero; ofZ (2 ^ 60); div (ofZ 5) (ofZ 2);
       Infinity; NaN]
  = [Some 7; Some (-8); Some 0; Some (2 ^ 60); None; None; None].
Proof. vm_compute. reflexivity. Qed.

Example ensureEven_samples :
  map CropOverlay.ensureEven
      [ofZ 7; ofZ (-7); ofZ 0; ofZ 1; ofZ (-1); ofZ 50;
       div (ofZ 5) (ofZ 2); NaN; negZero]
  = [ofZ 6; ofZ (-8); ofZ 0; ofZ 0; ofZ (-2); ofZ 50; ofZ 2; NaN; negZero].
Proof. vm_compute. reflexivity. Qed.

Lemma ensureEven_rounds_down_to_even_witness :
  exists k,
    CropOverlay.ensureEven (ofZ (-7)) = ofZ (2 * k)
    /\ 2 * k <= -7 < 2 * k + 2
    /\ CropOverlay.ensureEven (CropOverlay.ensureEven (ofZ (-7)))
       = CropOverlay.ensureEven (ofZ (-7)).
Proof.
  apply (ensureEven_rounds_down_to_even (-7)). vm_compute. discriminate.
Defined.

(** A rectangle that starts at [-0] and is dragged over the right edge of
    a 1920 x 1080 video. *)
Lemma constrained_rect_is_even_witness :
  let passed :=
    CropOverlay.constrainRect CropOverlay.drag_se (ofZ 1920) (ofZ 1080)
      {| CropOverlay.x := negZero; CropOverlay.y := ofZ 701;
         CropOverlay.width := ofZ 1921; CropOverlay.height := ofZ 299 |} in
  exists kx ky kw kh,
    CropOverlay.integerValue (CropOverlay.x passed) = Some (2 * kx)
    /\ CropOverlay.integerValue (CropOverlay.y passed) = Some (2 * ky)
    /\ CropOverlay.integerValue (CropOverlay.width passed) = Some (2 * kw)
    /\ CropOverlay.integerValue (CropOverlay.height passed) = Some (2 * kh).
Proof.
  apply (constrained_rect_is_even CropOverlay.drag_se 1920 1080
           {| CropOverlay.x := negZero; CropOverlay.y := ofZ 701;
              CropOverlay.width := ofZ 1921; CropOverlay.height := ofZ 299 |}
           0 701 1921 299);
    first [ vm_compute; discriminate
          | left; reflexivity
          | right; split; reflexivity ].
Defined.

Lemma resized_rect_stays_inside_video_witness :
  let passed :=
    CropOverlay.constrainRect CropOverlay.drag_se (ofZ 1920) (ofZ 1080)
      {| CropOverlay.x := negZero; CropOverlay.y := ofZ 701;
         CropOverlay.width := ofZ 1921; CropOverlay.height := ofZ 299 |} in
  (exists x' y' w' h',
      CropOverlay.integerValue (CropOverlay.x passed) = Some x'
      /\ CropOverlay.integerValue (CropOverlay.y passed) = Some y'
      /\ CropOverlay.integerValue (CropOverlay.width passed) = Some w'
      /\ CropOverlay.integerValue (CropOverlay.height passed) = Some h'
      /\ 0 <= x' /\ 0 <= y' /\ x' + w' <= 1920 /\ y' + h' <= 1080)
  /\ geb (CropOverlay.x passed) (ofZ 0) = true
  /\ geb (CropOverlay.y passed) (ofZ 0) = true
  /\ geb (ofZ 1920)
        (CropOverlay.add (CropOverlay.x passed) (CropOverlay.width passed))
     = true
  /\ geb (ofZ 1080)
        (CropOverlay.add (CropOverlay.y passed) (CropOverlay.height passed))
     = true.
Proof.
  apply (resized_rect_stays_inside_video CropOverlay.drag_se 1920 1080
           {| CropOverlay.x := negZero; CropOverlay.y := ofZ 701;
              CropOverlay.width := ofZ 1921; CropOverlay.height := ofZ 299 |}
           0 701 1921 299);
    first [ vm_compute; discriminate
          | left; reflexivity
          | right; split; reflexivity
          | reflexivity ].
Defined.


(** A drag of the south-east handle by (50, 30) pixels at native size. *)
Lemma handleMouseMove_at_native_size_witness :
  CropOverlay.handleMouseMove (ofZ 1920) (ofZ 1080)
    {| CropOverlay.isDragging := true;
       CropOverlay.dragHandle := Some CropOverlay.drag_se;
       CropOverlay.dragStartRef :=
         Some {| CropOverlay.startX := ofZ 740; CropOverlay.startY := ofZ 460;
                 CropOverlay.startRect := CropOverlay.rectOfZ (100, 100, 640, 360) |};
       CropOverlay.containerRef :=
         Some {| CropOverlay.left := ofZ 10; CropOverlay.top := ofZ 20;
                 CropOverlay.rectWidth := ofZ 1920;
                 CropOverlay.rectHeight := ofZ 1080 |} |}
    (ofZ 800) (ofZ 510)
  = Some (CropOverlay.rectOfZ (100, 100, 690, 390)).
Proof.
  apply (handleMouseMove_at_native_size CropOverlay.drag_se
           1920 1080 10 20 740 460 800 510 100 100 640 360);
    vm_compute; first [discriminate | intuition discriminate].
Defined.
